(** * Order orchestration and downstream circuit breaking

    A shallow embedding of the order service of the e-commerce
    microservices repository:

    - [pkg/grpcmiddleware] : [isBreakerFailure] and
      [CircuitBreakerUnaryClientInterceptor], together with the
      [github.com/sony/gobreaker] state machine the interceptor drives;
    - [services/OrderService/internal/repository/postgresql] : the order
      repository over a relational store;
    - [services/OrderService/internal/usecase] : [OrderUsecase] with
      [calculateOrderTotal], [sumItemsTotal], [ensureUserExists],
      [ensureProductExists], [CreateOrder], [AddOrderItem],
      [RemoveOrderItem];
    - [services/OrderService/internal/delivery/grpc/handler] : the request
      validation in front of [CreateOrder].

    Go's [float32] and [float64] are the IEEE 754 binary formats of
    [SpecFloat]; unsigned counters are [Z] with their wrap-around written
    out; effects (clock, remote services, breaker, store) are threaded
    explicitly. *)

From Stdlib Require Import ZArith List Bool String Lia.
From Stdlib Require Import Floats.SpecFloat.
Import ListNotations.
Local Open Scope Z_scope.

(** ** Machine numbers *)

Definition wrap (bits : Z) (x : Z) : Z := x mod 2 ^ bits.
Definition uint32 (x : Z) : Z := wrap 32 x.
Definition uint64 (x : Z) : Z := wrap 64 x.

(** Conversion to a signed integer of [bits] bits (two's complement). *)
Definition to_signed (bits : Z) (x : Z) : Z :=
  let r := wrap bits x in
  if r <? 2 ^ (bits - 1) then r else r - 2 ^ bits.
Definition int32 (x : Z) : Z := to_signed 32 x.
Definition int64 (x : Z) : Z := to_signed 64 x.

(** Go's [float32]: binary32, round to nearest even. *)
Module F32.
Definition prec : Z := 24.
Definition emax : Z := 128.
Definition t := spec_float.
Definition zero : t := S754_zero false.
Definition add : t -> t -> t := SFadd prec emax.
Definition sub : t -> t -> t := SFsub prec emax.
Definition mul : t -> t -> t := SFmul prec emax.
Definition ltb : t -> t -> bool := SFltb.
Definition leb : t -> t -> bool := SFleb.
(** [float32(n)] for an integer [n]. *)
Definition of_int (n : Z) : t := binary_normalize prec emax n 0 false.
End F32.

(** Go's [float64]: binary64, round to nearest even. *)
Module F64.
Definition prec : Z := 53.
Definition emax : Z := 1024.
Definition t := spec_float.
Definition div : t -> t -> t := SFdiv prec emax.
Definition leb : t -> t -> bool := SFleb.
(** [float64(n)] for an integer [n]. *)
Definition of_int (n : Z) : t := binary_normalize prec emax n 0 false.
End F64.

(** ** Errors *)

(** [google.golang.org/grpc/codes]. *)
Inductive Code :=
| OK | Canceled | Unknown | InvalidArgument | DeadlineExceeded | NotFound
| AlreadyExists | PermissionDenied | ResourceExhausted | FailedPrecondition
| Aborted | OutOfRange | Unimplemented | Internal | Unavailable | DataLoss
| Unauthenticated.

(** The Go [error] values that flow through the order service.  A nil
    error is [None] of [option error]. *)
Inductive error :=
| StatusError (c : Code) (msg : string)  (* status.Error(c, msg) *)
| ErrorString (msg : string)             (* errors.New, fmt.Errorf without %w *)
| WrapError (msg : string) (cause : error) (* fmt.Errorf(msg + "%w", cause) *)
| ErrOpenState                           (* gobreaker.ErrOpenState *)
| ErrTooManyRequests                     (* gobreaker.ErrTooManyRequests *)
| ErrOrderNotFound                       (* repository.ErrOrderNotFound *)
| ErrOrderItemNotFound                   (* repository.ErrOrderItemNotFound *)
| ValidationErrors                       (* validator.ValidationErrors *)
| DriverError.                           (* an error of the SQL driver *)

Inductive Res (A : Type) :=
| Ok (a : A)
| Err (e : error).
Arguments Ok {A} a.
Arguments Err {A} e.

(** [errors.Unwrap]. *)
Definition Unwrap (e : error) : option error :=
  match e with
  | WrapError _ cause => Some cause
  | _ => None
  end.

Definition error_tag (e : error) : nat :=
  match e with
  | StatusError _ _ => 0 | ErrorString _ => 1 | WrapError _ _ => 2
  | ErrOpenState => 3 | ErrTooManyRequests => 4 | ErrOrderNotFound => 5
  | ErrOrderItemNotFound => 6 | ValidationErrors => 7 | DriverError => 8
  end%nat.

(** [errors.Is(e, target)] for a sentinel [target]: identity along the
    [Unwrap] chain. *)
Fixpoint errors_Is (e target : error) : bool :=
  match e with
  | WrapError _ cause => errors_Is cause target
  | ErrOpenState | ErrTooManyRequests | ErrOrderNotFound
  | ErrOrderItemNotFound =>
      Nat.eqb (error_tag e) (error_tag target)
  | _ => false
  end.

(** [status.FromError]: the status carried by the error itself or by an
    error it wraps; [None] is the [ok = false] result. *)
Fixpoint FromError (e : error) : option Code :=
  match e with
  | StatusError c _ => Some c
  | WrapError _ cause => FromError cause
  | _ => None
  end.

(** ** pkg/grpcmiddleware: the failure classifier *)

Definition isBreakerFailure (err : option error) : bool :=
  match err with
  | None => false
  | Some e =>
      match FromError e with
      | None => true
      | Some c =>
          match c with
          | Unavailable | DeadlineExceeded | ResourceExhausted | Internal => true
          | _ => false
          end
      end
  end.


(** ** github.com/sony/gobreaker

    The circuit breaker the interceptor instantiates.  Instants are
    nanoseconds since Go's zero [time.Time], so [IsZero] is [= 0] and
    [Before] is [<]; durations are nanoseconds.  The mutex makes
    [beforeRequest] and [afterRequest] indivisible, which is how they are
    modelled; the [OnStateChange] callback only logs and is left out. *)
Module gobreaker.

Definition Time := Z.
Definition Duration := Z.

Inductive State := StateClosed | StateHalfOpen | StateOpen.

Definition State_eqb (a b : State) : bool :=
  match a, b with
  | StateClosed, StateClosed | StateHalfOpen, StateHalfOpen
  | StateOpen, StateOpen => true
  | _, _ => false
  end.

Record Counts := mkCounts {
  Requests : Z;
  TotalSuccesses : Z;
  TotalFailures : Z;
  ConsecutiveSuccesses : Z;
  ConsecutiveFailures : Z
}.

Definition Counts_onRequest (c : Counts) : Counts :=
  mkCounts (uint32 (Requests c + 1)) (TotalSuccesses c) (TotalFailures c)
           (ConsecutiveSuccesses c) (ConsecutiveFailures c).

Definition Counts_onSuccess (c : Counts) : Counts :=
  mkCounts (Requests c) (uint32 (TotalSuccesses c + 1)) (TotalFailures c)
           (uint32 (ConsecutiveSuccesses c + 1)) 0.

Definition Counts_onFailure (c : Counts) : Counts :=
  mkCounts (Requests c) (TotalSuccesses c) (uint32 (TotalFailures c + 1))
           0 (uint32 (ConsecutiveFailures c + 1)).

Definition Counts_clear : Counts := mkCounts 0 0 0 0 0.

Record Settings := mkSettings {
  Name : string;
  MaxRequests : Z;
  Interval : Duration;
  Timeout : Duration;
  ReadyToTrip : option (Counts -> bool);
  IsSuccessful : option (option error -> bool)
}.

Record CircuitBreaker := mkCircuitBreaker {
  name : string;
  maxRequests : Z;
  interval : Duration;
  timeout : Duration;
  readyToTrip : Counts -> bool;
  isSuccessful : option error -> bool;
  state : State;
  generation : Z;
  counts : Counts;
  expiry : Time
}.

Definition defaultInterval : Duration := 0.
Definition defaultTimeout : Duration := 60 * 1000000000.

Definition defaultReadyToTrip (c : Counts) : bool :=
  5 <? ConsecutiveFailures c.

Definition defaultIsSuccessful (err : option error) : bool :=
  match err with None => true | Some _ => false end.

Definition with_state (cb : CircuitBreaker) (s : State) : CircuitBreaker :=
  mkCircuitBreaker (name cb) (maxRequests cb) (interval cb) (timeout cb)
    (readyToTrip cb) (isSuccessful cb) s (generation cb) (counts cb)
    (expiry cb).

Definition with_counts (cb : CircuitBreaker) (c : Counts) : CircuitBreaker :=
  mkCircuitBreaker (name cb) (maxRequests cb) (interval cb) (timeout cb)
    (readyToTrip cb) (isSuccessful cb) (state cb) (generation cb) c
    (expiry cb).

Definition toNewGeneration (cb : CircuitBreaker) (now : Time)
  : CircuitBreaker :=
  let zero := 0 in
  let expiry' :=
    match state cb with
    | StateClosed =>
        if interval cb =? 0 then zero else now + interval cb
    | StateOpen => now + timeout cb
    | StateHalfOpen => zero
    end in
  mkCircuitBreaker (name cb) (maxRequests cb) (interval cb) (timeout cb)
    (readyToTrip cb) (isSuccessful cb) (state cb)
    (uint64 (generation cb + 1)) Counts_clear expiry'.

Definition setState (cb : CircuitBreaker) (s : State) (now : Time)
  : CircuitBreaker :=
  if State_eqb (state cb) s then cb
  else toNewGeneration (with_state cb s) now.

Definition NewCircuitBreaker (st : Settings) (now : Time) : CircuitBreaker :=
  let cb :=
    mkCircuitBreaker (Name st)
      (if MaxRequests st =? 0 then 1 else MaxRequests st)
      (if Interval st <=? 0 then defaultInterval else Interval st)
      (if Timeout st <=? 0 then defaultTimeout else Timeout st)
      (match ReadyToTrip st with
       | None => defaultReadyToTrip
       | Some f => f
       end)
      (match IsSuccessful st with
       | None => defaultIsSuccessful
       | Some f => f
       end)
      StateClosed 0 Counts_clear 0 in
  toNewGeneration cb now.

(** [currentState] returns the breaker after the transition the clock
    may force; its state and generation are the Go results. *)
Definition currentState (cb : CircuitBreaker) (now : Time) : CircuitBreaker :=
  match state cb with
  | StateClosed =>
      if negb (expiry cb =? 0) && (expiry cb <? now)
      then toNewGeneration cb now else cb
  | StateOpen =>
      if expiry cb <? now then setState cb StateHalfOpen now else cb
  | StateHalfOpen => cb
  end.

(** Returns the generation, the error (nil when admitted) and the
    breaker. *)
Definition beforeRequest (cb : CircuitBreaker) (now : Time)
  : Z * option error * CircuitBreaker :=
  let cb := currentState cb now in
  match state cb with
  | StateOpen => (generation cb, Some ErrOpenState, cb)
  | StateHalfOpen =>
      if maxRequests cb <=? Requests (counts cb)
      then (generation cb, Some ErrTooManyRequests, cb)
      else (generation cb, None, with_counts cb (Counts_onRequest (counts cb)))
  | StateClosed =>
      (generation cb, None, with_counts cb (Counts_onRequest (counts cb)))
  end.

Definition onSuccess (cb : CircuitBreaker) (st : State) (now : Time)
  : CircuitBreaker :=
  match st with
  | StateClosed => with_counts cb (Counts_onSuccess (counts cb))
  | StateHalfOpen =>
      let cb := with_counts cb (Counts_onSuccess (counts cb)) in
      if maxRequests cb <=? ConsecutiveSuccesses (counts cb)
      then setState cb StateClosed now else cb
  | StateOpen => cb
  end.

Definition onFailure (cb : CircuitBreaker) (st : State) (now : Time)
  : CircuitBreaker :=
  match st with
  | StateClosed =>
      let cb := with_counts cb (Counts_onFailure (counts cb)) in
      if readyToTrip cb (counts cb) then setState cb StateOpen now else cb
  | StateHalfOpen => setState cb StateOpen now
  | StateOpen => cb
  end.

Definition afterRequest (cb : CircuitBreaker) (before : Z) (success : bool)
                        (now : Time) : CircuitBreaker :=
  let cb := currentState cb now in
  if negb (generation cb =? before) then cb
  else if success then onSuccess cb (state cb) now
  else onFailure cb (state cb) now.

Section Execute.
(** [W] is everything outside the breaker that the request can read
    and change; [clock] is [time.Now]. *)
Context {W A : Type}.
Variable clock : W -> Time.

Definition Execute (cb : CircuitBreaker)
                   (req : W -> (A * option error) * W) (w : W)
  : (option A * option error) * CircuitBreaker * W :=
  match beforeRequest cb (clock w) with
  | (_, Some err, cb1) => ((None, Some err), cb1, w)
  | (gen, None, cb1) =>
      let '((result, err), w') := req w in
      let cb2 := afterRequest cb1 gen (isSuccessful cb1 err) (clock w') in
      ((Some result, err), cb2, w')
  end.
End Execute.

End gobreaker.

(** ** pkg/grpcmiddleware: the client interceptor *)
Module grpcmiddleware.
Import gobreaker.

Record CircuitBreakerConfig := mkConfig {
  Enabled : bool;
  cfgMaxRequests : Z;       (* uint32 *)
  cfgInterval : Duration;
  cfgTimeout : Duration;
  FailureRatio : F64.t;
  MinRequests : Z           (* uint32 *)
}.

(** The [ReadyToTrip] closure of the interceptor. *)
Definition ReadyToTrip (cfg : CircuitBreakerConfig) (counts : Counts) : bool :=
  if (0 <? MinRequests cfg) && (Requests counts <? MinRequests cfg)
  then false
  else if Requests counts =? 0 then false
  else
    let failureRatio :=
      F64.div (F64.of_int (TotalFailures counts))
              (F64.of_int (Requests counts)) in
    F64.leb (FailureRatio cfg) failureRatio.

(** The [IsSuccessful] closure of the interceptor. *)
Definition IsSuccessful (err : option error) : bool :=
  negb (isBreakerFailure err).

Definition settings (name : string) (cfg : CircuitBreakerConfig) : Settings :=
  mkSettings name (cfgMaxRequests cfg) (cfgInterval cfg) (cfgTimeout cfg)
             (Some (ReadyToTrip cfg)) (Some IsSuccessful).

(** What the closure returned by
    [CircuitBreakerUnaryClientInterceptor] captures: nothing when the
    breaker is disabled, the breaker otherwise. *)
Definition Interceptor := option CircuitBreaker.

Definition CircuitBreakerUnaryClientInterceptor
    (name : string) (cfg : CircuitBreakerConfig) (now : Time) : Interceptor :=
  if negb (Enabled cfg) then None
  else Some (NewCircuitBreaker (settings name cfg) now).

Section Intercept.
Context {W : Type}.
Variable clock : W -> Time.

(** One call through the interceptor.  [invoker] performs the remote
    call: it returns what it wrote into [reply] and its error.  The
    result carries no reply when the invoker was not run. *)
Definition intercept {A : Type} (i : Interceptor)
    (invoker : W -> (A * option error) * W) (w : W)
  : (option A * option error) * Interceptor * W :=
  match i with
  | None =>
      let '((reply, err), w') := invoker w in
      ((Some reply, err), None, w')
  | Some cb =>
      let '(res, cb', w') := Execute clock cb invoker w in
      (res, Some cb', w')
  end.
End Intercept.

End grpcmiddleware.

(** ** services/OrderService/internal/domain *)
Module domain.

Definition OrderStatus := string.
Definition OrderStatusPending : OrderStatus := "pending"%string.
Definition OrderStatusPaid : OrderStatus := "paid"%string.
Definition OrderStatusShipped : OrderStatus := "shipped"%string.
Definition OrderStatusDelivered : OrderStatus := "delivered"%string.
Definition OrderStatusCanceled : OrderStatus := "canceled"%string.

(** [gorm.Model] contributes [ID] and [DeletedAt]; only whether
    [DeletedAt] is set matters to the queries, so it is a flag.  The
    two timestamps [CreatedAt] and [UpdatedAt] are not modelled. *)
Module OrderItem.
Record t := mk {
  ID : Z;
  DeletedAt : bool;
  OrderID : Z;
  ProductID : Z;
  Quantity : Z;
  UnitPrice : F32.t;
  TotalPrice : F32.t
}.
End OrderItem.

Module Order.
Record t := mk {
  ID : Z;
  DeletedAt : bool;
  UserID : Z;
  ShippingCost : F32.t;
  ShippingDurationDays : Z;
  Discount : F32.t;
  Total : F32.t;
  Status : OrderStatus;
  Items : list OrderItem.t
}.
End Order.

End domain.

(** ** services/OrderService/internal/delivery/grpc/dto *)
Module dto.

Module OrderItemInput.
Record t := mk { ProductID : Z; Quantity : Z }.
End OrderItemInput.

Module CreateOrderRequest.
Record t := mk {
  UserID : Z;
  ShippingCost : F32.t;
  ShippingDurationDays : Z;
  Discount : F32.t;
  Items : list OrderItemInput.t
}.
End CreateOrderRequest.

Module AddOrderItemRequest.
Record t := mk { OrderID : Z; ProductID : Z; Quantity : Z }.
End AddOrderItemRequest.

Module UpdateOrderStatusRequest.
Record t := mk { OrderID : Z; Status : string }.
End UpdateOrderStatusRequest.

End dto.

(** ** The store behind [*gorm.DB]

    The two tables of the migrations, their [serial] sequences, and a
    script of the outcomes of the statements still to come ([true]: the
    statement fails with a driver error; past the end of the script no
    statement fails).  A row of [orders] is an [Order.t] whose [Items] is
    empty: the items live in [order_items].

    [save_associations] is a setting of the handle, not of the
    repository's code: whether [Create] on a record also inserts the
    records of its has-many association.  GORM does so by default
    ([true]); what is proved below holds for both values. *)
Module store.
Import domain.

Record DB := mkDB {
  orders : list Order.t;
  order_items : list OrderItem.t;
  orders_id_seq : Z;
  order_items_id_seq : Z;
  faults : list bool;
  save_associations : bool
}.

(** The outcome of the next statement, and the store with the script
    advanced. *)
Definition next_fault (db : DB) : bool * DB :=
  match faults db with
  | [] => (false, db)
  | f :: fs =>
      (f, mkDB (orders db) (order_items db) (orders_id_seq db)
               (order_items_id_seq db) fs (save_associations db))
  end.

Definition order_row (o : Order.t) (id : Z) : Order.t :=
  Order.mk id (Order.DeletedAt o) (Order.UserID o) (Order.ShippingCost o)
    (Order.ShippingDurationDays o) (Order.Discount o) (Order.Total o)
    (Order.Status o) [].

Definition has_order_id (db : DB) (id : Z) : bool :=
  existsb (fun o => Order.ID o =? id) (orders db).

Definition has_item_id (db : DB) (id : Z) : bool :=
  existsb (fun it => OrderItem.ID it =? id) (order_items db).

(** [INSERT INTO orders ... RETURNING id] for an order whose [ID] is
    zero: the id comes from the sequence.  Returns the assigned id. *)
Definition insert_order (db : DB) (o : Order.t) : Res Z * DB :=
  let '(fault, db) := next_fault db in
  if fault then (Err DriverError, db)
  else
    let id := if Order.ID o =? 0 then orders_id_seq db + 1 else Order.ID o in
    let seq := if Order.ID o =? 0 then id else orders_id_seq db in
    let db := mkDB (orders db) (order_items db) seq (order_items_id_seq db)
                   (faults db) (save_associations db) in
    if has_order_id db id then (Err DriverError, db)
    else
      (Ok id,
       mkDB (orders db ++ [order_row o id]) (order_items db) seq
            (order_items_id_seq db) (faults db) (save_associations db)).

Definition with_item_id (it : OrderItem.t) (id : Z) : OrderItem.t :=
  OrderItem.mk id (OrderItem.DeletedAt it) (OrderItem.OrderID it)
    (OrderItem.ProductID it) (OrderItem.Quantity it) (OrderItem.UnitPrice it)
    (OrderItem.TotalPrice it).

Definition with_order_id (it : OrderItem.t) (oid : Z) : OrderItem.t :=
  OrderItem.mk (OrderItem.ID it) (OrderItem.DeletedAt it) oid
    (OrderItem.ProductID it) (OrderItem.Quantity it) (OrderItem.UnitPrice it)
    (OrderItem.TotalPrice it).

(** [INSERT INTO order_items ... RETURNING id] with the id column
    omitted: the id comes from the sequence, and [order_id] must
    reference a row of [orders]. *)
Definition insert_item (db : DB) (it : OrderItem.t) : Res Z * DB :=
  let '(fault, db) := next_fault db in
  if fault then (Err DriverError, db)
  else
    let id := order_items_id_seq db + 1 in
    let db := mkDB (orders db) (order_items db) (orders_id_seq db) id
                   (faults db) (save_associations db) in
    if has_item_id db id || negb (has_order_id db (OrderItem.OrderID it))
    then (Err DriverError, db)
    else
      (Ok id,
       mkDB (orders db) (order_items db ++ [with_item_id it id])
            (orders_id_seq db) id (faults db) (save_associations db)).

(** The rows the engine stores for [items] inserted one after the
    other for the order [orderID], when the sequence stands at [seq]. *)
Fixpoint assign_ids (seq orderID : Z) (items : list OrderItem.t)
  : list OrderItem.t :=
  match items with
  | [] => []
  | it :: rest =>
      with_item_id (with_order_id it orderID) (seq + 1)
      :: assign_ids (seq + 1) orderID rest
  end.

(** The one batch [INSERT INTO order_items] by which [Create] on an
    order saves its [Items] (items whose [ID] is zero, as the use case
    builds them): their [order_id] is the order's id and their ids come
    from the sequence.  GORM adds a conflict clause on the id to the
    statement; an id fresh from the sequence conflicts with no row of a
    store whose ids all come from it, and a conflict is taken here as a
    failure of the statement. *)
Definition insert_items (db : DB) (orderID : Z) (items : list OrderItem.t)
  : Res (list OrderItem.t) * DB :=
  let '(fault, db) := next_fault db in
  if fault then (Err DriverError, db)
  else
    let rows := assign_ids (order_items_id_seq db) orderID items in
    let seq := order_items_id_seq db + Z.of_nat (List.length items) in
    let db := mkDB (orders db) (order_items db) (orders_id_seq db) seq
                   (faults db) (save_associations db) in
    if existsb (fun r => has_item_id db (OrderItem.ID r)) rows
       || negb (has_order_id db orderID)
    then (Err DriverError, db)
    else
      (Ok rows,
       mkDB (orders db) (order_items db ++ rows) (orders_id_seq db) seq
            (faults db) (save_associations db)).

(** [db.Transaction(fn)]: commit when [fn] returns nil, roll the rows
    back otherwise.  Sequences and consumed statement outcomes are not
    rolled back. *)
Definition Transaction {A : Type} (db : DB)
    (fn : DB -> option error * A * DB) : option error * A * DB :=
  match fn db with
  | (None, a, tx) => (None, a, tx)
  | (Some err, a, tx) =>
      (Some err, a,
       mkDB (orders db) (order_items db) (orders_id_seq tx)
            (order_items_id_seq tx) (faults tx) (save_associations db))
  end.

(** The rows of an order's live items, as [Preload("Items")] loads
    them. *)
Definition items_of (db : DB) (orderID : Z) : list OrderItem.t :=
  filter (fun it => (OrderItem.OrderID it =? orderID)
                    && negb (OrderItem.DeletedAt it))
         (order_items db).

Definition find_order (db : DB) (id : Z) : option Order.t :=
  find (fun o => (Order.ID o =? id) && negb (Order.DeletedAt o)) (orders db).

End store.

(** ** services/OrderService/internal/repository/postgresql

    Each function takes the store and returns it; whatever the Go code
    writes through the [*domain.Order] or [*domain.OrderItem] pointer is
    returned with the error.  Tracing spans are left out. *)
Module OrderRepository.
Import domain store.

Definition with_items (o : Order.t) (id : Z) (items : list OrderItem.t)
  : Order.t :=
  Order.mk id (Order.DeletedAt o) (Order.UserID o) (Order.ShippingCost o)
    (Order.ShippingDurationDays o) (Order.Discount o) (Order.Total o)
    (Order.Status o) items.

(** The loop of [CreateOrder] over [order.Items]: [done] are the items
    already created (in reverse), [todo] those still to create. *)
Fixpoint create_items (tx : DB) (orderID : Z) (done todo : list OrderItem.t)
  : option error * list OrderItem.t * DB :=
  match todo with
  | [] => (None, rev done, tx)
  | it :: rest =>
      let it := with_order_id (with_item_id it 0) orderID in
      match insert_item tx it with
      | (Err err, tx) => (Some err, rev done ++ it :: rest, tx)
      | (Ok id, tx) =>
          create_items tx orderID (with_item_id it id :: done) rest
      end
  end.

(** [Create] on an order: the order's row, then, when the handle saves
    associations, its [Items] in one batch. *)
Definition Create (tx : DB) (order : Order.t) : Res Order.t * DB :=
  match insert_order tx order with
  | (Err err, tx) => (Err err, tx)
  | (Ok id, tx) =>
      match Order.Items order with
      | [] => (Ok (with_items order id []), tx)
      | items =>
          if save_associations tx then
            match insert_items tx id items with
            | (Err err, tx) => (Err err, tx)
            | (Ok rows, tx) => (Ok (with_items order id rows), tx)
            end
          else (Ok (with_items order id items), tx)
      end
  end.

Definition CreateOrder (db : DB) (order : Order.t)
  : option error * Order.t * DB :=
  Transaction db (fun tx =>
    match Create tx order with
    | (Err err, tx) => (Some err, order, tx)
    | (Ok order, tx) =>
        let '(err, items, tx) :=
          create_items tx (Order.ID order) [] (Order.Items order) in
        (err, with_items order (Order.ID order) items, tx)
    end).

Definition GetOrderByID (db : DB) (id : Z) : Res Order.t * DB :=
  let '(fault, db) := next_fault db in
  if fault then (Err DriverError, db)
  else
    match find_order db id with
    | None => (Err ErrOrderNotFound, db)
    | Some o => (Ok (with_items o (Order.ID o) (items_of db id)), db)
    end.

Definition AddOrderItem (db : DB) (item : OrderItem.t)
  : option error * OrderItem.t * DB :=
  let item := with_item_id item 0 in
  match insert_item db item with
  | (Err err, db) => (Some err, item, db)
  | (Ok id, db) => (None, with_item_id item id, db)
  end.

Definition matches (orderID itemID : Z) (it : OrderItem.t) : bool :=
  (OrderItem.ID it =? itemID) && (OrderItem.OrderID it =? orderID)
  && negb (OrderItem.DeletedAt it).

Definition soft_delete (it : OrderItem.t) : OrderItem.t :=
  OrderItem.mk (OrderItem.ID it) true (OrderItem.OrderID it)
    (OrderItem.ProductID it) (OrderItem.Quantity it) (OrderItem.UnitPrice it)
    (OrderItem.TotalPrice it).

Definition RemoveOrderItem (db : DB) (orderID itemID : Z)
  : option error * DB :=
  let '(fault, db) := next_fault db in
  if fault then (Some DriverError, db)
  else
    let rowsAffected :=
      List.length (filter (matches orderID itemID) (order_items db)) in
    if Nat.eqb rowsAffected 0 then (Some ErrOrderItemNotFound, db)
    else
      (None,
       mkDB (orders db)
            (map (fun it => if matches orderID itemID it
                            then soft_delete it else it) (order_items db))
            (orders_id_seq db) (order_items_id_seq db) (faults db)
            (save_associations db)).

Definition with_total (o : Order.t) (total : F32.t) : Order.t :=
  Order.mk (Order.ID o) (Order.DeletedAt o) (Order.UserID o)
    (Order.ShippingCost o) (Order.ShippingDurationDays o) (Order.Discount o)
    total (Order.Status o) (Order.Items o).

Definition live_order (orderID : Z) (o : Order.t) : bool :=
  (Order.ID o =? orderID) && negb (Order.DeletedAt o).

Definition UpdateOrderTotal (db : DB) (orderID : Z) (total : F32.t)
  : option error * DB :=
  let '(fault, db) := next_fault db in
  if fault then (Some DriverError, db)
  else
    let rowsAffected := List.length (filter (live_order orderID) (orders db)) in
    if Nat.eqb rowsAffected 0 then (Some ErrOrderNotFound, db)
    else
      (None,
       mkDB (map (fun o => if live_order orderID o
                           then with_total o total else o) (orders db))
            (order_items db) (orders_id_seq db) (order_items_id_seq db)
            (faults db) (save_associations db)).

Definition with_status (o : Order.t) (status : OrderStatus) : Order.t :=
  Order.mk (Order.ID o) (Order.DeletedAt o) (Order.UserID o)
    (Order.ShippingCost o) (Order.ShippingDurationDays o) (Order.Discount o)
    (Order.Total o) status (Order.Items o).

(** [Model(&domain.Order{}).Where("id = ?", orderID).Update("status",
    status)]: the statement runs over the live rows with that id.  A text
    the [varchar(20)] column refuses is one of the failures the script of
    the store stands for. *)
Definition UpdateOrderStatus (db : DB) (orderID : Z) (status : OrderStatus)
  : option error * DB :=
  let '(fault, db) := next_fault db in
  if fault then (Some DriverError, db)
  else
    let rowsAffected := List.length (filter (live_order orderID) (orders db)) in
    if Nat.eqb rowsAffected 0 then (Some ErrOrderNotFound, db)
    else
      (None,
       mkDB (map (fun o => if live_order orderID o
                           then with_status o status else o) (orders db))
            (order_items db) (orders_id_seq db) (order_items_id_seq db)
            (faults db) (save_associations db)).

(** The rows the query of [ListOrders] ranges over: the live orders,
    and with a user id only those of that user. *)
Definition selected (userID : option Z) (o : Order.t) : bool :=
  negb (Order.DeletedAt o)
  && match userID with
     | None => true
     | Some id => Order.UserID o =? id
     end.

(** [Order("id desc")]. *)
Fixpoint insert_desc (o : Order.t) (rows : list Order.t) : list Order.t :=
  match rows with
  | [] => [o]
  | x :: rest =>
      if Order.ID x <? Order.ID o then o :: rows else x :: insert_desc o rest
  end.

Definition order_by_id_desc (rows : list Order.t) : list Order.t :=
  fold_right insert_desc [] rows.

(** [Offset(offset).Limit(limit)] as GORM writes the clause: [OFFSET]
    only for a positive offset, [LIMIT] only for a limit that is not
    negative ([LIMIT 0] selects nothing). *)
Definition offset_limit {A : Type} (offset limit : Z) (rows : list A)
  : list A :=
  let rows := if 0 <? offset then skipn (Z.to_nat offset) rows else rows in
  if 0 <=? limit then firstn (Z.to_nat limit) rows else rows.

(** [userID] is the Go pointer, [None] for nil; [page] and [perPage]
    are Go [int]s, whose product wraps.  The count and the page are two
    statements; the page comes with the items of each of its orders. *)
Definition ListOrders (db : DB) (userID : option Z) (page perPage : Z)
  : Res (list Order.t * Z) * DB :=
  let '(fault, db) := next_fault db in
  if fault then (Err DriverError, db)
  else
    let total :=
      Z.of_nat (List.length (filter (selected userID) (orders db))) in
    let '(fault, db) := next_fault db in
    if fault then (Err DriverError, db)
    else
      let rows :=
        offset_limit (int64 ((page - 1) * perPage)) perPage
          (order_by_id_desc (filter (selected userID) (orders db))) in
      (Ok (map (fun o => with_items o (Order.ID o) (items_of db (Order.ID o)))
               rows,
           total),
       db).

End OrderRepository.

(** ** The downstream services

    [R] is the world outside the order service: the user and product
    services, the network and the clock.  A remote call reads and
    changes it.  The deadline [downstreamTimeout] the use case puts on
    the context of each call shows as the error the call returns. *)
Module productpb.
Record Product := mkProduct { Price : F32.t }.
(** [GetProductByIDResponse]: [GetProduct()] is nil when no product is
    set. *)
Definition GetProductByIDResponse := option Product.
End productpb.

Record Downstream (R : Type) := mkDownstream {
  clock : R -> gobreaker.Time;
  (** the user service's [GetUserByID], given the [int32] id *)
  UserService_GetUserByID : Z -> R -> option error * R;
  (** the product service's [GetProductByID], given the [int64] id; the
      response is what the call wrote into [reply] *)
  ProductService_GetProductByID :
    Z -> R -> (productpb.GetProductByIDResponse * option error) * R
}.
Arguments clock {R} d.
Arguments UserService_GetUserByID {R} d.
Arguments ProductService_GetProductByID {R} d.

(** The order service process: its store, the two client connections
    (each with its own breaker interceptor, as [main] builds them) and
    the world outside. *)
Record World (R : Type) := mkWorld {
  db : store.DB;
  userConn : grpcmiddleware.Interceptor;
  productConn : grpcmiddleware.Interceptor;
  remote : R
}.
Arguments mkWorld {R} db userConn productConn remote.
Arguments db {R} w.
Arguments userConn {R} w.
Arguments productConn {R} w.
Arguments remote {R} w.

Definition with_db {R} (w : World R) (d : store.DB) : World R :=
  mkWorld d (userConn w) (productConn w) (remote w).

(** Both connections are pass-through: [main] built them without a
    breaker. *)
Definition pass_through {R} (w : World R) : Prop :=
  userConn w = None /\ productConn w = None.

(** ** services/OrderService/internal/usecase *)
Module OrderUsecase.
Import domain dto grpcmiddleware.

Definition calculateOrderTotal (itemsTotal shippingCost discount : F32.t)
  : F32.t :=
  let discount := if F32.ltb discount F32.zero then F32.zero else discount in
  let shippingCost :=
    if F32.ltb shippingCost F32.zero then F32.zero else shippingCost in
  let total := F32.sub (F32.add itemsTotal shippingCost) discount in
  if F32.ltb total F32.zero then F32.zero else total.

Definition sumItemsTotal (items : list OrderItem.t) : F32.t :=
  fold_left
    (fun total item =>
       if F32.ltb F32.zero (OrderItem.TotalPrice item)
       then F32.add total (OrderItem.TotalPrice item)
       else F32.add total
              (F32.mul (OrderItem.UnitPrice item)
                       (F32.of_int (OrderItem.Quantity item))))
    items F32.zero.

(** [mapOrderToResponse] copies the order field by field into the
    response, so the response is the order itself. *)
Definition mapOrderToResponse (order : Order.t) : Order.t := order.

Section WithDownstream.
Context {R : Type} (D : Downstream R).

(** The generated client stubs, over the connection's interceptor. *)
Definition userClient_GetUserByID (id : Z) (w : World R)
  : option error * World R :=
  let '((_, err), i, r) :=
    intercept (clock D) (userConn w)
      (fun r => let '(e, r') := UserService_GetUserByID D id r in
                ((tt, e), r'))
      (remote w) in
  (err, mkWorld (db w) i (productConn w) r).

Definition productClient_GetProductByID (id : Z) (w : World R)
  : Res productpb.GetProductByIDResponse * World R :=
  let '((reply, err), i, r) :=
    intercept (clock D) (productConn w)
      (ProductService_GetProductByID D id) (remote w) in
  let w' := mkWorld (db w) (userConn w) i r in
  match err with
  | Some e => (Err e, w')
  | None =>
      (Ok (match reply with Some out => out | None => None end), w')
  end.

Definition ensureUserExists (userID : Z) (w : World R)
  : option error * World R :=
  match userClient_GetUserByID (int32 userID) w with
  | (Some err, w) => (Some (WrapError "user not found: " err), w)
  | (None, w) => (None, w)
  end.

Definition ensureProductExists (productID : Z) (w : World R)
  : Res productpb.Product * World R :=
  match productClient_GetProductByID (int64 productID) w with
  | (Err err, w) => (Err (WrapError "product not found: " err), w)
  | (Ok response, w) =>
      match response with
      | None => (Err (ErrorString "product not found: empty response"), w)
      | Some product => (Ok product, w)
      end
  end.

(** The loop of [CreateOrder] over [req.Items]. *)
Fixpoint CreateOrder_items (reqItems : list OrderItemInput.t)
    (items : list OrderItem.t) (itemsTotal : F32.t) (w : World R)
  : Res (list OrderItem.t * F32.t) * World R :=
  match reqItems with
  | [] => (Ok (items, itemsTotal), w)
  | item :: rest =>
      match ensureProductExists (OrderItemInput.ProductID item) w with
      | (Err err, w) => (Err err, w)
      | (Ok product, w) =>
          let unitPrice := productpb.Price product in
          let totalPrice :=
            F32.mul unitPrice (F32.of_int (OrderItemInput.Quantity item)) in
          let itemsTotal := F32.add itemsTotal totalPrice in
          CreateOrder_items rest
            (items ++ [OrderItem.mk 0 false 0
                         (OrderItemInput.ProductID item)
                         (OrderItemInput.Quantity item)
                         unitPrice totalPrice])
            itemsTotal w
      end
  end.

Definition CreateOrder (req : CreateOrderRequest.t) (w : World R)
  : Res Order.t * World R :=
  match ensureUserExists (CreateOrderRequest.UserID req) w with
  | (Some err, w) => (Err err, w)
  | (None, w) =>
      match CreateOrder_items (CreateOrderRequest.Items req) [] F32.zero w with
      | (Err err, w) => (Err err, w)
      | (Ok (items, itemsTotal), w) =>
          let total :=
            calculateOrderTotal itemsTotal
              (CreateOrderRequest.ShippingCost req)
              (CreateOrderRequest.Discount req) in
          let order :=
            Order.mk 0 false
              (CreateOrderRequest.UserID req)
              (CreateOrderRequest.ShippingCost req)
              (CreateOrderRequest.ShippingDurationDays req)
              (CreateOrderRequest.Discount req)
              total OrderStatusPending items in
          match OrderRepository.CreateOrder (db w) order with
          | (Some err, _, d) => (Err err, with_db w d)
          | (None, order, d) => (Ok (mapOrderToResponse order), with_db w d)
          end
      end
  end.

(** The tail shared by [AddOrderItem] and [RemoveOrderItem]: reload
    the order, recompute its total and write it. *)
Definition recompute_total (orderID : Z) (w : World R)
  : Res Order.t * World R :=
  match OrderRepository.GetOrderByID (db w) orderID with
  | (Err err, d) => (Err err, with_db w d)
  | (Ok order, d) =>
      let itemsTotal := sumItemsTotal (Order.Items order) in
      let updatedTotal :=
        calculateOrderTotal itemsTotal (Order.ShippingCost order)
          (Order.Discount order) in
      match OrderRepository.UpdateOrderTotal d (Order.ID order) updatedTotal with
      | (Some err, d) => (Err err, with_db w d)
      | (None, d) =>
          (Ok (mapOrderToResponse
                 (OrderRepository.with_total order updatedTotal)),
           with_db w d)
      end
  end.

Definition AddOrderItem (req : AddOrderItemRequest.t) (w : World R)
  : Res Order.t * World R :=
  match ensureProductExists (AddOrderItemRequest.ProductID req) w with
  | (Err err, w) => (Err err, w)
  | (Ok product, w) =>
      let unitPrice := productpb.Price product in
      let item :=
        OrderItem.mk 0 false
          (AddOrderItemRequest.OrderID req)
          (AddOrderItemRequest.ProductID req)
          (AddOrderItemRequest.Quantity req)
          unitPrice
          (F32.mul unitPrice (F32.of_int (AddOrderItemRequest.Quantity req))) in
      match OrderRepository.AddOrderItem (db w) item with
      | (Some err, _, d) => (Err err, with_db w d)
      | (None, _, d) =>
          recompute_total (AddOrderItemRequest.OrderID req) (with_db w d)
      end
  end.

Definition RemoveOrderItem (orderID itemID : Z) (w : World R)
  : Res Order.t * World R :=
  match OrderRepository.RemoveOrderItem (db w) orderID itemID with
  | (Some err, d) => (Err err, with_db w d)
  | (None, d) => recompute_total orderID (with_db w d)
  end.

Definition GetOrderByID (id : Z) (w : World R) : Res Order.t * World R :=
  match OrderRepository.GetOrderByID (db w) id with
  | (Err err, d) => (Err err, with_db w d)
  | (Ok order, d) => (Ok (mapOrderToResponse order), with_db w d)
  end.

Definition ListOrders (userID : option Z) (page perPage : Z) (w : World R)
  : Res (list Order.t * Z) * World R :=
  match OrderRepository.ListOrders (db w) userID page perPage with
  | (Err err, d) => (Err err, with_db w d)
  | (Ok (orders, total), d) =>
      (Ok (map mapOrderToResponse orders, total), with_db w d)
  end.

Definition UpdateOrderStatus (orderID : Z) (status : string) (w : World R)
  : Res Order.t * World R :=
  let orderStatus : OrderStatus := status in
  match OrderRepository.UpdateOrderStatus (db w) orderID orderStatus with
  | (Some err, d) => (Err err, with_db w d)
  | (None, d) =>
      match OrderRepository.GetOrderByID d orderID with
      | (Err err, d) => (Err err, with_db w d)
      | (Ok order, d) => (Ok (mapOrderToResponse order), with_db w d)
      end
  end.

End WithDownstream.
End OrderUsecase.

(** ** services/OrderService/internal/delivery/grpc/handler *)
Module orderpb.
Module OrderItemInput.
Record t := mk { ProductId : Z (* int64 *); Quantity : Z (* int32 *) }.
End OrderItemInput.
Module CreateOrderRequest.
Record t := mk {
  UserId : Z;                 (* int64 *)
  ShippingCost : F32.t;
  ShippingDurationDays : Z;   (* int32 *)
  Discount : F32.t;
  Items : list OrderItemInput.t
}.
End CreateOrderRequest.
Module GetOrderByIDRequest.
Record t := mk { Id : Z }.
End GetOrderByIDRequest.
Module ListOrdersRequest.
Record t := mk { UserId : Z; Page : Z; PerPage : Z }.
End ListOrdersRequest.
Module AddOrderItemRequest.
Record t := mk { OrderId : Z; ProductId : Z; Quantity : Z }.
End AddOrderItemRequest.
Module RemoveOrderItemRequest.
Record t := mk { OrderId : Z; ItemId : Z }.
End RemoveOrderItemRequest.
Module UpdateOrderStatusRequest.
Record t := mk { OrderId : Z; Status : string }.
End UpdateOrderStatusRequest.
(** The [Order] and [OrderItem] messages, without the two formatted
    timestamps. *)
Module OrderItem.
Record t := mk {
  Id : Z;           (* int64 *)
  OrderId : Z;      (* int64 *)
  ProductId : Z;    (* int64 *)
  Quantity : Z;     (* int32 *)
  UnitPrice : F32.t;
  TotalPrice : F32.t
}.
End OrderItem.
Module Order.
Record t := mk {
  Id : Z;                     (* int64 *)
  UserId : Z;                 (* int64 *)
  ShippingCost : F32.t;
  ShippingDurationDays : Z;   (* int32 *)
  Discount : F32.t;
  Total : F32.t;
  Status : string;
  Items : list OrderItem.t
}.
End Order.
Module ListOrdersResponse.
Record t := mk {
  Orders : list (option Order.t);   (* []*Order *)
  TotalCount : Z                    (* int32 *)
}.
End ListOrdersResponse.
End orderpb.

Module OrderGRPCHandler.
Import domain dto.

(** [validate.Struct] on the tags of [dto.OrderItemInput]:
    [required,gt=0] on both fields. *)
Definition validate_OrderItemInput (i : OrderItemInput.t) : bool :=
  (negb (OrderItemInput.ProductID i =? 0) && (0 <? OrderItemInput.ProductID i))
  && (negb (OrderItemInput.Quantity i =? 0) && (0 <? OrderItemInput.Quantity i)).

(** [validate.Struct] on the tags of [dto.CreateOrderRequest]:
    [required,gt=0] on [UserID], [gte=0] on [ShippingCost],
    [ShippingDurationDays] and [Discount], [required,min=1,dive] on
    [Items] (the handler always passes a non-nil slice). *)
Definition validate_CreateOrderRequest (r : CreateOrderRequest.t) : bool :=
  (negb (CreateOrderRequest.UserID r =? 0) && (0 <? CreateOrderRequest.UserID r))
  && F32.leb F32.zero (CreateOrderRequest.ShippingCost r)
  && (0 <=? CreateOrderRequest.ShippingDurationDays r)
  && F32.leb F32.zero (CreateOrderRequest.Discount r)
  && (1 <=? Z.of_nat (List.length (CreateOrderRequest.Items r)))
  && forallb validate_OrderItemInput (CreateOrderRequest.Items r).

(** [validate.Struct] on the tags of [dto.AddOrderItemRequest]:
    [required,gt=0] on the three fields. *)
Definition validate_AddOrderItemRequest (r : AddOrderItemRequest.t) : bool :=
  (negb (AddOrderItemRequest.OrderID r =? 0)
   && (0 <? AddOrderItemRequest.OrderID r))
  && (negb (AddOrderItemRequest.ProductID r =? 0)
      && (0 <? AddOrderItemRequest.ProductID r))
  && (negb (AddOrderItemRequest.Quantity r =? 0)
      && (0 <? AddOrderItemRequest.Quantity r)).

(** The words of the [oneof] tag of [dto.UpdateOrderStatusRequest]. *)
Definition oneof_Status : list string :=
  ["pending"; "paid"; "shipped"; "delivered"; "canceled"]%string.

(** [validate.Struct] on the tags of [dto.UpdateOrderStatusRequest]:
    [required,gt=0] on [OrderID], [required,oneof=...] on [Status]. *)
Definition validate_UpdateOrderStatusRequest (r : UpdateOrderStatusRequest.t)
  : bool :=
  (negb (UpdateOrderStatusRequest.OrderID r =? 0)
   && (0 <? UpdateOrderStatusRequest.OrderID r))
  && (negb (String.eqb (UpdateOrderStatusRequest.Status r) EmptyString)
      && existsb (String.eqb (UpdateOrderStatusRequest.Status r)) oneof_Status).

(** [mapOrderToPB], from the use case's response (the order itself, see
    [mapOrderToResponse]) to the message; [None] is the nil pointer. *)
Definition mapOrderToPB (order : option Order.t) : option orderpb.Order.t :=
  match order with
  | None => None
  | Some order =>
      let items :=
        map (fun item =>
               orderpb.OrderItem.mk
                 (int64 (OrderItem.ID item))
                 (int64 (OrderItem.OrderID item))
                 (int64 (OrderItem.ProductID item))
                 (int32 (OrderItem.Quantity item))
                 (OrderItem.UnitPrice item)
                 (OrderItem.TotalPrice item))
            (Order.Items order) in
      Some (orderpb.Order.mk
              (int64 (Order.ID order))
              (int64 (Order.UserID order))
              (Order.ShippingCost order)
              (int32 (Order.ShippingDurationDays order))
              (Order.Discount order)
              (Order.Total order)
              (Order.Status order)
              items)
  end.

Section WithDownstream.
Context {R : Type} (D : Downstream R).

(** The response message is built from the use case's response field
    by field ([mapOrderToPB]); the order is returned as it is. *)
Definition CreateOrder (req : orderpb.CreateOrderRequest.t) (w : World R)
  : Res Order.t * World R :=
  let items :=
    map (fun item =>
           OrderItemInput.mk (uint64 (orderpb.OrderItemInput.ProductId item))
                             (orderpb.OrderItemInput.Quantity item))
        (orderpb.CreateOrderRequest.Items req) in
  let createReq :=
    CreateOrderRequest.mk
      (uint64 (orderpb.CreateOrderRequest.UserId req))
      (orderpb.CreateOrderRequest.ShippingCost req)
      (orderpb.CreateOrderRequest.ShippingDurationDays req)
      (orderpb.CreateOrderRequest.Discount req)
      items in
  if negb (validate_CreateOrderRequest createReq)
  then (Err ValidationErrors, w)
  else OrderUsecase.CreateOrder D createReq w.

(** The other handlers return the message [mapOrderToPB] builds. *)
Definition GetOrderByID (req : orderpb.GetOrderByIDRequest.t) (w : World R)
  : Res (option orderpb.Order.t) * World R :=
  match OrderUsecase.GetOrderByID
          (uint64 (orderpb.GetOrderByIDRequest.Id req)) w with
  | (Err err, w) => (Err err, w)
  | (Ok order, w) => (Ok (mapOrderToPB (Some order)), w)
  end.

Definition ListOrders (req : orderpb.ListOrdersRequest.t) (w : World R)
  : Res orderpb.ListOrdersResponse.t * World R :=
  let page := orderpb.ListOrdersRequest.Page req in
  let page := if page =? 0 then 1 else page in
  let perPage := orderpb.ListOrdersRequest.PerPage req in
  let perPage := if perPage =? 0 then 10 else perPage in
  let userID :=
    if 0 <? orderpb.ListOrdersRequest.UserId req
    then Some (uint64 (orderpb.ListOrdersRequest.UserId req))
    else None in
  match OrderUsecase.ListOrders userID page perPage w with
  | (Err err, w) => (Err err, w)
  | (Ok (orders, total), w) =>
      let responseOrders :=
        map (fun order => mapOrderToPB (Some order)) orders in
      (Ok (orderpb.ListOrdersResponse.mk responseOrders (int32 total)), w)
  end.

Definition AddOrderItem (req : orderpb.AddOrderItemRequest.t) (w : World R)
  : Res (option orderpb.Order.t) * World R :=
  let addReq :=
    AddOrderItemRequest.mk
      (uint64 (orderpb.AddOrderItemRequest.OrderId req))
      (uint64 (orderpb.AddOrderItemRequest.ProductId req))
      (orderpb.AddOrderItemRequest.Quantity req) in
  if negb (validate_AddOrderItemRequest addReq)
  then (Err ValidationErrors, w)
  else
    match OrderUsecase.AddOrderItem D addReq w with
    | (Err err, w) => (Err err, w)
    | (Ok order, w) => (Ok (mapOrderToPB (Some order)), w)
    end.

Definition RemoveOrderItem (req : orderpb.RemoveOrderItemRequest.t)
    (w : World R) : Res (option orderpb.Order.t) * World R :=
  match OrderUsecase.RemoveOrderItem
          (uint64 (orderpb.RemoveOrderItemRequest.OrderId req))
          (uint64 (orderpb.RemoveOrderItemRequest.ItemId req)) w with
  | (Err err, w) => (Err err, w)
  | (Ok order, w) => (Ok (mapOrderToPB (Some order)), w)
  end.

Definition UpdateOrderStatus (req : orderpb.UpdateOrderStatusRequest.t)
    (w : World R) : Res (option orderpb.Order.t) * World R :=
  let updateReq :=
    UpdateOrderStatusRequest.mk
      (uint64 (orderpb.UpdateOrderStatusRequest.OrderId req))
      (orderpb.UpdateOrderStatusRequest.Status req) in
  if negb (validate_UpdateOrderStatusRequest updateReq)
  then (Err ValidationErrors, w)
  else
    match OrderUsecase.UpdateOrderStatus
            (UpdateOrderStatusRequest.OrderID updateReq)
            (UpdateOrderStatusRequest.Status updateReq) w with
    | (Err err, w) => (Err err, w)
    | (Ok order, w) => (Ok (mapOrderToPB (Some order)), w)
    end.
End WithDownstream.
End OrderGRPCHandler.

(** ** A concrete world outside

    A user directory and a product catalogue behind a network that is up
    or down.  Every invocation that reaches it is counted and takes one
    millisecond. *)
Module Scenario.
Import gobreaker.

Record Remote := mkRemote {
  time : Time;
  up : bool;
  users : list Z;
  catalog : list (Z * option F32.t);
  invocations : nat
}.

Definition tick (r : Remote) : Remote :=
  mkRemote (time r + 1000000) (up r) (users r) (catalog r)
           (S (invocations r)).

Definition GetUserByID (id : Z) (r : Remote) : option error * Remote :=
  if negb (up r) then (Some (StatusError Unavailable "connection refused"), tick r)
  else if existsb (Z.eqb id) (users r) then (None, tick r)
  else (Some (StatusError NotFound "user not found"), tick r).

(** A catalogue entry without a price stands for a reply that carries
    no product. *)
Definition GetProductByID (id : Z) (r : Remote)
  : (productpb.GetProductByIDResponse * option error) * Remote :=
  if negb (up r) then
    ((None, Some (StatusError Unavailable "connection refused")), tick r)
  else
    match find (fun p => fst p =? id) (catalog r) with
    | Some (_, Some price) => ((Some (productpb.mkProduct price), None), tick r)
    | Some (_, None) => ((None, None), tick r)
    | None => ((None, Some (StatusError NotFound "product not found")), tick r)
    end.

Definition D : Downstream Remote :=
  mkDownstream Remote time GetUserByID GetProductByID.

Definition emptyDB : store.DB := store.mkDB [] [] 0 0 [] true.

(** The configuration [config.Load] produces when no variable is set,
    except for the sample size and the ratio. *)
Definition cfg (minRequests : Z) (ratio : F64.t)
  : grpcmiddleware.CircuitBreakerConfig :=
  grpcmiddleware.mkConfig true 5 (60 * 1000000000) (20 * 1000000000)
                          ratio minRequests.

Definition half : F64.t := F64.div (F64.of_int 1) (F64.of_int 2).

Definition remote0 : Remote :=
  mkRemote 1000000000 true [1]
           [(7, Some (F32.of_int 20)); (8, Some (F32.of_int 5)); (9, None)] 0.

Definition remoteDown : Remote :=
  mkRemote 1000000000 false [1]
           [(7, Some (F32.of_int 20)); (8, Some (F32.of_int 5)); (9, None)] 0.

Definition world0 : World Remote :=
  mkWorld emptyDB
    (grpcmiddleware.CircuitBreakerUnaryClientInterceptor
       "order-service->user" (cfg 3 half) (time remote0))
    (grpcmiddleware.CircuitBreakerUnaryClientInterceptor
       "order-service->product" (cfg 3 half) (time remote0))
    remote0.

(** The same process on a handle that does not save associations. *)
Definition world0_plain : World Remote :=
  mkWorld (store.mkDB [] [] 0 0 [] false) (userConn world0) (productConn world0)
          remote0.

(** The same process while the network is down. *)
Definition worldDown : World Remote :=
  mkWorld (db world0) (userConn world0) (productConn world0) remoteDown.
End Scenario.

(** ** services/OrderService/config

    The process environment is what [os.LookupEnv] answers, once the
    [.env] file, if one was found, has been read into it ([Load] only
    logs whether one was).  [fmt.Sscanf] with [%d] and [%f] is left to the
    two scanners of the section: the number read, or [None] when
    [Sscanf] returns an error. *)
Module config.

Definition Env := string -> option string.

Record Config := mkConfig {
  AppPort : string;
  AppEnv : string;
  DBDriver : string;
  DBDSN : string;
  DBConnectionMaxIdle : Z;
  DBConnectionMaxOpen : Z;
  DBConnectionMaxLife : gobreaker.Duration;
  DBMigrationAutoRun : bool;
  GRPCPort : string;
  ProductServiceGRPCAddr : string;
  UserServiceGRPCAddr : string;
  ServiceName : string;
  InternalAuthToken : string;
  CircuitBreakerEnabled : bool;
  CircuitBreakerMaxRequests : Z;          (* uint32 *)
  CircuitBreakerInterval : gobreaker.Duration;
  CircuitBreakerTimeout : gobreaker.Duration;
  CircuitBreakerFailureRatio : F64.t;
  CircuitBreakerMinRequests : Z           (* uint32 *)
}.

Definition Second : gobreaker.Duration := 1000000000.
Definition Minute : gobreaker.Duration := 60 * Second.

Definition GetEnv (env : Env) (key fallback : string) : string :=
  match env key with
  | Some value => value
  | None => fallback
  end.

Definition getEnvBool (env : Env) (key : string) (fallback : bool) : bool :=
  match env key with
  | Some value =>
      String.eqb value "true" || String.eqb value "1" || String.eqb value "yes"
  | None => fallback
  end.

Definition Validate (c : Config) : option error :=
  if String.eqb (DBDriver c) "" then
    Some (ErrorString "DB_DRIVER is required")
  else if String.eqb (DBDSN c) "" then
    Some (ErrorString "DB_DSN is required")
  else if String.eqb (GRPCPort c) "" then
    Some (ErrorString "GRPC_PORT is required")
  else if String.eqb (AppPort c) "" then
    Some (ErrorString "APP_PORT is required")
  else if String.eqb (ProductServiceGRPCAddr c) "" then
    Some (ErrorString "PRODUCT_SERVICE_GRPC_ADDR is required")
  else if String.eqb (UserServiceGRPCAddr c) "" then
    Some (ErrorString "USER_SERVICE_GRPC_ADDR is required")
  else if String.eqb (InternalAuthToken c) "" then
    Some (ErrorString "INTERNAL_AUTH_TOKEN is required")
  else None.

Section Scanning.
Variable Sscanf_d : string -> option Z.
Variable Sscanf_f : string -> option F64.t.

Definition getEnvInt (env : Env) (key : string) (fallback : Z) : Z :=
  match env key with
  | Some value =>
      match Sscanf_d value with
      | None => fallback
      | Some intVal => intVal
      end
  | None => fallback
  end.

Definition getEnvFloat (env : Env) (key : string) (fallback : F64.t) : F64.t :=
  match env key with
  | Some value =>
      match Sscanf_f value with
      | None => fallback
      | Some floatVal => floatVal
      end
  | None => fallback
  end.

(** The constant [0.6] of type [float64]. *)
Definition ratio_0_6 : F64.t := F64.div (F64.of_int 6) (F64.of_int 10).

Definition Load (env : Env) : Res Config :=
  let cfg :=
    mkConfig
      (GetEnv env "APP_PORT" "8085")
      (GetEnv env "APP_ENV" "development")
      (GetEnv env "DB_DRIVER" "postgres")
      (GetEnv env "DB_DSN"
         "host=localhost user=postgres password=postgres dbname=orderservice port=5432 sslmode=disable TimeZone=UTC")
      (getEnvInt env "DB_MAX_IDLE_CONNS" 10)
      (getEnvInt env "DB_MAX_OPEN_CONNS" 100)
      (int64 (getEnvInt env "DB_MAX_CONN_LIFETIME_MINUTES" 60 * Minute))
      (getEnvBool env "DB_MIGRATION_AUTO_RUN" true)
      (GetEnv env "GRPC_PORT" "50055")
      (GetEnv env "PRODUCT_SERVICE_GRPC_ADDR" "localhost:50053")
      (GetEnv env "USER_SERVICE_GRPC_ADDR" "localhost:50051")
      (GetEnv env "SERVICE_NAME" "order-service")
      (GetEnv env "INTERNAL_AUTH_TOKEN" "")
      (getEnvBool env "CB_ENABLED" true)
      (uint32 (getEnvInt env "CB_MAX_REQUESTS" 5))
      (int64 (getEnvInt env "CB_INTERVAL_SECONDS" 60 * Second))
      (int64 (getEnvInt env "CB_TIMEOUT_SECONDS" 20 * Second))
      (getEnvFloat env "CB_FAILURE_RATIO" ratio_0_6)
      (uint32 (getEnvInt env "CB_MIN_REQUESTS" 20)) in
  match Validate cfg with
  | Some err => Err err
  | None => Ok cfg
  end.
End Scanning.

(** The breaker configuration [main] hands to
    [CircuitBreakerUnaryClientInterceptor] for both connections. *)
Definition breakerConfig (c : Config) : grpcmiddleware.CircuitBreakerConfig :=
  grpcmiddleware.mkConfig (CircuitBreakerEnabled c)
    (CircuitBreakerMaxRequests c) (CircuitBreakerInterval c)
    (CircuitBreakerTimeout c) (CircuitBreakerFailureRatio c)
    (CircuitBreakerMinRequests c).

(** The world [main] builds from a configuration, over a store and the
    world outside: one interceptor per downstream connection. *)
Definition connect {R : Type} (c : Config) (d : store.DB)
    (now : gobreaker.Time) (r : R) : World R :=
  mkWorld d
    (grpcmiddleware.CircuitBreakerUnaryClientInterceptor
       ("order-service->" ++ UserServiceGRPCAddr c) (breakerConfig c) now)
    (grpcmiddleware.CircuitBreakerUnaryClientInterceptor
       ("order-service->" ++ ProductServiceGRPCAddr c) (breakerConfig c) now)
    r.

End config.

(** ** The total as the specification words it

    [max(0, x)] and "clamped to zero when negative" on [float32] are read
    with Go's [<]: the other operand is kept unless it is below zero. *)
Module Spec.
Definition max0 (x : F32.t) : F32.t :=
  if F32.ltb x F32.zero then F32.zero else x.

Definition clampNegative (x : F32.t) : F32.t :=
  if F32.ltb x F32.zero then F32.zero else x.

(** Sum over the items of [unitPrice_i * quantity_i], in request
    order. *)
Fixpoint itemsTotal_from (acc : F32.t) (lines : list (F32.t * Z)) : F32.t :=
  match lines with
  | [] => acc
  | (unitPrice, quantity) :: rest =>
      itemsTotal_from (F32.add acc (F32.mul unitPrice (F32.of_int quantity)))
                      rest
  end.
Definition itemsTotal (lines : list (F32.t * Z)) : F32.t :=
  itemsTotal_from F32.zero lines.

(** [max(0, itemsTotal + shippingCost - discount)] with both inputs
    clamped first. *)
Definition orderTotal (itemsTotal shippingCost discount : F32.t) : F32.t :=
  max0 (F32.sub (F32.add itemsTotal (clampNegative shippingCost))
                (clampNegative discount)).


(** What one persisted item contributes: its stored [TotalPrice] when
    positive, [UnitPrice * Quantity] otherwise. *)
Definition itemContribution (it : domain.OrderItem.t) : F32.t :=
  if F32.ltb F32.zero (domain.OrderItem.TotalPrice it)
  then domain.OrderItem.TotalPrice it
  else F32.mul (domain.OrderItem.UnitPrice it)
               (F32.of_int (domain.OrderItem.Quantity it)).

Fixpoint sum_from (acc : F32.t) (xs : list F32.t) : F32.t :=
  match xs with
  | [] => acc
  | x :: rest => sum_from (F32.add acc x) rest
  end.

Definition persistedItemsTotal (items : list domain.OrderItem.t) : F32.t :=
  sum_from F32.zero (map itemContribution items).
End Spec.

(** The connection lets a call issued at [now] through to the remote
    service: its breaker is disabled, or admits the call. *)
Definition admits (i : grpcmiddleware.Interceptor) (now : gobreaker.Time) : Prop :=
  match i with
  | None => True
  | Some cb => snd (fst (gobreaker.beforeRequest cb now)) = None
  end.

(** The error of [ensureProductExists] for a reply without a product. *)
Definition emptyResponse : error :=
  ErrorString "product not found: empty response".

(** ** What the caller of a validator can tell

    The breaker's two sentinel errors, looked for along the [Unwrap]
    chain as [errors.Is] does, separate a call the breaker rejected from
    a call the remote service failed. *)
Inductive ValidationOutcome := BreakerRejected | RemoteFailure.

Definition outcomeOf (err : error) : ValidationOutcome :=
  if errors_Is err ErrOpenState || errors_Is err ErrTooManyRequests
  then BreakerRejected else RemoteFailure.

(** ** Runs of the breaker *)
Module Trace.
Import gobreaker.

(** A call made on its own: when it is issued, when the target returns
    and what the target returns. *)
Record Call := mkCall {
  issued : Time;
  completed : Time;
  outcome : option error
}.

(** [Execute] on the world that consists of the clock alone.  The
    result carries a reply exactly when the target was invoked. *)
Definition call (cb : CircuitBreaker) (c : Call)
  : (option unit * option error) * CircuitBreaker :=
  let '(res, cb', _) :=
    Execute (fun t : Time => t) cb
            (fun _ => ((tt, outcome c), completed c)) (issued c) in
  (res, cb').

Definition calls (cb : CircuitBreaker) (cs : list Call) : CircuitBreaker :=
  fold_left (fun cb c => snd (call cb c)) cs cb.

Definition failures (cs : list Call) : Z :=
  Z.of_nat (List.length (filter (fun c => isBreakerFailure (outcome c)) cs)).

(** The call neither starts nor ends after the counting window of the
    closed breaker has run out. *)
Definition inWindow (cb : CircuitBreaker) (c : Call) : Prop :=
  expiry cb = 0 \/ (issued c <= expiry cb /\ completed c <= expiry cb).


End Trace.

(** ** Validating a list of products, one after the other *)
Section ProductValidation.
Context {R : Type} (D : Downstream R).

Fixpoint ensureProductsExist (productIDs : list Z) (w : World R)
  : Res (list productpb.Product) * World R :=
  match productIDs with
  | [] => (Ok [], w)
  | id :: rest =>
      match OrderUsecase.ensureProductExists D id w with
      | (Err err, w) => (Err err, w)
      | (Ok product, w) =>
          match ensureProductsExist rest w with
          | (Err err, w) => (Err err, w)
          | (Ok products, w) => (Ok (product :: products), w)
          end
      end
  end.
End ProductValidation.

(** ** Integrity of the store

    What the engine maintains: ids come from the sequences, and every
    item row references an order row. *)
Module Integrity.
Import domain store.

Definition ids_from_sequences (db : DB) : Prop :=
  (forall o, In o (orders db) -> Order.ID o <= orders_id_seq db)
  /\ (forall it, In it (order_items db) ->
                 OrderItem.ID it <= order_items_id_seq db).

Definition references_ok (db : DB) : Prop :=
  forall it, In it (order_items db) ->
             has_order_id db (OrderItem.OrderID it) = true.

Definition no_faults (db : DB) : Prop := faults db = [].

(** The item rows [Create] on an order adds for its [Items], before the
    repository's own loop runs: none unless the handle saves
    associations. *)
Definition saved_rows (db : DB) (orderID : Z) (items : list OrderItem.t)
  : list OrderItem.t :=
  if save_associations db
  then assign_ids (order_items_id_seq db) orderID items else [].

(** The item rows the loop of the repository's [CreateOrder] adds. *)
Definition loop_rows (db : DB) (orderID : Z) (items : list OrderItem.t)
  : list OrderItem.t :=
  assign_ids (order_items_id_seq db
              + Z.of_nat (List.length (saved_rows db orderID items)))
             orderID items.

(** The item's [TotalPrice] is its [UnitPrice] times its [Quantity], as
    the use case computes it. *)
Definition priced (it : OrderItem.t) : Prop :=
  OrderItem.TotalPrice it
  = F32.mul (OrderItem.UnitPrice it) (F32.of_int (OrderItem.Quantity it)).

(** The item [CreateOrder] builds for a requested line and the product
    its validation returned. *)
Definition newOrderItem (line : dto.OrderItemInput.t)
                        (product : productpb.Product) : OrderItem.t :=
  OrderItem.mk 0 false 0 (dto.OrderItemInput.ProductID line)
    (dto.OrderItemInput.Quantity line) (productpb.Price product)
    (F32.mul (productpb.Price product)
             (F32.of_int (dto.OrderItemInput.Quantity line))).

Definition sameRows (db db' : DB) : Prop :=
  orders db' = orders db /\ order_items db' = order_items db.

(** The stored total of the order is the total of [items], of its stored
    shipping cost and of its stored discount, the latter two clamped. *)
Definition stored_total_is (db : DB) (orderID : Z) (items : list OrderItem.t)
  : Prop :=
  exists row,
    find_order db orderID = Some row
    /\ Order.Total row
       = Spec.orderTotal (Spec.persistedItemsTotal items)
                         (Order.ShippingCost row) (Order.Discount row).

(** The stored total of the order is the total of its stored items. *)
Definition total_consistent (db : DB) (orderID : Z) : Prop :=
  stored_total_is db orderID (items_of db orderID).

(** What an item row says besides its ids. *)
Definition line_of (it : OrderItem.t) : Z * Z * F32.t * F32.t :=
  (OrderItem.ProductID it, OrderItem.Quantity it, OrderItem.UnitPrice it,
   OrderItem.TotalPrice it).


(** What no statement of the repository changes in a stored row: an
    order keeps all but [Total] and [Status], an item all but
    [DeletedAt], which is only ever set. *)
Definition order_key (o : Order.t) : Z * Z * F32.t * Z * F32.t :=
  (Order.ID o, Order.UserID o, Order.ShippingCost o,
   Order.ShippingDurationDays o, Order.Discount o).

Definition item_key (it : OrderItem.t) : Z * Z * Z * Z * F32.t * F32.t :=
  (OrderItem.ID it, OrderItem.OrderID it, OrderItem.ProductID it,
   OrderItem.Quantity it, OrderItem.UnitPrice it, OrderItem.TotalPrice it).

Definition order_kept (o o' : Order.t) : Prop :=
  order_key o' = order_key o /\ Order.DeletedAt o' = Order.DeletedAt o.

Definition item_kept (it it' : OrderItem.t) : Prop :=
  item_key it' = item_key it
  /\ (OrderItem.DeletedAt it = true -> OrderItem.DeletedAt it' = true).

(** [rows'] holds the rows of [rows] in their places, each of them
    kept, and possibly new rows after them. *)
Inductive extends {A : Type} (kept : A -> A -> Prop)
  : list A -> list A -> Prop :=
| extends_nil rows' : extends kept [] rows'
| extends_cons x y rows rows' :
    kept x y -> extends kept rows rows' ->
    extends kept (x :: rows) (y :: rows').

Definition grows (db db' : DB) : Prop :=
  extends order_kept (orders db) (orders db')
  /\ extends item_kept (order_items db) (order_items db')
  /\ orders_id_seq db <= orders_id_seq db'
  /\ order_items_id_seq db <= order_items_id_seq db'.

(** Ids are positive, come from the sequences and identify their rows,
    and every item row references an order row. *)
Definition well_formed (db : DB) : Prop :=
  (forall o, In o (orders db) -> 0 < Order.ID o <= orders_id_seq db)
  /\ (forall it, In it (order_items db) ->
                 0 < OrderItem.ID it <= order_items_id_seq db)
  /\ 0 <= orders_id_seq db
  /\ 0 <= order_items_id_seq db
  /\ NoDup (map Order.ID (orders db))
  /\ NoDup (map OrderItem.ID (order_items db))
  /\ references_ok db.

(** The store after a statement or a call keeps what the store before
    it held, and is well formed if that one was. *)
Definition keeps (db db' : DB) : Prop :=
  grows db db' /\ (well_formed db -> well_formed db').

(** An item row after the statement of [RemoveOrderItem] has run. *)
Definition mark (orderID itemID : Z) (it : OrderItem.t) : OrderItem.t :=
  if OrderRepository.matches orderID itemID it
  then OrderRepository.soft_delete it else it.

(** [a] comes before [b] in the order [id desc] of distinct ids. *)
Definition newer_first (a b : Order.t) : Prop := Order.ID b < Order.ID a.
End Integrity.

(** ** The use case as its callers see it

    The six methods of the interface [domain.OrderUsecase], and the
    process serving a sequence of calls one after the other. *)
Module Service.
Inductive Call :=
| CreateOrder (req : dto.CreateOrderRequest.t)
| GetOrderByID (id : Z)
| ListOrders (userID : option Z) (page perPage : Z)
| AddOrderItem (req : dto.AddOrderItemRequest.t)
| RemoveOrderItem (orderID itemID : Z)
| UpdateOrderStatus (orderID : Z) (status : string).

(** The calls whose method only reads the store. *)
Definition reads (c : Call) : bool :=
  match c with
  | GetOrderByID _ | ListOrders _ _ _ => true
  | _ => false
  end.

(** The calls whose method validates against a downstream service. *)
Definition validates (c : Call) : bool :=
  match c with
  | CreateOrder _ | AddOrderItem _ => true
  | _ => false
  end.

Section WithDownstream.
Context {R : Type} (D : Downstream R).

(** The process after the call has been served. *)
Definition serve (w : World R) (c : Call) : World R :=
  match c with
  | CreateOrder req => snd (OrderUsecase.CreateOrder D req w)
  | GetOrderByID id => snd (OrderUsecase.GetOrderByID id w)
  | ListOrders userID page perPage =>
      snd (OrderUsecase.ListOrders userID page perPage w)
  | AddOrderItem req => snd (OrderUsecase.AddOrderItem D req w)
  | RemoveOrderItem orderID itemID =>
      snd (OrderUsecase.RemoveOrderItem orderID itemID w)
  | UpdateOrderStatus orderID status =>
      snd (OrderUsecase.UpdateOrderStatus orderID status w)
  end.

Definition run (w : World R) (cs : list Call) : World R :=
  fold_left serve cs w.
End WithDownstream.
End Service.

(** * Preliminaries *)

(** A pair is determined by its first component and itself; it lets a
    concrete run be named by its projections. *)
Lemma pair_eta {A B : Type} (p : A * B) (a : A) : fst p = a -> p = (a, snd p).
Proof. intros <-. apply surjective_pairing. Qed.

(** * The failure classifier *)
Section Classifier.
Import gobreaker.


Lemma toNewGeneration_TotalFailures cb now :
  TotalFailures (counts (toNewGeneration cb now)) = 0.
Proof. reflexivity. Qed.

Lemma setState_TotalFailures cb s now :
  TotalFailures (counts (setState cb s now)) = TotalFailures (counts cb)
  \/ TotalFailures (counts (setState cb s now)) = 0.
Proof.
  unfold setState. destruct (State_eqb (state cb) s); [left|right]; reflexivity.
Qed.

Lemma currentState_TotalFailures cb now :
  TotalFailures (counts (currentState cb now)) = TotalFailures (counts cb)
  \/ TotalFailures (counts (currentState cb now)) = 0.
Proof.
  unfold currentState. destruct (state cb).
  - destruct (negb (expiry cb =? 0) && (expiry cb <? now)); [right|left]; reflexivity.
  - now left.
  - destruct (expiry cb <? now); [apply setState_TotalFailures | now left].
Qed.

Lemma onSuccess_TotalFailures cb st now :
  TotalFailures (counts (onSuccess cb st now)) = TotalFailures (counts cb)
  \/ TotalFailures (counts (onSuccess cb st now)) = 0.
Proof.
  unfold onSuccess. destruct st.
  - now left.
  - match goal with |- context [if ?b then _ else _] => destruct b end.
    + apply (setState_TotalFailures
               (with_counts cb (Counts_onSuccess (counts cb)))).
    + now left.
  - now left.
Qed.

Lemma afterRequest_success_TotalFailures cb before now :
  TotalFailures (counts (afterRequest cb before true now))
    = TotalFailures (counts cb)
  \/ TotalFailures (counts (afterRequest cb before true now)) = 0.
Proof.
  unfold afterRequest.
  destruct (currentState_TotalFailures cb now) as [E|E];
    destruct (negb (generation (currentState cb now) =? before));
    try (rewrite <- E; now left); try (now right);
    destruct (onSuccess_TotalFailures (currentState cb now)
                (state (currentState cb now)) now) as [E'|E'];
    rewrite E'; auto.
Qed.
End Classifier.



(** * The breaker while closed *)
Section ClosedBreaker.
Import gobreaker grpcmiddleware Trace.

Lemma uint32_small x : 0 <= x < 2 ^ 32 -> uint32 x = x.
Proof. intros H. unfold uint32, wrap. now apply Z.mod_small. Qed.

(** A success leaves a closed breaker closed: the trip condition is
    consulted in [onFailure] only. *)
Lemma closed_success_stays_closed cb before now :
  state cb = StateClosed ->
  state (afterRequest cb before true now) = StateClosed.
Proof.
  intros Hs. unfold afterRequest, currentState. rewrite Hs.
  destruct (negb (expiry cb =? 0) && (expiry cb <? now)).
  - cbn. rewrite Hs.
    match goal with |- context [if ?b then _ else _] => destruct b end;
      cbn; now rewrite ?Hs.
  - match goal with |- context [if ?b then _ else _] => destruct b end;
      rewrite ?Hs; cbn; now rewrite ?Hs.
Qed.


Variable cfg : CircuitBreakerConfig.

(** One call on a closed breaker, inside the window, that leaves the
    sample below [MinRequests]: only the counters move. *)
Lemma call_below_MinRequests cb c :
  state cb = StateClosed ->
  readyToTrip cb = ReadyToTrip cfg ->
  isSuccessful cb = IsSuccessful ->
  inWindow cb c ->
  0 <= Requests (counts cb) ->
  Requests (counts cb) + 1 < MinRequests cfg ->
  MinRequests cfg < 2 ^ 32 ->
  snd (call cb c)
  = with_counts cb
      (if isBreakerFailure (outcome c)
       then Counts_onFailure (Counts_onRequest (counts cb))
       else Counts_onSuccess (Counts_onRequest (counts cb))).
Proof.
  intros Hs Hr Hi Hw H0 Hlt Hmax.
  destruct cb as [nm mr iv to rt isS st gen cnt ex];
    unfold inWindow in Hw; cbn in *; subst st rt isS.
  assert (Hroll1 : negb (ex =? 0) && (ex <? issued c) = false).
  { destruct Hw as [->|[H1 _]]; [reflexivity|].
    apply andb_false_iff; right; apply Z.ltb_ge; lia. }
  assert (Hroll2 : negb (ex =? 0) && (ex <? completed c) = false).
  { destruct Hw as [->|[_ H1]]; [reflexivity|].
    apply andb_false_iff; right; apply Z.ltb_ge; lia. }
  unfold call, Execute, beforeRequest, currentState; cbn.
  rewrite Hroll1; cbn.
  unfold afterRequest, currentState; cbn. rewrite Hroll2; cbn.
  rewrite Z.eqb_refl; cbn. unfold IsSuccessful.
  destruct (isBreakerFailure (outcome c)); cbn; [|reflexivity].
  unfold ReadyToTrip; cbn.
  rewrite (uint32_small (Requests cnt + 1)) by lia.
  replace (0 <? MinRequests cfg) with true by (symmetry; apply Z.ltb_lt; lia).
  replace (Requests cnt + 1 <? MinRequests cfg) with true
    by (symmetry; apply Z.ltb_lt; lia).
  reflexivity.
Qed.

End ClosedBreaker.

Section ClosedWindow.
Import gobreaker grpcmiddleware Trace.
Variable cfg : CircuitBreakerConfig.

Lemma failures_cons c cs :
  failures (c :: cs)
  = (if isBreakerFailure (outcome c) then 1 else 0) + failures cs.
Proof.
  unfold failures; cbn [filter].
  destruct (isBreakerFailure (outcome c)); cbn [List.length]; lia.
Qed.



(** Calls that keep the sample below [MinRequests] leave the breaker
    closed, in the same generation, and count. *)
Lemma calls_below_MinRequests cs : forall cb,
  state cb = StateClosed ->
  readyToTrip cb = ReadyToTrip cfg ->
  isSuccessful cb = IsSuccessful ->
  Forall (inWindow cb) cs ->
  0 <= TotalFailures (counts cb) <= Requests (counts cb) ->
  Requests (counts cb) + Z.of_nat (List.length cs) < MinRequests cfg ->
  MinRequests cfg < 2 ^ 32 ->
  exists c',
    calls cb cs = with_counts cb c'
    /\ Requests c' = Requests (counts cb) + Z.of_nat (List.length cs)
    /\ TotalFailures c' = TotalFailures (counts cb) + failures cs.
Proof.
  induction cs as [|c cs IH]; intros cb Hs Hr Hi Hw Hf Hlt Hmax.
  - exists (counts cb). cbn. unfold failures; cbn.
    destruct cb; cbn. repeat split; lia.
  - cbn [List.length] in Hlt. rewrite Nat2Z.inj_succ in Hlt.
    inversion Hw as [|? ? Hc Hcs]; subst.
    unfold calls; cbn [fold_left].
    rewrite (call_below_MinRequests cfg cb c) by (auto; lia).
    set (c1 := if isBreakerFailure (outcome c)
               then Counts_onFailure (Counts_onRequest (counts cb))
               else Counts_onSuccess (Counts_onRequest (counts cb))).
    assert (Hreq : Requests c1 = Requests (counts cb) + 1).
    { unfold c1; destruct (isBreakerFailure (outcome c)); cbn;
        apply uint32_small; lia. }
    assert (Htf : TotalFailures c1
                  = TotalFailures (counts cb)
                    + (if isBreakerFailure (outcome c) then 1 else 0)).
    { unfold c1; destruct (isBreakerFailure (outcome c)); cbn;
        [apply uint32_small|]; lia. }
    destruct (IH (with_counts cb c1)) as (c' & E & Hreq' & Htf'); auto.
    + cbn. rewrite Hreq, Htf.
      destruct (isBreakerFailure (outcome c)); lia.
    + cbn. rewrite Hreq. lia.
    + exists c'. fold (calls (with_counts cb c1) cs). rewrite E.
      cbn in Hreq', Htf'. rewrite Hreq', Htf', Hreq, Htf, failures_cons.
      cbn [List.length]. rewrite Nat2Z.inj_succ.
      split; [reflexivity|split; lia].
Qed.

Lemma NewCircuitBreaker_fresh name now :
  let cb := NewCircuitBreaker (settings name cfg) now in
  state cb = StateClosed
  /\ readyToTrip cb = ReadyToTrip cfg
  /\ isSuccessful cb = IsSuccessful
  /\ counts cb = Counts_clear
  /\ maxRequests cb = (if cfgMaxRequests cfg =? 0 then 1 else cfgMaxRequests cfg)
  /\ timeout cb = (if cfgTimeout cfg <=? 0 then defaultTimeout else cfgTimeout cfg).
Proof. cbn. repeat split. Qed.
End ClosedWindow.




(** * The breaker while open and half-open *)
Section OpenBreaker.
Import gobreaker grpcmiddleware Trace.







End OpenBreaker.



(** * Arithmetic of the total *)
Section Totals.
Import OrderUsecase.

Lemma ltb_zero_zero : F32.ltb F32.zero F32.zero = false.
Proof. reflexivity. Qed.


Lemma ltb_not_leb_zero x : F32.ltb x F32.zero = true -> F32.leb F32.zero x = false.
Proof. destruct x as [s|s| |s m e]; try destruct s; cbn; congruence. Qed.


Lemma calculateOrderTotal_not_negative itemsTotal shippingCost discount :
  F32.ltb (calculateOrderTotal itemsTotal shippingCost discount) F32.zero = false.
Proof.
  unfold calculateOrderTotal. cbv zeta.
  match goal with |- context [if F32.ltb ?t F32.zero then F32.zero else ?t] =>
    destruct (F32.ltb t F32.zero) eqn:E end; [reflexivity|exact E].
Qed.

Lemma calculateOrderTotal_negative_shipping itemsTotal shippingCost discount :
  F32.ltb shippingCost F32.zero = true ->
  calculateOrderTotal itemsTotal shippingCost discount
  = calculateOrderTotal itemsTotal F32.zero discount.
Proof.
  intros H. unfold calculateOrderTotal. now rewrite H, ltb_zero_zero.
Qed.

Lemma calculateOrderTotal_negative_discount itemsTotal shippingCost discount :
  F32.ltb discount F32.zero = true ->
  calculateOrderTotal itemsTotal shippingCost discount
  = calculateOrderTotal itemsTotal shippingCost F32.zero.
Proof.
  intros H. unfold calculateOrderTotal. now rewrite H, ltb_zero_zero.
Qed.


Lemma sumItemsTotal_from acc items :
  fold_left
    (fun total item =>
       if F32.ltb F32.zero (domain.OrderItem.TotalPrice item)
       then F32.add total (domain.OrderItem.TotalPrice item)
       else F32.add total
              (F32.mul (domain.OrderItem.UnitPrice item)
                       (F32.of_int (domain.OrderItem.Quantity item))))
    items acc
  = Spec.sum_from acc (map Spec.itemContribution items).
Proof.
  revert acc. induction items as [|it items IH]; intros acc; [reflexivity|].
  cbn [fold_left map Spec.sum_from]. rewrite IH. unfold Spec.itemContribution.
  now destruct (F32.ltb F32.zero (domain.OrderItem.TotalPrice it)).
Qed.

Lemma sumItemsTotal_spec items :
  sumItemsTotal items = Spec.persistedItemsTotal items.
Proof. apply sumItemsTotal_from. Qed.

Lemma sum_from_app acc xs ys :
  Spec.sum_from acc (xs ++ ys) = Spec.sum_from (Spec.sum_from acc xs) ys.
Proof. revert acc. induction xs; intros; cbn; auto. Qed.


End Totals.

(** * The store and the repository *)
Section Store.
Import domain store Integrity.

Lemma next_fault_rows db :
  sameRows db (snd (next_fault db))
  /\ orders_id_seq (snd (next_fault db)) = orders_id_seq db
  /\ order_items_id_seq (snd (next_fault db)) = order_items_id_seq db
  /\ save_associations (snd (next_fault db)) = save_associations db.
Proof. unfold next_fault, sameRows. destruct (faults db); cbn; auto. Qed.

Lemma next_fault_none db : faults db = [] -> next_fault db = (false, db).
Proof. unfold next_fault. now intros ->. Qed.

Lemma sameRows_refl db : sameRows db db.
Proof. split; reflexivity. Qed.

Lemma sameRows_trans a b c : sameRows a b -> sameRows b c -> sameRows a c.
Proof. unfold sameRows. intros [] []. split; congruence. Qed.

Lemma has_item_id_fresh db id :
  (forall it, In it (order_items db) -> OrderItem.ID it <= order_items_id_seq db) ->
  order_items_id_seq db < id ->
  has_item_id db id = false.
Proof.
  intros H Hlt. unfold has_item_id.
  destruct (existsb _ _) eqn:E; [|reflexivity].
  apply existsb_exists in E. destruct E as (it & Hin & Heq).
  apply Z.eqb_eq in Heq. specialize (H it Hin). lia.
Qed.

Lemma has_order_id_fresh db id :
  (forall o, In o (orders db) -> Order.ID o <= orders_id_seq db) ->
  orders_id_seq db < id ->
  has_order_id db id = false.
Proof.
  intros H Hlt. unfold has_order_id.
  destruct (existsb _ _) eqn:E; [|reflexivity].
  apply existsb_exists in E. destruct E as (o & Hin & Heq).
  apply Z.eqb_eq in Heq. specialize (H o Hin). lia.
Qed.

(** What a successful item insert does. *)
Lemma insert_item_ok db it id db' :
  insert_item db it = (Ok id, db') ->
  id = order_items_id_seq db + 1
  /\ orders db' = orders db
  /\ order_items db' = order_items db ++ [with_item_id it id]
  /\ order_items_id_seq db' = id
  /\ orders_id_seq db' = orders_id_seq db
  /\ has_order_id db (OrderItem.OrderID it) = true
  /\ has_item_id db id = false.
Proof.
  unfold insert_item, next_fault.
  destruct (faults db) as [|f fs]; cbn.
  - unfold has_item_id, has_order_id; cbn.
    destruct (existsb _ (order_items db)) eqn:Ei; cbn; [discriminate|].
    destruct (existsb _ (orders db)); cbn; [|discriminate].
    intros H; inversion H; subst; auto 10.
  - destruct f; [discriminate|].
    unfold has_item_id, has_order_id; cbn.
    destruct (existsb _ (order_items db)) eqn:Ei; cbn; [discriminate|].
    destruct (existsb _ (orders db)); cbn; [|discriminate].
    intros H; inversion H; subst; auto 10.
Qed.

Lemma insert_item_succeeds db it :
  faults db = [] ->
  (forall i, In i (order_items db) -> OrderItem.ID i <= order_items_id_seq db) ->
  has_order_id db (OrderItem.OrderID it) = true ->
  exists db', insert_item db it = (Ok (order_items_id_seq db + 1), db')
              /\ faults db' = [].
Proof.
  intros Hf Hids Href. unfold insert_item. rewrite (next_fault_none db Hf).
  cbn. 
  assert (Hfresh : has_item_id db (order_items_id_seq db + 1) = false)
    by (apply has_item_id_fresh; auto; lia).
  unfold has_item_id in *. unfold has_order_id in *. cbn.
  rewrite Hfresh, Href. cbn. eexists; split; [reflexivity|]. cbn. exact Hf.
Qed.

Lemma create_items_ok todo : forall tx oid done items tx',
  OrderRepository.create_items tx oid done todo = (None, items, tx') ->
  orders tx' = orders tx
  /\ order_items tx'
     = order_items tx ++ assign_ids (order_items_id_seq tx) oid todo
  /\ items = rev done ++ assign_ids (order_items_id_seq tx) oid todo.
Proof.
  induction todo as [|it todo IH]; intros tx oid done items tx' H.
  - cbn in H. inversion H; subst. cbn. rewrite !app_nil_r. auto.
  - cbn [OrderRepository.create_items] in H.
    destruct (insert_item tx _) as [[id|e] tx1] eqn:E; [|discriminate].
    apply insert_item_ok in E.
    destruct E as (Hid & Ho & Hi & Hseq & _ & _ & _).
    apply IH in H. destruct H as (Ho' & Hi' & Hit).
    rewrite Hseq in Hi', Hit. subst id.
    cbn [assign_ids]. repeat split.
    + congruence.
    + rewrite Hi', Hi, <- app_assoc. reflexivity.
    + rewrite Hit. cbn [rev]. rewrite <- app_assoc. reflexivity.
Qed.

Lemma create_items_succeeds todo : forall tx oid done,
  faults tx = [] ->
  (forall i, In i (order_items tx) -> OrderItem.ID i <= order_items_id_seq tx) ->
  has_order_id tx oid = true ->
  exists items tx',
    OrderRepository.create_items tx oid done todo = (None, items, tx').
Proof.
  induction todo as [|it todo IH]; intros tx oid done Hf Hids Href.
  - cbn. eauto.
  - cbn [OrderRepository.create_items].
    destruct (insert_item_succeeds tx
                (with_order_id (with_item_id it 0) oid) Hf Hids Href)
      as (tx1 & E & Hf1).
    rewrite E.
    apply insert_item_ok in E.
    destruct E as (_ & Ho & Hi & Hseq & _ & _ & _).
    apply IH; auto.
    + intros i Hin. rewrite Hi in Hin. rewrite Hseq.
      apply in_app_or in Hin. destruct Hin as [Hin|[<-|[]]].
      * specialize (Hids i Hin). lia.
      * cbn. lia.
    + unfold has_order_id in *. now rewrite Ho.
Qed.

Lemma assign_ids_length seq oid items :
  List.length (assign_ids seq oid items) = List.length items.
Proof.
  revert seq. induction items as [|it items IH]; intros seq; cbn; auto.
Qed.

Lemma assign_ids_again seq seq' oid items :
  assign_ids seq' oid (assign_ids seq oid items) = assign_ids seq' oid items.
Proof.
  revert seq seq'. induction items as [|it items IH]; intros seq seq'; cbn;
    [reflexivity|]. now rewrite IH.
Qed.

Lemma assign_ids_range seq oid items r :
  In r (assign_ids seq oid items) ->
  seq < OrderItem.ID r <= seq + Z.of_nat (List.length items).
Proof.
  revert seq. induction items as [|it items IH]; intros seq Hin; [destruct Hin|].
  cbn [assign_ids List.length] in *. rewrite Nat2Z.inj_succ.
  destruct Hin as [<-|Hin]; [cbn; lia|].
  specialize (IH _ Hin). lia.
Qed.

Lemma insert_order_ok db o id db1 :
  insert_order db o = (Ok id, db1) ->
  has_order_id db id = false
  /\ (Order.ID o = 0 -> id = orders_id_seq db + 1)
  /\ orders db1 = orders db ++ [order_row o id]
  /\ order_items db1 = order_items db
  /\ order_items_id_seq db1 = order_items_id_seq db
  /\ save_associations db1 = save_associations db.
Proof.
  unfold insert_order. intros E.
  destruct (next_fault db) as [fault d0] eqn:En.
  pose proof (next_fault_rows db) as ((Hro & Hri) & Hs1 & Hs2 & Hsa).
  rewrite En in Hro, Hri, Hs1, Hs2, Hsa; cbn in Hro, Hri, Hs1, Hs2, Hsa.
  destruct fault; [discriminate|].
  unfold has_order_id in E; cbn in E.
  destruct (existsb _ (orders d0)) eqn:Ex; [discriminate|].
  inversion E; subst; clear E. cbn.
  repeat split; auto.
  - unfold has_order_id. now rewrite <- Hro.
  - intros H0. rewrite H0; cbn. now rewrite Hs1.
  - now rewrite Hro.
Qed.

Lemma insert_items_ok db oid items rows db1 :
  insert_items db oid items = (Ok rows, db1) ->
  rows = assign_ids (order_items_id_seq db) oid items
  /\ orders db1 = orders db
  /\ order_items db1 = order_items db ++ rows
  /\ order_items_id_seq db1
     = order_items_id_seq db + Z.of_nat (List.length items).
Proof.
  unfold insert_items. intros E.
  destruct (next_fault db) as [fault d0] eqn:En.
  pose proof (next_fault_rows db) as ((Hro & Hri) & Hs1 & Hs2 & Hsa).
  rewrite En in Hro, Hri, Hs1, Hs2, Hsa; cbn in Hro, Hri, Hs1, Hs2, Hsa.
  destruct fault; [discriminate|].
  match type of E with
  | (if ?b then _ else _) = _ => destruct b; [discriminate|]
  end.
  inversion E; subst; clear E. cbn.
  rewrite Hs2, Hro, Hri. auto.
Qed.

Lemma insert_items_succeeds db oid items :
  faults db = [] ->
  (forall i, In i (order_items db) -> OrderItem.ID i <= order_items_id_seq db) ->
  has_order_id db oid = true ->
  exists rows db1, insert_items db oid items = (Ok rows, db1) /\ faults db1 = [].
Proof.
  intros Hf Hids Href. unfold insert_items. rewrite (next_fault_none db Hf).
  assert (Hnone : existsb
                    (fun r => has_item_id
                                (mkDB (orders db) (order_items db) (orders_id_seq db)
                                   (order_items_id_seq db
                                    + Z.of_nat (List.length items))
                                   (faults db) (save_associations db))
                                (OrderItem.ID r))
                    (assign_ids (order_items_id_seq db) oid items) = false).
  { destruct (existsb _ _) eqn:E; [|reflexivity].
    apply existsb_exists in E. destruct E as (r & Hin & Hhas).
    apply assign_ids_range in Hin.
    unfold has_item_id in Hhas; cbn in Hhas.
    apply existsb_exists in Hhas. destruct Hhas as (i & Hi & Heq).
    apply Z.eqb_eq in Heq. specialize (Hids i Hi). lia. }
  rewrite Hnone. unfold has_order_id in *; cbn. rewrite Href. cbn.
  do 2 eexists. split; [reflexivity|exact Hf].
Qed.

(** What [Create] on an order adds. *)
Lemma Create_ok db o o1 db1 :
  OrderRepository.Create db o = (Ok o1, db1) ->
  exists id,
    has_order_id db id = false
    /\ (Order.ID o = 0 -> id = orders_id_seq db + 1)
    /\ orders db1 = orders db ++ [order_row o id]
    /\ order_items db1 = order_items db ++ saved_rows db id (Order.Items o)
    /\ order_items_id_seq db1
       = order_items_id_seq db
         + Z.of_nat (List.length (saved_rows db id (Order.Items o)))
    /\ o1 = OrderRepository.with_items o id (Order.Items o1)
    /\ (forall seq, assign_ids seq id (Order.Items o1)
                    = assign_ids seq id (Order.Items o)).
Proof.
  unfold OrderRepository.Create. intros E.
  destruct (insert_order db o) as [[id|e] tx] eqn:Eo; [|discriminate].
  apply insert_order_ok in Eo.
  destruct Eo as (Hfresh & Hid & Ho & Hi & Hseq & Hsa).
  exists id. unfold saved_rows.
  destruct (Order.Items o) as [|it items] eqn:Eitems.
  - inversion E; subst; clear E. cbn.
    destruct (save_associations db); cbn; rewrite ?app_nil_r, ?Z.add_0_r;
      repeat split; auto.
  - rewrite Hsa in E. destruct (save_associations db).
    + destruct (insert_items tx id (it :: items)) as [[rows|e] tx1] eqn:Ei;
        [|discriminate].
      inversion E; subst; clear E.
      apply insert_items_ok in Ei. destruct Ei as (Hrows & Ho1 & Hi1 & Hseq1).
      rewrite Hseq in Hrows, Hseq1. rewrite Hi in Hi1.
      cbn [Order.Items OrderRepository.with_items].
      rewrite assign_ids_length, <- Hrows.
      repeat split; auto; try congruence.
      intros seq. rewrite Hrows. apply assign_ids_again.
    + inversion E; subst; clear E. cbn [Order.Items OrderRepository.with_items].
      cbn [List.length]. rewrite app_nil_r, Z.add_0_r.
      repeat split; auto.
Qed.

(** The repository's [CreateOrder] is all or nothing. *)
Lemma repo_CreateOrder_err db o e o' db' :
  OrderRepository.CreateOrder db o = (Some e, o', db') -> sameRows db db'.
Proof.
  unfold OrderRepository.CreateOrder, Transaction.
  match goal with |- context [match ?x with _ => _ end] => destruct x as [[[err|] a] tx] end;
    intros H; inversion H; subst; split; reflexivity.
Qed.

Lemma repo_CreateOrder_ok db o o' db' :
  OrderRepository.CreateOrder db o = (None, o', db') ->
  exists id,
    has_order_id db id = false
    /\ (Order.ID o = 0 -> id = orders_id_seq db + 1)
    /\ orders db' = orders db ++ [order_row o id]
    /\ order_items db'
       = order_items db ++ saved_rows db id (Order.Items o)
         ++ loop_rows db id (Order.Items o)
    /\ o' = OrderRepository.with_items o id (loop_rows db id (Order.Items o)).
Proof.
  unfold OrderRepository.CreateOrder, Transaction.
  destruct (OrderRepository.Create db o) as [[o1|e] tx] eqn:E; [|discriminate].
  destruct (OrderRepository.create_items tx (Order.ID o1) [] (Order.Items o1))
    as [[[err|] items] tx1] eqn:E1; [discriminate|].
  intros H; inversion H; subst; clear H.
  apply create_items_ok in E1. destruct E1 as (Ho & Hi & Hit).
  apply Create_ok in E.
  destruct E as (id & Hfresh & Hid & Ho1 & Hi1 & Hseq & Ho1eq & Hassign).
  assert (Hoid : Order.ID o1 = id) by (rewrite Ho1eq; reflexivity).
  exists id. unfold loop_rows.
  rewrite Hoid, Hseq, Hassign in Hi, Hit. cbn in Hit.
  repeat split; auto.
  - congruence.
  - rewrite Hi, Hi1, <- app_assoc. reflexivity.
  - rewrite Hit, Hoid. rewrite Ho1eq. reflexivity.
Qed.

Lemma repo_CreateOrder_succeeds db o :
  no_faults db -> ids_from_sequences db -> Order.ID o = 0 ->
  exists o' db', OrderRepository.CreateOrder db o = (None, o', db').
Proof.
  intros Hf [Hio Hii] H0.
  assert (HC : exists o1 tx,
             OrderRepository.Create db o = (Ok o1, tx)
             /\ faults tx = []
             /\ (forall i, In i (order_items tx) ->
                           OrderItem.ID i <= order_items_id_seq tx)
             /\ has_order_id tx (Order.ID o1) = true).
  { unfold OrderRepository.Create, insert_order.
    rewrite (next_fault_none db Hf), H0. cbn.
    assert (Hfresh : has_order_id db (orders_id_seq db + 1) = false)
      by (apply has_order_id_fresh; auto; lia).
    unfold has_order_id in *; cbn. rewrite Hfresh.
    set (tx := mkDB (orders db ++ [order_row o (orders_id_seq db + 1)])
                    (order_items db) (orders_id_seq db + 1)
                    (order_items_id_seq db) (faults db) (save_associations db)).
    assert (Hhas : has_order_id tx (orders_id_seq db + 1) = true).
    { unfold has_order_id; cbn. rewrite existsb_app; cbn.
      rewrite Z.eqb_refl. now rewrite orb_true_r. }
    destruct (Order.Items o) as [|it items] eqn:Eitems.
    - do 2 eexists. split; [reflexivity|]. cbn. repeat split; auto.
    - destruct (save_associations db).
      + destruct (insert_items_succeeds tx (orders_id_seq db + 1) (it :: items))
          as (rows & tx1 & Ei & Hf1); auto.
        rewrite Ei. do 2 eexists. split; [reflexivity|].
        apply insert_items_ok in Ei. destruct Ei as (Hrows & Ho1 & Hi1 & Hseq1).
        split; [exact Hf1|]. split.
        * intros i Hin. rewrite Hi1 in Hin. rewrite Hseq1.
          apply in_app_or in Hin. destruct Hin as [Hin|Hin].
          -- specialize (Hii i Hin). cbn. lia.
          -- rewrite Hrows in Hin. apply assign_ids_range in Hin. cbn in *. lia.
        * cbn. unfold has_order_id in *. now rewrite Ho1.
      + do 2 eexists. split; [reflexivity|]. cbn. repeat split; auto. }
  destruct HC as (o1 & tx & EC & Hf1 & Hids1 & Hhas1).
  unfold OrderRepository.CreateOrder, Transaction. rewrite EC.
  destruct (create_items_succeeds (Order.Items o1) tx (Order.ID o1) [])
    as (items & tx' & E); auto.
  rewrite E. eauto.
Qed.
End Store.

(** * The use case *)
Section Usecase.
Import domain dto store Integrity OrderUsecase.
Context {R : Type} (D : Downstream R).

(** Validation never touches the store. *)
Lemma userClient_GetUserByID_db id (w : World R) :
  db (snd (userClient_GetUserByID D id w)) = db w.
Proof.
  unfold userClient_GetUserByID.
  destruct (grpcmiddleware.intercept _ _ _ _) as [[[? ?] ?] ?]. reflexivity.
Qed.

Lemma ensureUserExists_db userID (w : World R) :
  db (snd (ensureUserExists D userID w)) = db w.
Proof.
  unfold ensureUserExists.
  pose proof (userClient_GetUserByID_db (int32 userID) w) as H.
  destruct (userClient_GetUserByID D (int32 userID) w) as [[e|] w']; exact H.
Qed.

Lemma productClient_GetProductByID_db id (w : World R) :
  db (snd (productClient_GetProductByID D id w)) = db w.
Proof.
  unfold productClient_GetProductByID.
  destruct (grpcmiddleware.intercept _ _ _ _) as [[[? [e|]] ?] ?]; reflexivity.
Qed.

Lemma ensureProductExists_db productID (w : World R) :
  db (snd (ensureProductExists D productID w)) = db w.
Proof.
  unfold ensureProductExists.
  pose proof (productClient_GetProductByID_db (int64 productID) w) as H.
  destruct (productClient_GetProductByID D (int64 productID) w)
    as [[[p|]|e] w']; exact H.
Qed.

Lemma ensureProductsExist_db ids : forall (w : World R),
  db (snd (ensureProductsExist D ids w)) = db w.
Proof.
  induction ids as [|id ids IH]; intros w; [reflexivity|].
  cbn [ensureProductsExist].
  pose proof (ensureProductExists_db id w) as H.
  destruct (ensureProductExists D id w) as [[p|e] w1]; cbn in H; [|exact H].
  specialize (IH w1).
  destruct (ensureProductsExist D ids w1) as [[ps|e] w2]; cbn in *; congruence.
Qed.

(** The loop of [CreateOrder] validates the products in request order
    and stops at the first that fails; when all pass, it has built one
    item per line from the validated price and summed their totals. *)
Lemma CreateOrder_items_spec reqItems : forall items acc (w : World R),
  match ensureProductsExist D (map OrderItemInput.ProductID reqItems) w with
  | (Err e, w') => CreateOrder_items D reqItems items acc w = (Err e, w')
  | (Ok products, w') =>
      CreateOrder_items D reqItems items acc w
      = (Ok (items ++ map (fun lp => newOrderItem (fst lp) (snd lp))
                          (combine reqItems products),
             Spec.itemsTotal_from acc
               (combine (map productpb.Price products)
                        (map OrderItemInput.Quantity reqItems))),
         w')
      /\ List.length products = List.length reqItems
  end.
Proof.
  induction reqItems as [|line reqItems IH]; intros items acc w.
  - cbn. now rewrite app_nil_r.
  - cbn [map ensureProductsExist CreateOrder_items].
    destruct (ensureProductExists D (OrderItemInput.ProductID line) w)
      as [[p|e] w1]; [|reflexivity].
    match goal with
    | |- context [CreateOrder_items D reqItems ?i ?a w1] =>
        specialize (IH i a w1)
    end.
    destruct (ensureProductsExist D (map OrderItemInput.ProductID reqItems) w1)
      as [[ps|e] w2]; [|exact IH].
    destruct IH as [IH Hlen]. rewrite IH. cbn. rewrite <- app_assoc.
    split; [reflexivity|now rewrite Hlen].
Qed.

(** Every item the loop builds is live and priced from its own unit
    price, and the running total is the sum of the items' totals. *)
Lemma CreateOrder_items_priced reqItems : forall items acc (w : World R) a0
                                                items' total' w',
  CreateOrder_items D reqItems items acc w = (Ok (items', total'), w') ->
  Forall priced items ->
  Forall (fun it => OrderItem.DeletedAt it = false) items ->
  acc = Spec.sum_from a0 (map OrderItem.TotalPrice items) ->
  Forall priced items'
  /\ Forall (fun it => OrderItem.DeletedAt it = false) items'
  /\ total' = Spec.sum_from a0 (map OrderItem.TotalPrice items').
Proof.
  induction reqItems as [|line reqItems IH];
    intros items acc w a0 items' total' w' H Hp Hd Hacc.
  - cbn in H. inversion H; subst. auto.
  - cbn [CreateOrder_items] in H.
    destruct (ensureProductExists D (OrderItemInput.ProductID line) w)
      as [[p|e] w1]; [|discriminate].
    apply (IH _ _ _ a0) in H; auto.
    + apply Forall_app; split; [exact Hp|].
      constructor; [reflexivity|constructor].
    + apply Forall_app; split; [exact Hd|].
      constructor; [reflexivity|constructor].
    + rewrite map_app, sum_from_app, <- Hacc. reflexivity.
Qed.

Lemma CreateOrder_items_db reqItems : forall items acc (w : World R),
  db (snd (CreateOrder_items D reqItems items acc w)) = db w.
Proof.
  intros items acc w.
  pose proof (CreateOrder_items_spec reqItems items acc w) as H.
  pose proof (ensureProductsExist_db (map OrderItemInput.ProductID reqItems) w) as Hdb.
  destruct (ensureProductsExist D _ w) as [[ps|e] w']; cbn in Hdb.
  - destruct H as [H _]. now rewrite H.
  - now rewrite H.
Qed.

(** Validating a list that has a failing product after a prefix that
    passes fails with that product's error. *)
Lemma ensureProductsExist_first_failure pre : forall id post (w : World R)
                                                     ps w1 e w2,
  ensureProductsExist D pre w = (Ok ps, w1) ->
  ensureProductExists D id w1 = (Err e, w2) ->
  ensureProductsExist D (pre ++ id :: post) w = (Err e, w2).
Proof.
  induction pre as [|p pre IH]; intros id post w ps w1 e w2 Hpre Hid.
  - cbn in Hpre. inversion Hpre; subst. cbn. now rewrite Hid.
  - cbn [ensureProductsExist app] in *.
    destruct (ensureProductExists D p w) as [[pr|e0] w0]; [|discriminate].
    destruct (ensureProductsExist D pre w0) as [[ps0|e0] w0'] eqn:E;
      [|discriminate].
    inversion Hpre; subst.
    now rewrite (IH id post w0 ps0 w1 e w2 E Hid).
Qed.
End Usecase.

Section UsecaseCreate.
Import domain dto store Integrity OrderUsecase.
Context {R : Type} (D : Downstream R).

Lemma find_order_new db db' o id :
  has_order_id db id = false ->
  orders db' = orders db ++ [order_row o id] ->
  Order.DeletedAt o = false ->
  find_order db' id = Some (order_row o id).
Proof.
  unfold has_order_id, find_order. intros Hfresh -> Hlive.
  induction (orders db) as [|x xs IH]; cbn in *.
  - now rewrite Z.eqb_refl, Hlive.
  - apply orb_false_iff in Hfresh. destruct Hfresh as [Hx Hxs].
    rewrite Hx. cbn. now apply IH.
Qed.

(** The order [CreateOrder] hands to the repository, once the user and
    the products [products] have been validated. *)
Lemma CreateOrder_validated (req : CreateOrderRequest.t) (w w1 w2 : World R)
      products :
  ensureUserExists D (CreateOrderRequest.UserID req) w = (None, w1) ->
  ensureProductsExist D
    (map OrderItemInput.ProductID (CreateOrderRequest.Items req)) w1
  = (Ok products, w2) ->
  let lines := combine (map productpb.Price products)
                       (map OrderItemInput.Quantity (CreateOrderRequest.Items req)) in
  let order :=
    Order.mk 0 false (CreateOrderRequest.UserID req)
      (CreateOrderRequest.ShippingCost req)
      (CreateOrderRequest.ShippingDurationDays req)
      (CreateOrderRequest.Discount req)
      (Spec.orderTotal (Spec.itemsTotal lines)
                       (CreateOrderRequest.ShippingCost req)
                       (CreateOrderRequest.Discount req))
      OrderStatusPending
      (map (fun lp => newOrderItem (fst lp) (snd lp))
           (combine (CreateOrderRequest.Items req) products)) in
  CreateOrder D req w
  = match OrderRepository.CreateOrder (db w) order with
    | (Some err, _, d) => (Err err, with_db w2 d)
    | (None, order, d) => (Ok order, with_db w2 d)
    end
  /\ db w2 = db w
  /\ List.length products = List.length (CreateOrderRequest.Items req).
Proof.
  intros Hu Hp lines order.
  pose proof (ensureUserExists_db D (CreateOrderRequest.UserID req) w) as Hdb1.
  rewrite Hu in Hdb1; cbn in Hdb1.
  pose proof (ensureProductsExist_db D
                (map OrderItemInput.ProductID (CreateOrderRequest.Items req)) w1)
    as Hdb2.
  rewrite Hp in Hdb2; cbn in Hdb2.
  pose proof (CreateOrder_items_spec D (CreateOrderRequest.Items req) []
                F32.zero w1) as Hloop.
  rewrite Hp in Hloop. destruct Hloop as [Hloop Hlen].
  unfold CreateOrder. rewrite Hu, Hloop.
  replace (db w2) with (db w) by congruence.
  split; [reflexivity|split; [congruence|exact Hlen]].
Qed.

Lemma map_UnitPrice_assign_ids seq oid items :
  map OrderItem.UnitPrice (assign_ids seq oid items)
  = map OrderItem.UnitPrice items.
Proof.
  revert seq. induction items as [|it items IH]; intros seq; cbn; [reflexivity|].
  now rewrite IH.
Qed.

Lemma map_UnitPrice_newOrderItem lines : forall products,
  List.length products = List.length lines ->
  map OrderItem.UnitPrice
      (map (fun lp => newOrderItem (fst lp) (snd lp)) (combine lines products))
  = map productpb.Price products.
Proof.
  induction lines as [|l lines IH]; intros [|p products] Hlen;
    try discriminate; cbn; [reflexivity|].
  rewrite IH; [reflexivity|]. cbn in Hlen. congruence.
Qed.
End UsecaseCreate.

(** C1: when the user validation and every item's product validation
    succeed, an order that [CreateOrder] returns is persisted with total
    [max(0, sum (unitPrice_i * quantity_i) + shippingCost - discount)],
    the unit prices being those the product validation returned and the
    shipping cost and the discount clamped to zero when negative, and with
    status "pending"; and [CreateOrder] does return the order when the
    store does not fail. *)
Theorem CreateOrder_persists_total
    {R : Type} (D : Downstream R) (req : dto.CreateOrderRequest.t)
    (w w1 w2 : World R) (products : list productpb.Product) :
  OrderUsecase.ensureUserExists D (dto.CreateOrderRequest.UserID req) w
  = (None, w1) ->
  ensureProductsExist D
    (map dto.OrderItemInput.ProductID (dto.CreateOrderRequest.Items req)) w1
  = (Ok products, w2) ->
  let lines :=
    combine (map productpb.Price products)
            (map dto.OrderItemInput.Quantity (dto.CreateOrderRequest.Items req)) in
  let total :=
    Spec.orderTotal (Spec.itemsTotal lines)
                    (dto.CreateOrderRequest.ShippingCost req)
                    (dto.CreateOrderRequest.Discount req) in
  (forall order w3,
      OrderUsecase.CreateOrder D req w = (Ok order, w3) ->
      domain.Order.Total order = total
      /\ domain.Order.Status order = domain.OrderStatusPending
      /\ map domain.OrderItem.UnitPrice (domain.Order.Items order)
         = map productpb.Price products
      /\ exists row,
           store.find_order (db w3) (domain.Order.ID order) = Some row
           /\ domain.Order.Total row = total
           /\ domain.Order.Status row = domain.OrderStatusPending)
  /\ (Integrity.no_faults (db w) -> Integrity.ids_from_sequences (db w) ->
      exists order w3, OrderUsecase.CreateOrder D req w = (Ok order, w3)).
Proof.
  intros Hu Hp lines total.
  destruct (CreateOrder_validated D req w w1 w2 products Hu Hp) as (E & Hdb & Hlen).
  split.
  - intros order w3 H. rewrite E in H.
    match type of H with
    | context [OrderRepository.CreateOrder ?d ?o] =>
        destruct (OrderRepository.CreateOrder d o) as [[[err|] o'] d'] eqn:Er
    end; [discriminate|].
    inversion H; subst; clear H.
    apply repo_CreateOrder_ok in Er.
    destruct Er as (id & Hfresh & _ & Ho & Hi & ->). cbn.
    repeat split.
    + now rewrite map_UnitPrice_assign_ids, map_UnitPrice_newOrderItem.
    + eexists. split; [eapply find_order_new; eauto|]. split; reflexivity.
  - intros Hf Hids.
    rewrite E.
    match goal with
    | |- context [OrderRepository.CreateOrder ?d ?o] =>
        destruct (repo_CreateOrder_succeeds d o Hf Hids eq_refl) as (o' & d' & Er)
    end.
    rewrite Er. eauto.
Qed.

Lemma CreateOrder_persists_total_witness :
  let req := dto.CreateOrderRequest.mk 1 (F32.of_int 10) 3 (F32.of_int 5)
               [dto.OrderItemInput.mk 7 2] in
  exists order w3,
    OrderUsecase.CreateOrder Scenario.D req Scenario.world0 = (Ok order, w3)
    /\ domain.Order.Total order = F32.of_int 45
    /\ domain.Order.Status order = domain.OrderStatusPending.
Proof.
  cbv zeta.
  set (req := dto.CreateOrderRequest.mk 1 (F32.of_int 10) 3 (F32.of_int 5)
                [dto.OrderItemInput.mk 7 2]).
  destruct (CreateOrder_persists_total Scenario.D req Scenario.world0
              (snd (OrderUsecase.ensureUserExists Scenario.D 1 Scenario.world0))
              (snd (ensureProductsExist Scenario.D [7]
                      (snd (OrderUsecase.ensureUserExists Scenario.D 1
                              Scenario.world0))))
              [productpb.mkProduct (F32.of_int 20)])
    as (Hprop & Hex).
  - apply pair_eta; vm_compute; reflexivity.
  - apply pair_eta; vm_compute; reflexivity.
  - destruct Hex as (order & w3 & E).
    + reflexivity.
    + split; intros ? H; destruct H.
    + exists order, w3. split; [exact E|].
      destruct (Hprop order w3 E) as (Ht & Hs & _).
      split; [rewrite Ht; vm_compute; reflexivity|exact Hs].
Defined.

(** C2: if the user validation fails, or the product validation of any
    requested item fails, [CreateOrder] returns the error and the store
    is as before; the store changes only after every validation has
    succeeded; and the repository creates the order row with an item row
    for every item of the order (besides the rows the handle itself saves
    for the association), or no row at all. *)
Theorem CreateOrder_all_or_nothing {R : Type} (D : Downstream R) :
  (forall req (w : World R) e w1,
      OrderUsecase.ensureUserExists D (dto.CreateOrderRequest.UserID req) w
      = (Some e, w1) ->
      OrderUsecase.CreateOrder D req w = (Err e, w1) /\ db w1 = db w)
  /\ (forall req (w w1 w2 w3 : World R) pre line post products e,
         OrderUsecase.ensureUserExists D (dto.CreateOrderRequest.UserID req) w
         = (None, w1) ->
         dto.CreateOrderRequest.Items req = pre ++ line :: post ->
         ensureProductsExist D (map dto.OrderItemInput.ProductID pre) w1
         = (Ok products, w2) ->
         OrderUsecase.ensureProductExists D (dto.OrderItemInput.ProductID line) w2
         = (Err e, w3) ->
         OrderUsecase.CreateOrder D req w = (Err e, w3) /\ db w3 = db w)
  /\ (forall req (w : World R) res w',
         OrderUsecase.CreateOrder D req w = (res, w') ->
         db w' <> db w ->
         exists w1 products w2,
           OrderUsecase.ensureUserExists D (dto.CreateOrderRequest.UserID req) w
           = (None, w1)
           /\ ensureProductsExist D
                (map dto.OrderItemInput.ProductID (dto.CreateOrderRequest.Items req))
                w1
              = (Ok products, w2))
  /\ (forall req (w : World R) e w',
         OrderUsecase.CreateOrder D req w = (Err e, w') ->
         Integrity.sameRows (db w) (db w'))
  /\ (forall d order,
         match OrderRepository.CreateOrder d order with
         | (Some _, _, d') => Integrity.sameRows d d'
         | (None, order', d') =>
             exists id,
               store.orders d' = store.orders d ++ [store.order_row order id]
               /\ store.order_items d'
                  = store.order_items d
                    ++ Integrity.saved_rows d id (domain.Order.Items order)
                    ++ Integrity.loop_rows d id (domain.Order.Items order)
               /\ domain.Order.Items order'
                  = Integrity.loop_rows d id (domain.Order.Items order)
               /\ List.length (domain.Order.Items order')
                  = List.length (domain.Order.Items order)
         end).
Proof.
  assert (Huser : forall req (w : World R) e w1,
      OrderUsecase.ensureUserExists D (dto.CreateOrderRequest.UserID req) w
      = (Some e, w1) ->
      OrderUsecase.CreateOrder D req w = (Err e, w1) /\ db w1 = db w).
  { intros req w e w1 H.
    pose proof (ensureUserExists_db D (dto.CreateOrderRequest.UserID req) w) as Hdb.
    rewrite H in Hdb. unfold OrderUsecase.CreateOrder. now rewrite H. }
  assert (Hitems : forall req (w w1 w2 : World R) e,
      OrderUsecase.ensureUserExists D (dto.CreateOrderRequest.UserID req) w
      = (None, w1) ->
      ensureProductsExist D
        (map dto.OrderItemInput.ProductID (dto.CreateOrderRequest.Items req)) w1
      = (Err e, w2) ->
      OrderUsecase.CreateOrder D req w = (Err e, w2) /\ db w2 = db w).
  { intros req w w1 w2 e Hu Hp.
    pose proof (ensureUserExists_db D (dto.CreateOrderRequest.UserID req) w) as Hdb1.
    rewrite Hu in Hdb1; cbn in Hdb1.
    pose proof (ensureProductsExist_db D
                  (map dto.OrderItemInput.ProductID (dto.CreateOrderRequest.Items req))
                  w1) as Hdb2.
    rewrite Hp in Hdb2; cbn in Hdb2.
    pose proof (CreateOrder_items_spec D (dto.CreateOrderRequest.Items req) []
                  F32.zero w1) as Hloop.
    rewrite Hp in Hloop.
    unfold OrderUsecase.CreateOrder. rewrite Hu, Hloop. split; congruence. }
  split; [exact Huser|].
  split.
  { intros req w w1 w2 w3 pre line post products e Hu Hsplit Hpre Hline.
    apply (Hitems req w w1 w3 e Hu).
    rewrite Hsplit, map_app. cbn [map].
    eapply ensureProductsExist_first_failure; eauto. }
  split.
  { intros req w res w' H Hchanged.
    destruct (OrderUsecase.ensureUserExists D (dto.CreateOrderRequest.UserID req) w)
      as [[e|] w1] eqn:Hu.
    - destruct (Huser req w e w1 Hu) as [E Hdb]. rewrite E in H.
      inversion H; subst. contradiction.
    - destruct (ensureProductsExist D
                  (map dto.OrderItemInput.ProductID (dto.CreateOrderRequest.Items req))
                  w1) as [[ps|e] w2] eqn:Hp.
      + eauto.
      + destruct (Hitems req w w1 w2 e Hu Hp) as [E Hdb]. rewrite E in H.
        inversion H; subst. contradiction. }
  split.
  { intros req w e w' H.
    destruct (OrderUsecase.ensureUserExists D (dto.CreateOrderRequest.UserID req) w)
      as [[e0|] w1] eqn:Hu.
    - destruct (Huser req w e0 w1 Hu) as [E Hdb]. rewrite E in H.
      inversion H; subst. rewrite Hdb. apply sameRows_refl.
    - destruct (ensureProductsExist D
                  (map dto.OrderItemInput.ProductID (dto.CreateOrderRequest.Items req))
                  w1) as [[ps|e0] w2] eqn:Hp.
      + destruct (CreateOrder_validated D req w w1 w2 ps Hu Hp) as (E & Hdb & _).
        rewrite E in H.
        match type of H with
        | context [OrderRepository.CreateOrder ?d ?o] =>
            destruct (OrderRepository.CreateOrder d o) as [[[err|] o'] d'] eqn:Er
        end; [|discriminate].
        inversion H; subst; cbn. eapply repo_CreateOrder_err; eauto.
      + destruct (Hitems req w w1 w2 e0 Hu Hp) as [E Hdb]. rewrite E in H.
        inversion H; subst. rewrite Hdb. apply sameRows_refl. }
  intros d order.
  destruct (OrderRepository.CreateOrder d order) as [[[err|] o'] d'] eqn:Er.
  - eapply repo_CreateOrder_err; eauto.
  - apply repo_CreateOrder_ok in Er.
    destruct Er as (id & _ & _ & Ho & Hi & ->).
    exists id. cbn. repeat split; auto.
    unfold Integrity.loop_rows. apply assign_ids_length.
Qed.

Lemma CreateOrder_all_or_nothing_witness :
  let unknownUser := dto.CreateOrderRequest.mk 2 (F32.of_int 10) 3 (F32.of_int 5)
                       [dto.OrderItemInput.mk 7 2] in
  let unknownProduct := dto.CreateOrderRequest.mk 1 (F32.of_int 10) 3 (F32.of_int 5)
                          [dto.OrderItemInput.mk 7 2; dto.OrderItemInput.mk 6 1] in
  let failingStore :=
    with_db Scenario.world0 (store.mkDB [] [] 0 0 [false; false; true] true) in
  Integrity.sameRows (db Scenario.world0)
    (db (snd (OrderUsecase.CreateOrder Scenario.D unknownUser Scenario.world0)))
  /\ Integrity.sameRows (db Scenario.world0)
       (db (snd (OrderUsecase.CreateOrder Scenario.D unknownProduct Scenario.world0)))
  /\ Integrity.sameRows (db failingStore)
       (db (snd (OrderUsecase.CreateOrder Scenario.D
                   (dto.CreateOrderRequest.mk 1 (F32.of_int 10) 3 (F32.of_int 5)
                      [dto.OrderItemInput.mk 7 2; dto.OrderItemInput.mk 8 1])
                   failingStore))).
Proof.
  cbv zeta.
  pose proof (CreateOrder_all_or_nothing Scenario.D) as (_ & _ & _ & Herr & _).
  split; [|split]; eapply Herr; apply pair_eta; vm_compute; reflexivity.
Defined.

Section Clamping.
Import OrderUsecase.

Lemma calculateOrderTotal_clamped itemsTotal shippingCost discount :
  calculateOrderTotal itemsTotal shippingCost discount
  = calculateOrderTotal itemsTotal (Spec.clampNegative shippingCost)
                        (Spec.clampNegative discount).
Proof.
  unfold calculateOrderTotal, Spec.clampNegative.
  destruct (F32.ltb shippingCost F32.zero) eqn:Es;
    destruct (F32.ltb discount F32.zero) eqn:Ed;
    rewrite ?ltb_zero_zero, ?Es, ?Ed; reflexivity.
Qed.

Lemma validate_rejects_negative (r : dto.CreateOrderRequest.t) :
  F32.ltb (dto.CreateOrderRequest.ShippingCost r) F32.zero = true
  \/ F32.ltb (dto.CreateOrderRequest.Discount r) F32.zero = true ->
  OrderGRPCHandler.validate_CreateOrderRequest r = false.
Proof.
  unfold OrderGRPCHandler.validate_CreateOrderRequest.
  intros [H|H]; apply ltb_not_leb_zero in H; rewrite H;
    rewrite ?andb_false_r; reflexivity.
Qed.
End Clamping.

(** C3, as amended: in the total computation a negative shipping cost or
    discount counts as zero, so it never lowers the total below what a
    zero value gives and the total is never negative; the use case's
    [CreateOrder] accepts such a request and completes when the
    validations pass and the store does not fail; the gRPC handler's
    [CreateOrder] rejects it with a validation error before the use case
    is reached. *)
Theorem negative_costs_clamped_in_usecase_rejected_by_handler
    {R : Type} (D : Downstream R) :
  (forall itemsTotal shippingCost discount,
      F32.ltb shippingCost F32.zero = true ->
      OrderUsecase.calculateOrderTotal itemsTotal shippingCost discount
      = OrderUsecase.calculateOrderTotal itemsTotal F32.zero discount)
  /\ (forall itemsTotal shippingCost discount,
         F32.ltb discount F32.zero = true ->
         OrderUsecase.calculateOrderTotal itemsTotal shippingCost discount
         = OrderUsecase.calculateOrderTotal itemsTotal shippingCost F32.zero)
  /\ (forall itemsTotal shippingCost discount,
         F32.ltb (OrderUsecase.calculateOrderTotal itemsTotal shippingCost discount)
                 F32.zero = false)
  /\ (forall req (w w1 w2 : World R) products,
         OrderUsecase.ensureUserExists D (dto.CreateOrderRequest.UserID req) w
         = (None, w1) ->
         ensureProductsExist D
           (map dto.OrderItemInput.ProductID (dto.CreateOrderRequest.Items req)) w1
         = (Ok products, w2) ->
         Integrity.no_faults (db w) -> Integrity.ids_from_sequences (db w) ->
         exists order w3,
           OrderUsecase.CreateOrder D req w = (Ok order, w3)
           /\ domain.Order.Total order
              = OrderUsecase.calculateOrderTotal
                  (Spec.itemsTotal
                     (combine (map productpb.Price products)
                        (map dto.OrderItemInput.Quantity
                             (dto.CreateOrderRequest.Items req))))
                  (Spec.clampNegative (dto.CreateOrderRequest.ShippingCost req))
                  (Spec.clampNegative (dto.CreateOrderRequest.Discount req)))
  /\ (forall req (w : World R),
         F32.ltb (orderpb.CreateOrderRequest.ShippingCost req) F32.zero = true
         \/ F32.ltb (orderpb.CreateOrderRequest.Discount req) F32.zero = true ->
         OrderGRPCHandler.CreateOrder D req w = (Err ValidationErrors, w)).
Proof.
  split; [intros; now apply calculateOrderTotal_negative_shipping|].
  split; [intros; now apply calculateOrderTotal_negative_discount|].
  split; [intros; apply calculateOrderTotal_not_negative|].
  split.
  - intros req w w1 w2 products Hu Hp Hf Hids.
    destruct (CreateOrder_validated D req w w1 w2 products Hu Hp) as (E & _ & _).
    rewrite E.
    match goal with
    | |- context [OrderRepository.CreateOrder ?d ?o] =>
        destruct (repo_CreateOrder_succeeds d o Hf Hids eq_refl) as (o' & d' & Er)
    end.
    rewrite Er. do 2 eexists. split; [reflexivity|].
    apply repo_CreateOrder_ok in Er. destruct Er as (id & _ & _ & _ & _ & ->).
    cbn. rewrite <- calculateOrderTotal_clamped. reflexivity.
  - intros req w H. unfold OrderGRPCHandler.CreateOrder.
    now rewrite validate_rejects_negative.
Qed.

Lemma negative_costs_clamped_in_usecase_rejected_by_handler_witness :
  let usecaseReq := dto.CreateOrderRequest.mk 1 (F32.of_int (-10)) 3 (F32.of_int 5)
                      [dto.OrderItemInput.mk 7 2] in
  (exists order w3,
      OrderUsecase.CreateOrder Scenario.D usecaseReq Scenario.world0 = (Ok order, w3)
      /\ domain.Order.Total order = F32.of_int 35)
  /\ OrderGRPCHandler.CreateOrder Scenario.D
       (orderpb.CreateOrderRequest.mk 1 (F32.of_int (-10)) 3 (F32.of_int 5)
          [orderpb.OrderItemInput.mk 7 2])
       Scenario.world0
     = (Err ValidationErrors, Scenario.world0).
Proof.
  cbv zeta.
  pose proof (negative_costs_clamped_in_usecase_rejected_by_handler Scenario.D)
    as (_ & _ & _ & Hacc & Hrej).
  split.
  - destruct (Hacc (dto.CreateOrderRequest.mk 1 (F32.of_int (-10)) 3 (F32.of_int 5)
                      [dto.OrderItemInput.mk 7 2])
                   Scenario.world0
                   (snd (OrderUsecase.ensureUserExists Scenario.D 1 Scenario.world0))
                   (snd (ensureProductsExist Scenario.D [7]
                           (snd (OrderUsecase.ensureUserExists Scenario.D 1
                                   Scenario.world0))))
                   [productpb.mkProduct (F32.of_int 20)])
      as (order & w3 & E & Ht).
    + apply pair_eta; vm_compute; reflexivity.
    + apply pair_eta; vm_compute; reflexivity.
    + reflexivity.
    + split; intros ? H; destruct H.
    + exists order, w3. split; [exact E|]. rewrite Ht. vm_compute. reflexivity.
  - apply Hrej. left. vm_compute. reflexivity.
Defined.

(** C3, as stated, fails at the service's [CreateOrder] entry point: a
    request with a negative shipping cost, whose user and product exist,
    is rejected with a validation error and nothing is done, while the
    same request with a zero shipping cost is accepted. *)
Lemma handler_rejects_negative_shipping :
  let negative := orderpb.CreateOrderRequest.mk 1 (F32.of_int (-1)) 3 (F32.of_int 5)
                    [orderpb.OrderItemInput.mk 7 2] in
  let zero := orderpb.CreateOrderRequest.mk 1 F32.zero 3 (F32.of_int 5)
                    [orderpb.OrderItemInput.mk 7 2] in
  F32.ltb (orderpb.CreateOrderRequest.ShippingCost negative) F32.zero = true
  /\ OrderGRPCHandler.CreateOrder Scenario.D negative Scenario.world0
     = (Err ValidationErrors, Scenario.world0)
  /\ exists order,
       fst (OrderGRPCHandler.CreateOrder Scenario.D zero Scenario.world0) = Ok order
       /\ domain.Order.Total order = F32.of_int 35.
Proof.
  cbv zeta. split; [reflexivity|]. split; [reflexivity|].
  eexists. split; vm_compute; reflexivity.
Qed.

(** * Recomputing the total *)
Section Recompute.
Import domain dto store Integrity OrderUsecase.

Lemma find_order_some db id o :
  find_order db id = Some o -> Order.ID o = id /\ Order.DeletedAt o = false.
Proof.
  unfold find_order. intros H. apply find_some in H. destruct H as [_ H].
  apply andb_true_iff in H. destruct H as [H1 H2].
  apply Z.eqb_eq in H1. apply negb_true_iff in H2. auto.
Qed.

Lemma find_with_total id total l :
  find (OrderRepository.live_order id)
       (map (fun o => if OrderRepository.live_order id o
                      then OrderRepository.with_total o total else o) l)
  = option_map (fun o => OrderRepository.with_total o total)
               (find (OrderRepository.live_order id) l).
Proof.
  induction l as [|o l IH]; [reflexivity|]. cbn [map find].
  destruct (OrderRepository.live_order id o) eqn:E.
  - change (OrderRepository.live_order id (OrderRepository.with_total o total))
      with (OrderRepository.live_order id o). now rewrite E.
  - now rewrite E.
Qed.

Lemma UpdateOrderTotal_ok d id total d' o :
  OrderRepository.UpdateOrderTotal d id total = (None, d') ->
  find_order d id = Some o ->
  find_order d' id = Some (OrderRepository.with_total o total)
  /\ order_items d' = order_items d.
Proof.
  unfold OrderRepository.UpdateOrderTotal. intros H Hfind.
  pose proof (next_fault_rows d) as ((Hro & Hri) & _).
  destruct (next_fault d) as [fault d1]; cbn in Hro, Hri.
  destruct fault; [discriminate|].
  destruct (Nat.eqb _ 0); [discriminate|].
  inversion H; subst; clear H. cbn. split; [|exact Hri].
  unfold find_order in *. cbn.
  change (fun o0 : Order.t => (Order.ID o0 =? id) && negb (Order.DeletedAt o0))
    with (OrderRepository.live_order id) in *.
  rewrite find_with_total, Hro, Hfind. reflexivity.
Qed.

Lemma GetOrderByID_ok d id order d' :
  OrderRepository.GetOrderByID d id = (Ok order, d') ->
  sameRows d d'
  /\ exists o, find_order d' id = Some o
               /\ order = OrderRepository.with_items o (Order.ID o) (items_of d' id).
Proof.
  unfold OrderRepository.GetOrderByID. intros H.
  pose proof (next_fault_rows d) as (Hrows & _).
  destruct (next_fault d) as [fault d1]; cbn in Hrows.
  destruct fault; [discriminate|].
  destruct (find_order d1 id) as [o|] eqn:E; [|discriminate].
  inversion H; subst; clear H. split; [exact Hrows|]. eauto.
Qed.

Context {R : Type}.

(** After the reload and the write, the stored total is the one
    computed from the stored items. *)
Lemma recompute_total_consistent orderID (w : World R) order w' :
  recompute_total orderID w = (Ok order, w') ->
  total_consistent (db w') orderID
  /\ order_items (db w') = order_items (db w)
  /\ Order.Items order = items_of (db w') orderID
  /\ Order.Total order
     = Spec.orderTotal (Spec.persistedItemsTotal (items_of (db w') orderID))
                       (Order.ShippingCost order) (Order.Discount order).
Proof.
  unfold recompute_total. intros H.
  destruct (OrderRepository.GetOrderByID (db w) orderID) as [[o1|e] d1] eqn:Eg;
    [|discriminate].
  apply GetOrderByID_ok in Eg. destruct Eg as ((_ & Hri) & o & Hfind & ->).
  cbn in H.
  match type of H with
  | context [OrderRepository.UpdateOrderTotal ?d ?i ?t] =>
      destruct (OrderRepository.UpdateOrderTotal d i t) as [[e|] d2] eqn:Eu
  end; [discriminate|].
  inversion H; subst; clear H. cbn.
  destruct (find_order_some _ _ _ Hfind) as [Hid _].
  rewrite Hid in Eu.
  destruct (UpdateOrderTotal_ok _ _ _ _ _ Eu Hfind) as [Hfind' Hitems].
  assert (Hio : items_of d2 orderID = items_of d1 orderID)
    by (unfold items_of; now rewrite Hitems).
  repeat split.
  - exists (OrderRepository.with_total o
              (calculateOrderTotal (sumItemsTotal (items_of d1 orderID))
                 (Order.ShippingCost o) (Order.Discount o))).
    split; [exact Hfind'|]. cbn.
    rewrite Hio. unfold Spec.persistedItemsTotal.
    rewrite <- sumItemsTotal_from. reflexivity.
  - congruence.
  - now rewrite Hio.
  - rewrite Hio. unfold Spec.persistedItemsTotal.
    rewrite <- sumItemsTotal_from. reflexivity.
Qed.

Lemma filter_other_orders id (l : list OrderItem.t) :
  (forall it, In it l -> OrderItem.OrderID it <> id) ->
  filter (fun it => (OrderItem.OrderID it =? id) && negb (OrderItem.DeletedAt it)) l
  = [].
Proof.
  induction l as [|x xs IH]; intros H; [reflexivity|]. cbn.
  destruct (Z.eqb_spec (OrderItem.OrderID x) id) as [E|E].
  - exfalso. apply (H x (or_introl eq_refl) E).
  - cbn. apply IH. intros it Hin. apply H. now right.
Qed.

Lemma items_of_new db db' id rows :
  references_ok db ->
  has_order_id db id = false ->
  order_items db' = order_items db ++ rows ->
  Forall (fun r => OrderItem.OrderID r = id /\ OrderItem.DeletedAt r = false) rows ->
  items_of db' id = rows.
Proof.
  intros Href Hfresh Hi Hrows. unfold items_of. rewrite Hi, filter_app.
  assert (Hold : filter (fun it => (OrderItem.OrderID it =? id)
                                 && negb (OrderItem.DeletedAt it))
                        (order_items db) = []).
  { apply filter_other_orders. intros it Hin E.
    specialize (Href it Hin). rewrite E in Href. congruence. }
  rewrite Hold. cbn. clear Hi Hold.
  induction Hrows as [|r rows [H1 H2] _ IH]; [reflexivity|].
  cbn. rewrite H1, Z.eqb_refl, H2. cbn. now rewrite IH.
Qed.

Lemma assign_ids_rows seq id items :
  Forall (fun it => OrderItem.DeletedAt it = false) items ->
  Forall (fun r => OrderItem.OrderID r = id /\ OrderItem.DeletedAt r = false)
         (assign_ids seq id items).
Proof.
  intros H. revert seq. induction H as [|it items Hd _ IH]; intros seq; cbn;
    constructor; auto.
Qed.


End Recompute.

Section Mutations.
Import domain dto store Integrity OrderUsecase.
Context {R : Type} (D : Downstream R).

Lemma map_line_of_assign_ids seq id items :
  map line_of (assign_ids seq id items) = map line_of items.
Proof.
  revert seq. induction items as [|it items IH]; intros seq; cbn; [reflexivity|].
  now rewrite IH.
Qed.




End Mutations.




(** C9: when no live item row has both the item id and the order id,
    [RemoveOrderItem] issues the one delete statement and nothing else,
    returns [ErrOrderItemNotFound] (the driver's error if the statement
    itself fails), and leaves every order row and item row as it was. *)
Theorem RemoveOrderItem_not_found
    {R : Type} (orderID itemID : Z) (w : World R) :
  (forall it, In it (store.order_items (db w)) ->
              ~ (domain.OrderItem.ID it = itemID
                 /\ domain.OrderItem.OrderID it = orderID
                 /\ domain.OrderItem.DeletedAt it = false)) ->
  OrderUsecase.RemoveOrderItem orderID itemID w
  = (Err (if fst (store.next_fault (db w)) then DriverError
          else ErrOrderItemNotFound),
     with_db w (snd (store.next_fault (db w))))
  /\ Integrity.sameRows (db w)
       (db (snd (OrderUsecase.RemoveOrderItem orderID itemID w)))
  /\ store.faults (db (snd (OrderUsecase.RemoveOrderItem orderID itemID w)))
     = tl (store.faults (db w)).
Proof.
  intros Hnone.
  assert (E : OrderUsecase.RemoveOrderItem orderID itemID w
              = (Err (if fst (store.next_fault (db w)) then DriverError
                      else ErrOrderItemNotFound),
                 with_db w (snd (store.next_fault (db w))))).
  { unfold OrderUsecase.RemoveOrderItem, OrderRepository.RemoveOrderItem.
    pose proof (next_fault_rows (db w)) as ((_ & Hri) & _).
    destruct (store.next_fault (db w)) as [fault d1]; cbn in *.
    destruct fault; [reflexivity|].
    assert (Hf : filter (OrderRepository.matches orderID itemID)
                        (store.order_items d1) = []).
    { rewrite Hri. clear Hri.
      induction (store.order_items (db w)) as [|x xs IH]; [reflexivity|].
      cbn. destruct (OrderRepository.matches orderID itemID x) eqn:Em.
      - exfalso. apply (Hnone x (or_introl eq_refl)).
        unfold OrderRepository.matches in Em.
        apply andb_true_iff in Em. destruct Em as [Em Hd].
        apply andb_true_iff in Em. destruct Em as [Hi Ho].
        apply Z.eqb_eq in Hi, Ho. apply negb_true_iff in Hd. auto.
      - apply IH. intros it Hin. apply Hnone. now right. }
    rewrite Hf. reflexivity. }
  rewrite E. cbn. split; [reflexivity|].
  split; [apply next_fault_rows|].
  unfold store.next_fault.
  destruct (store.faults (db w)) eqn:Ef; cbn; [exact Ef|reflexivity].
Qed.

Lemma RemoveOrderItem_not_found_witness :
  let w1 := snd (OrderUsecase.CreateOrder Scenario.D
                   (dto.CreateOrderRequest.mk 1 (F32.of_int 10) 3 (F32.of_int 5)
                      [dto.OrderItemInput.mk 7 2])
                   Scenario.world0) in
  let w2 := snd (OrderUsecase.CreateOrder Scenario.D
                   (dto.CreateOrderRequest.mk 1 F32.zero 1 F32.zero
                      [dto.OrderItemInput.mk 8 3])
                   w1) in
  (* item 3 exists but belongs to order 2 *)
  existsb (fun it => (domain.OrderItem.ID it =? 3)
                     && (domain.OrderItem.OrderID it =? 2))
          (store.order_items (db w2)) = true
  /\ fst (OrderUsecase.RemoveOrderItem 1 3 w2) = Err ErrOrderItemNotFound
  /\ db (snd (OrderUsecase.RemoveOrderItem 1 3 w2)) = db w2.
Proof.
  cbv zeta. split; [vm_compute; reflexivity|].
  match goal with
  | |- fst (OrderUsecase.RemoveOrderItem 1 3 ?w) = _ /\ _ =>
      destruct (RemoveOrderItem_not_found 1 3 w) as (E & _ & _)
  end.
  - intros it Hin (Hi & Ho & _). vm_compute in Hin.
    repeat (destruct Hin as [<-|Hin];
            [first [discriminate Hi|discriminate Ho]|]).
    destruct Hin.
  - rewrite E. split; vm_compute; reflexivity.
Defined.

(** * The validators *)
Section Validators.
Import gobreaker grpcmiddleware OrderUsecase.
Context {R : Type} (D : Downstream R).

Lemma beforeRequest_cases cb now :
  let '(g, err, cb1) := beforeRequest cb now in
  isSuccessful cb1 = isSuccessful cb
  /\ (err = None \/ err = Some ErrOpenState \/ err = Some ErrTooManyRequests)
  /\ (TotalFailures (counts cb1) = TotalFailures (counts cb)
      \/ TotalFailures (counts cb1) = 0)
  /\ (state cb = StateClosed -> state cb1 = StateClosed).
Proof.
  unfold beforeRequest.
  assert (Hs : isSuccessful (currentState cb now) = isSuccessful cb).
  { unfold currentState, setState. destruct (state cb); cbn;
      repeat match goal with |- context [if ?b then _ else _] => destruct b end;
      reflexivity. }
  assert (Hc : state cb = StateClosed -> state (currentState cb now) = StateClosed).
  { intros E. unfold currentState. rewrite E.
    destruct (negb (expiry cb =? 0) && (expiry cb <? now)); cbn; now rewrite ?E. }
  pose proof (currentState_TotalFailures cb now) as Htf.
  destruct (state (currentState cb now)) eqn:E; cbn.
  - repeat split; auto; try (intros H; specialize (Hc H); cbn; congruence).
  - destruct (maxRequests (currentState cb now)
              <=? Requests (counts (currentState cb now))); cbn; repeat split; auto;
      try (intros H; specialize (Hc H); cbn; congruence).
  - repeat split; auto; try (intros H; specialize (Hc H); cbn; congruence).
Qed.

Lemma outcomeOf_wrap msg cause :
  outcomeOf (WrapError msg cause) = outcomeOf cause.
Proof. reflexivity. Qed.

(** An error of [ensureUserExists] is the wrapped error of the breaker,
    with the remote service left alone, or the wrapped error of the one
    remote call made. *)
Lemma ensureUserExists_error userID (w : World R) err w' :
  ensureUserExists D userID w = (Some err, w') ->
  exists cause,
    err = WrapError "user not found: " cause
    /\ Unwrap err = Some cause
    /\ outcomeOf err = outcomeOf cause
    /\ ((remote w' = remote w
         /\ (cause = ErrOpenState \/ cause = ErrTooManyRequests)
         /\ outcomeOf err = BreakerRejected)
        \/ UserService_GetUserByID D (int32 userID) (remote w)
           = (Some cause, remote w')).
Proof.
  unfold ensureUserExists, userClient_GetUserByID, intercept, Execute.
  destruct (userConn w) as [cb|].
  - pose proof (beforeRequest_cases cb (clock D (remote w))) as Hb.
    destruct (beforeRequest cb (clock D (remote w))) as [[g e0] cb1].
    destruct Hb as (_ & He & _).
    destruct e0 as [e0|].
    + intros H; inversion H; subst; clear H. exists e0.
      repeat split. left. cbn.
      destruct He as [He|[He|He]]; inversion He; subst; auto.
    + destruct (UserService_GetUserByID D (int32 userID) (remote w))
        as [[e|] r'] eqn:Er; cbn; intros H; inversion H; subst; clear H.
      exists e. repeat split. right. reflexivity.
  - destruct (UserService_GetUserByID D (int32 userID) (remote w))
      as [[e|] r'] eqn:Er; cbn; intros H; inversion H; subst; clear H.
    exists e. repeat split. right. reflexivity.
Qed.

Lemma ensureProductExists_error productID (w : World R) err w' :
  ensureProductExists D productID w = (Err err, w') ->
  (err = ErrorString "product not found: empty response"
   /\ ProductService_GetProductByID D (int64 productID) (remote w)
      = ((None, None), remote w'))
  \/ exists cause,
       err = WrapError "product not found: " cause
       /\ Unwrap err = Some cause
       /\ outcomeOf err = outcomeOf cause
       /\ ((remote w' = remote w
            /\ (cause = ErrOpenState \/ cause = ErrTooManyRequests)
            /\ outcomeOf err = BreakerRejected)
           \/ exists reply,
                ProductService_GetProductByID D (int64 productID) (remote w)
                = ((reply, Some cause), remote w')).
Proof.
  unfold ensureProductExists, productClient_GetProductByID, intercept, Execute.
  destruct (productConn w) as [cb|].
  - pose proof (beforeRequest_cases cb (clock D (remote w))) as Hb.
    destruct (beforeRequest cb (clock D (remote w))) as [[g e0] cb1].
    destruct Hb as (_ & He & _).
    destruct e0 as [e0|].
    + intros H; inversion H; subst; clear H. right. exists e0.
      repeat split. left. cbn.
      destruct He as [He|[He|He]]; inversion He; subst; auto.
    + destruct (ProductService_GetProductByID D (int64 productID) (remote w))
        as [[reply [e|]] r'] eqn:Er; cbn.
      * intros H; inversion H; subst; clear H. right. exists e.
        repeat split. right. eauto.
      * destruct reply as [p|]; intros H; inversion H; subst; clear H.
        left. auto.
  - destruct (ProductService_GetProductByID D (int64 productID) (remote w))
      as [[reply [e|]] r'] eqn:Er; cbn.
    + intros H; inversion H; subst; clear H. right. exists e.
      repeat split. right. eauto.
    + destruct reply as [p|]; intros H; inversion H; subst; clear H.
      left. auto.
Qed.
End Validators.

(** C8, as amended: [ensureUserExists] and [ensureProductExists] make
    one attempt and do not retry; a breaker rejection and a remote
    failure (including "not found") reach the caller wrapped by
    [fmt.Errorf] under the prefix "user not found: " or
    "product not found: ", with the original error as the wrapped cause;
    the cause is what [errors.Unwrap] returns, and [errors.Is] against
    the breaker's sentinels tells a rejection from a remote failure
    exactly as it does on the cause. *)
Theorem validators_wrap_and_do_not_retry {R : Type} (D : Downstream R) :
  (forall userID (w : World R) err w',
      OrderUsecase.ensureUserExists D userID w = (Some err, w') ->
      exists cause,
        err = WrapError "user not found: " cause
        /\ Unwrap err = Some cause
        /\ outcomeOf err = outcomeOf cause
        /\ ((remote w' = remote w
             /\ (cause = ErrOpenState \/ cause = ErrTooManyRequests)
             /\ outcomeOf err = BreakerRejected)
            \/ UserService_GetUserByID D (int32 userID) (remote w)
               = (Some cause, remote w')))
  /\ (forall productID (w : World R) err w',
         OrderUsecase.ensureProductExists D productID w = (Err err, w') ->
         (err = ErrorString "product not found: empty response"
          /\ ProductService_GetProductByID D (int64 productID) (remote w)
             = ((None, None), remote w'))
         \/ exists cause,
              err = WrapError "product not found: " cause
              /\ Unwrap err = Some cause
              /\ outcomeOf err = outcomeOf cause
              /\ ((remote w' = remote w
                   /\ (cause = ErrOpenState \/ cause = ErrTooManyRequests)
                   /\ outcomeOf err = BreakerRejected)
                  \/ exists reply,
                       ProductService_GetProductByID D (int64 productID) (remote w)
                       = ((reply, Some cause), remote w')))
  /\ (forall c msg, outcomeOf (StatusError c msg) = RemoteFailure).
Proof.
  split; [intros; eapply ensureUserExists_error; eauto|].
  split; [intros; eapply ensureProductExists_error; eauto|].
  reflexivity.
Qed.

Lemma validators_wrap_and_do_not_retry_witness :
  exists cause,
    fst (OrderUsecase.ensureUserExists Scenario.D 2 Scenario.world0)
    = Some (WrapError "user not found: " cause)
    /\ outcomeOf (WrapError "user not found: " cause) = RemoteFailure
    /\ Scenario.invocations
         (remote (snd (OrderUsecase.ensureUserExists Scenario.D 2 Scenario.world0)))
       = 1%nat.
Proof.
  pose proof (validators_wrap_and_do_not_retry Scenario.D) as (Hu & _ & Hst).
  destruct (Hu 2 Scenario.world0
              (WrapError "user not found: " (StatusError NotFound "user not found"))
              (snd (OrderUsecase.ensureUserExists Scenario.D 2 Scenario.world0)))
    as (cause & E & _ & Ho & _).
  - apply pair_eta; vm_compute; reflexivity.
  - exists cause. split; [rewrite <- E; vm_compute; reflexivity|].
    split; [|vm_compute; reflexivity].
    rewrite <- E. apply (Hst NotFound "user not found"%string).
Defined.

(** C8, as stated, fails: the validators do not surface the errors
    unchanged.  With the user breaker open the caller gets
    "user not found: " wrapped around [ErrOpenState], the remote service
    not having been invoked; for an unknown user it gets the same prefix
    wrapped around the service's NotFound status. *)
Lemma validator_errors_are_wrapped :
  let w1 := snd (OrderUsecase.ensureUserExists Scenario.D 1 Scenario.worldDown) in
  let w2 := snd (OrderUsecase.ensureUserExists Scenario.D 1 w1) in
  let opened := snd (OrderUsecase.ensureUserExists Scenario.D 1 w2) in
  let rejected := OrderUsecase.ensureUserExists Scenario.D 1 opened in
  let unknown := OrderUsecase.ensureUserExists Scenario.D 2 Scenario.world0 in
  fst rejected = Some (WrapError "user not found: " ErrOpenState)
  /\ fst rejected <> Some ErrOpenState
  /\ remote (snd rejected) = remote opened
  /\ fst (Scenario.GetUserByID (int32 2) (remote Scenario.world0))
     = Some (StatusError NotFound "user not found")
  /\ fst unknown
     = Some (WrapError "user not found: " (StatusError NotFound "user not found"))
  /\ fst unknown <> fst (Scenario.GetUserByID (int32 2) (remote Scenario.world0)).
Proof.
  cbv zeta. vm_compute. repeat split; discriminate.
Qed.

(** * A reply without a product *)
Section EmptyReply.
Import gobreaker grpcmiddleware OrderUsecase.
Context {R : Type} (D : Downstream R).

Lemma ensureProductExists_empty productID (w : World R) r' :
  admits (productConn w) (clock D (remote w)) ->
  ProductService_GetProductByID D (int64 productID) (remote w)
  = ((None, None), r') ->
  exists w',
    ensureProductExists D productID w = (Err emptyResponse, w')
    /\ db w' = db w
    /\ remote w' = r'
    /\ (forall cb,
           productConn w = Some cb ->
           isSuccessful cb = IsSuccessful ->
           exists cb',
             productConn w' = Some cb'
             /\ (TotalFailures (counts cb') = TotalFailures (counts cb)
                 \/ TotalFailures (counts cb') = 0)
             /\ (state cb = StateClosed -> state cb' = StateClosed)).
Proof.
  intros Hadm Hreply.
  unfold ensureProductExists, productClient_GetProductByID, intercept, Execute.
  destruct (productConn w) as [cb|] eqn:Ec.
  - cbn in Hadm.
    pose proof (beforeRequest_cases cb (clock D (remote w))) as Hb.
    destruct (beforeRequest cb (clock D (remote w))) as [[g e0] cb1].
    cbn in Hadm. subst e0. destruct Hb as (Hs & _ & Htf & Hcl).
    rewrite Hreply. cbn.
    eexists. split; [reflexivity|]. cbn. repeat split.
    intros cb0 E Hi. inversion E; subst cb0; clear E.
    eexists. split; [reflexivity|].
    rewrite Hs, Hi. change (IsSuccessful None) with true.
    split.
    + destruct (afterRequest_success_TotalFailures cb1 g (clock D r')) as [H|H];
        [rewrite H; exact Htf|now right].
    + intros Hc. apply closed_success_stays_closed. now apply Hcl.
  - rewrite Hreply. cbn.
    eexists. split; [reflexivity|]. cbn. repeat split.
    intros cb0 E. discriminate E.
Qed.

Lemma AddOrderItem_aborts req (w : World R) e w1 :
  ensureProductExists D (dto.AddOrderItemRequest.ProductID req) w = (Err e, w1) ->
  AddOrderItem D req w = (Err e, w1) /\ db w1 = db w.
Proof.
  intros H. unfold AddOrderItem. rewrite H. split; [reflexivity|].
  pose proof (ensureProductExists_db D (dto.AddOrderItemRequest.ProductID req) w)
    as Hdb.
  now rewrite H in Hdb.
Qed.

Lemma CreateOrder_aborts_on_item req (w w1 w2 w3 : World R) pre line post
      products e :
  ensureUserExists D (dto.CreateOrderRequest.UserID req) w = (None, w1) ->
  dto.CreateOrderRequest.Items req = pre ++ line :: post ->
  ensureProductsExist D (map dto.OrderItemInput.ProductID pre) w1
  = (Ok products, w2) ->
  ensureProductExists D (dto.OrderItemInput.ProductID line) w2 = (Err e, w3) ->
  CreateOrder D req w = (Err e, w3) /\ db w3 = db w.
Proof.
  intros Hu Hsplit Hpre Hline.
  assert (Hp : ensureProductsExist D
                 (map dto.OrderItemInput.ProductID (dto.CreateOrderRequest.Items req))
                 w1 = (Err e, w3)).
  { rewrite Hsplit, map_app. cbn [map].
    eapply ensureProductsExist_first_failure; eauto. }
  pose proof (ensureUserExists_db D (dto.CreateOrderRequest.UserID req) w) as Hdb1.
  rewrite Hu in Hdb1; cbn in Hdb1.
  pose proof (ensureProductsExist_db D
                (map dto.OrderItemInput.ProductID (dto.CreateOrderRequest.Items req))
                w1) as Hdb2.
  rewrite Hp in Hdb2; cbn in Hdb2.
  pose proof (CreateOrder_items_spec D (dto.CreateOrderRequest.Items req) []
                F32.zero w1) as Hloop.
  rewrite Hp in Hloop.
  unfold CreateOrder. rewrite Hu, Hloop. split; congruence.
Qed.
End EmptyReply.

(** C10: when the product service replies without error but without a
    product, [ensureProductExists] fails with
    "product not found: empty response"; [AddOrderItem] and [CreateOrder]
    return that error with the store as it was; and the breaker counts
    the call as a success: its failure counter is not incremented and a
    closed breaker stays closed. *)
Theorem empty_product_reply_aborts {R : Type} (D : Downstream R) :
  (forall productID (w : World R) r',
      admits (productConn w) (clock D (remote w)) ->
      ProductService_GetProductByID D (int64 productID) (remote w)
      = ((None, None), r') ->
      exists w',
        OrderUsecase.ensureProductExists D productID w = (Err emptyResponse, w')
        /\ db w' = db w
        /\ remote w' = r'
        /\ (forall cb,
               productConn w = Some cb ->
               gobreaker.isSuccessful cb = grpcmiddleware.IsSuccessful ->
               exists cb',
                 productConn w' = Some cb'
                 /\ (gobreaker.TotalFailures (gobreaker.counts cb')
                     = gobreaker.TotalFailures (gobreaker.counts cb)
                     \/ gobreaker.TotalFailures (gobreaker.counts cb') = 0)
                 /\ (gobreaker.state cb = gobreaker.StateClosed ->
                     gobreaker.state cb' = gobreaker.StateClosed)))
  /\ (forall req (w : World R) r',
         admits (productConn w) (clock D (remote w)) ->
         ProductService_GetProductByID D
           (int64 (dto.AddOrderItemRequest.ProductID req)) (remote w)
         = ((None, None), r') ->
         exists w',
           OrderUsecase.AddOrderItem D req w = (Err emptyResponse, w')
           /\ db w' = db w)
  /\ (forall req (w w1 w2 : World R) pre line post products r',
         OrderUsecase.ensureUserExists D (dto.CreateOrderRequest.UserID req) w
         = (None, w1) ->
         dto.CreateOrderRequest.Items req = pre ++ line :: post ->
         ensureProductsExist D (map dto.OrderItemInput.ProductID pre) w1
         = (Ok products, w2) ->
         admits (productConn w2) (clock D (remote w2)) ->
         ProductService_GetProductByID D
           (int64 (dto.OrderItemInput.ProductID line)) (remote w2)
         = ((None, None), r') ->
         exists w3,
           OrderUsecase.CreateOrder D req w = (Err emptyResponse, w3)
           /\ db w3 = db w)
  /\ grpcmiddleware.IsSuccessful None = true.
Proof.
  split; [intros; now apply ensureProductExists_empty|].
  split.
  { intros req w r' Hadm Hreply.
    destruct (ensureProductExists_empty D _ w r' Hadm Hreply) as (w' & E & _).
    exists w'. now apply AddOrderItem_aborts. }
  split; [|reflexivity].
  intros req w w1 w2 pre line post products r' Hu Hsplit Hpre Hadm Hreply.
  destruct (ensureProductExists_empty D _ w2 r' Hadm Hreply) as (w3 & E & _).
  exists w3. eapply CreateOrder_aborts_on_item; eauto.
Qed.

Lemma empty_product_reply_aborts_witness :
  let req := dto.CreateOrderRequest.mk 1 (F32.of_int 10) 3 (F32.of_int 5)
               [dto.OrderItemInput.mk 7 2; dto.OrderItemInput.mk 9 1] in
  (exists w3,
      OrderUsecase.CreateOrder Scenario.D req Scenario.world0
      = (Err emptyResponse, w3)
      /\ db w3 = db Scenario.world0)
  /\ exists w',
       OrderUsecase.AddOrderItem Scenario.D (dto.AddOrderItemRequest.mk 1 9 1)
                                 Scenario.world0
       = (Err emptyResponse, w')
       /\ db w' = db Scenario.world0.
Proof.
  cbv zeta.
  pose proof (empty_product_reply_aborts Scenario.D) as (_ & Hadd & Hcreate & _).
  split.
  - eapply (Hcreate _ Scenario.world0
              (snd (OrderUsecase.ensureUserExists Scenario.D 1 Scenario.world0))
              (snd (ensureProductsExist Scenario.D [7]
                      (snd (OrderUsecase.ensureUserExists Scenario.D 1
                              Scenario.world0))))
              [dto.OrderItemInput.mk 7 2] (dto.OrderItemInput.mk 9 1) []
              [productpb.mkProduct (F32.of_int 20)]).
    + apply pair_eta; vm_compute; reflexivity.
    + reflexivity.
    + apply pair_eta; vm_compute; reflexivity.
    + vm_compute; reflexivity.
    + apply pair_eta; vm_compute; reflexivity.
  - eapply Hadd.
    + vm_compute; reflexivity.
    + apply pair_eta; vm_compute; reflexivity.
Defined.


(** * What the store keeps *)
Section Growth.
Import domain store Integrity.

Lemma extends_refl {A} (kept : A -> A -> Prop) l :
  (forall x, kept x x) -> extends kept l l.
Proof. intros H. induction l; constructor; auto. Qed.

Lemma extends_trans {A} (kept : A -> A -> Prop) l1 l2 l3 :
  (forall x y z, kept x y -> kept y z -> kept x z) ->
  extends kept l1 l2 -> extends kept l2 l3 -> extends kept l1 l3.
Proof.
  intros Ht H12. revert l3. induction H12; intros l3 H23; [constructor|].
  inversion H23; subst. constructor; eauto.
Qed.

Lemma extends_app {A} (kept : A -> A -> Prop) l l' new :
  extends kept l l' -> extends kept l (l' ++ new).
Proof. induction 1; cbn; constructor; auto. Qed.

Lemma extends_map {A} (kept : A -> A -> Prop) f l :
  (forall x, kept x (f x)) -> extends kept l (map f l).
Proof. intros H. induction l; cbn; constructor; auto. Qed.

Lemma extends_length {A} (kept : A -> A -> Prop) l l' :
  extends kept l l' -> (List.length l <= List.length l')%nat.
Proof. induction 1; cbn; lia. Qed.

Lemma extends_In {A} (kept : A -> A -> Prop) l l' x :
  extends kept l l' -> In x l -> exists y, In y l' /\ kept x y.
Proof.
  induction 1; intros Hin; [destruct Hin|].
  destruct Hin as [<-|Hin]; [eexists; split; [left; reflexivity|assumption]|].
  destruct (IHextends Hin) as (z & Hz & Hk). exists z. split; [now right|assumption].
Qed.

Lemma order_kept_refl o : order_kept o o.
Proof. split; reflexivity. Qed.

Lemma order_kept_trans a b c : order_kept a b -> order_kept b c -> order_kept a c.
Proof. unfold order_kept. intros [] []. split; congruence. Qed.

Lemma item_kept_refl it : item_kept it it.
Proof. split; auto. Qed.

Lemma item_kept_trans a b c : item_kept a b -> item_kept b c -> item_kept a c.
Proof. unfold item_kept. intros [] []. split; [congruence|auto]. Qed.

Lemma grows_refl db : grows db db.
Proof.
  repeat split; try lia.
  - apply extends_refl, order_kept_refl.
  - apply extends_refl, item_kept_refl.
Qed.

Lemma grows_trans a b c : grows a b -> grows b c -> grows a c.
Proof.
  intros (Ho & Hi & Hs & Ht) (Ho' & Hi' & Hs' & Ht'). repeat split; try lia.
  - eapply extends_trans; eauto using order_kept_trans.
  - eapply extends_trans; eauto using item_kept_trans.
Qed.

(** Same rows and same sequences. *)
Lemma grows_same db db' :
  orders db' = orders db -> order_items db' = order_items db ->
  orders_id_seq db <= orders_id_seq db' ->
  order_items_id_seq db <= order_items_id_seq db' ->
  grows db db'.
Proof.
  intros Ho Hi Hs Ht. repeat split; auto.
  - rewrite Ho. apply extends_refl, order_kept_refl.
  - rewrite Hi. apply extends_refl, item_kept_refl.
Qed.

Lemma well_formed_same db db' :
  orders db' = orders db -> order_items db' = order_items db ->
  orders_id_seq db <= orders_id_seq db' ->
  order_items_id_seq db <= order_items_id_seq db' ->
  well_formed db -> well_formed db'.
Proof.
  intros Ho Hi Hs Ht (H1 & H2 & H3 & H4 & H5 & H6 & H7).
  unfold well_formed, references_ok, has_order_id. rewrite Ho, Hi.
  repeat split; auto; try lia.
  - apply H1; auto.
  - specialize (H1 _ H). lia.
  - apply H2; auto.
  - specialize (H2 _ H). lia.
Qed.

Lemma next_fault_grows db : grows db (snd (next_fault db)).
Proof.
  destruct (next_fault_rows db) as ((Ho & Hi) & Hs & Ht & _).
  apply grows_same; auto; lia.
Qed.

Lemma next_fault_well_formed db :
  well_formed db -> well_formed (snd (next_fault db)).
Proof.
  destruct (next_fault_rows db) as ((Ho & Hi) & Hs & Ht & _).
  apply well_formed_same; auto; lia.
Qed.

Lemma has_order_id_app db rows id :
  existsb (fun o => Order.ID o =? id) (orders db) = true ->
  existsb (fun o => Order.ID o =? id) (orders db ++ rows) = true.
Proof. intros H. rewrite existsb_app, H. reflexivity. Qed.

Lemma not_in_ids_orders (l : list Order.t) id :
  existsb (fun o => Order.ID o =? id) l = false -> ~ In id (map Order.ID l).
Proof.
  intros H Hin. apply in_map_iff in Hin. destruct Hin as (o & Ho & Hin).
  assert (existsb (fun o => Order.ID o =? id) l = true).
  { apply existsb_exists. exists o. split; [assumption|]. now apply Z.eqb_eq. }
  congruence.
Qed.

Lemma not_in_ids_items (l : list OrderItem.t) id :
  existsb (fun it => OrderItem.ID it =? id) l = false ->
  ~ In id (map OrderItem.ID l).
Proof.
  intros H Hin. apply in_map_iff in Hin. destruct Hin as (o & Ho & Hin).
  assert (existsb (fun it => OrderItem.ID it =? id) l = true).
  { apply existsb_exists. exists o. split; [assumption|]. now apply Z.eqb_eq. }
  congruence.
Qed.

Lemma NoDup_snoc {A} (l : list A) x : NoDup l -> ~ In x l -> NoDup (l ++ [x]).
Proof.
  intros Hl Hx. induction Hl as [|y l Hy Hl IH]; cbn.
  - constructor; [intros []|constructor].
  - constructor.
    + intros Hin. apply in_app_or in Hin. destruct Hin as [Hin|[->|[]]]; auto.
      apply Hx. now left.
    + apply IH. intros Hin. apply Hx. now right.
Qed.

Lemma NoDup_append {A} (l l' : list A) :
  NoDup l -> NoDup l' -> (forall x, In x l -> ~ In x l') -> NoDup (l ++ l').
Proof.
  intros Hl Hl' Hd. induction Hl as [|y l Hy Hl IH]; cbn; [assumption|].
  constructor.
  - intros Hin. apply in_app_or in Hin. destruct Hin as [Hin|Hin]; auto.
    apply (Hd y); [now left|assumption].
  - apply IH. intros x Hx. apply Hd. now right.
Qed.

(** ** The statements of the engine *)

Ltac old_row H1 H2 :=
  match goal with
  | H : In _ _ |- _ =>
      first [pose proof (H1 _ H) | pose proof (H2 _ H)]; cbn in *; lia
  end.

Ltac new_row H1 H2 :=
  match goal with
  | H : In _ (_ ++ _) |- _ =>
      apply in_app_or in H; destruct H as [H|[<-|[]]];
      [first [pose proof (H1 _ H) | pose proof (H2 _ H)]; cbn in *; lia
      |cbn; lia]
  end.

Lemma insert_order_grows db o : grows db (snd (insert_order db o)).
Proof.
  unfold insert_order.
  pose proof (next_fault_grows db) as Hg.
  destruct (next_fault db) as [fault d0]; cbn in Hg.
  destruct fault; [exact Hg|].
  eapply grows_trans; [exact Hg|].
  destruct (Order.ID o =? 0); cbn;
    match goal with |- context [if ?b then _ else _] => destruct b end; cbn;
    repeat split; cbn; try lia;
    try (apply extends_refl; auto using order_kept_refl, item_kept_refl);
    apply extends_app, extends_refl, order_kept_refl.
Qed.

Lemma insert_order_well_formed db o :
  Order.ID o = 0 -> well_formed db -> well_formed (snd (insert_order db o)).
Proof.
  intros H0 Hw. unfold insert_order.
  pose proof (next_fault_well_formed db Hw) as Hw0.
  destruct (next_fault db) as [fault d0]; cbn in Hw0.
  destruct fault; [exact Hw0|]. clear Hw.
  rewrite H0. cbn.
  destruct Hw0 as (H1 & H2 & H3 & H4 & H5 & H6 & H7).
  match goal with |- context [if ?b then _ else _] => destruct b eqn:Ehas end;
    cbn.
  - unfold well_formed, references_ok, has_order_id; cbn.
    repeat split; auto; try lia; old_row H1 H2.
  - try (unfold has_order_id in Ehas); cbn in Ehas.
    unfold well_formed, references_ok, has_order_id; cbn.
    repeat split; auto; try lia; try new_row H1 H2; try old_row H1 H2.
    + rewrite map_app. cbn. apply NoDup_snoc; [assumption|].
      now apply not_in_ids_orders.
    + intros it Hin. apply has_order_id_app. now apply H7.
Qed.

Lemma insert_item_grows db it : grows db (snd (insert_item db it)).
Proof.
  unfold insert_item.
  pose proof (next_fault_grows db) as Hg.
  destruct (next_fault db) as [fault d0]; cbn in Hg.
  destruct fault; [exact Hg|].
  eapply grows_trans; [exact Hg|].
  match goal with |- context [if ?b then _ else _] => destruct b end; cbn;
    repeat split; cbn; try lia;
    try (apply extends_refl; auto using order_kept_refl, item_kept_refl);
    apply extends_app, extends_refl, item_kept_refl.
Qed.

Lemma insert_item_well_formed db it :
  well_formed db -> well_formed (snd (insert_item db it)).
Proof.
  intros Hw. unfold insert_item.
  pose proof (next_fault_well_formed db Hw) as Hw0.
  destruct (next_fault db) as [fault d0]; cbn in Hw0.
  destruct fault; [exact Hw0|]. clear Hw.
  destruct Hw0 as (H1 & H2 & H3 & H4 & H5 & H6 & H7).
  match goal with |- context [if ?b then _ else _] => destruct b eqn:E end; cbn.
  - unfold well_formed, references_ok, has_order_id; cbn.
    repeat split; auto; try lia; old_row H1 H2.
  - apply orb_false_iff in E. destruct E as [Ei Eo].
    apply negb_false_iff in Eo.
    try (unfold has_item_id in Ei); cbn in Ei.
    try (unfold has_order_id in Eo); cbn in Eo.
    unfold well_formed, references_ok, has_order_id; cbn.
    repeat split; auto; try lia; try new_row H1 H2; try old_row H1 H2.
    + rewrite map_app. cbn. apply NoDup_snoc; [assumption|].
      now apply not_in_ids_items.
    + intros i Hin. apply in_app_or in Hin. destruct Hin as [Hin|[<-|[]]].
      * now apply H7.
      * exact Eo.
Qed.

Lemma assign_ids_NoDup s oid items :
  NoDup (map OrderItem.ID (assign_ids s oid items)).
Proof.
  revert s. induction items as [|it items IH]; intros s; cbn; constructor.
  - intros Hin. apply in_map_iff in Hin. destruct Hin as (r & Hr & Hin).
    apply assign_ids_range in Hin. lia.
  - apply IH.
Qed.

Lemma assign_ids_order seq oid items r :
  In r (assign_ids seq oid items) -> OrderItem.OrderID r = oid.
Proof.
  revert seq. induction items as [|it items IH]; intros s Hin; [destruct Hin|].
  destruct Hin as [<-|Hin]; [reflexivity|eauto].
Qed.

Lemma insert_items_grows db oid items :
  grows db (snd (insert_items db oid items)).
Proof.
  unfold insert_items.
  pose proof (next_fault_grows db) as Hg.
  destruct (next_fault db) as [fault d0]; cbn in Hg.
  destruct fault; [exact Hg|].
  eapply grows_trans; [exact Hg|].
  match goal with |- context [if ?b then _ else _] => destruct b end; cbn;
    repeat split; cbn; try lia;
    try (apply extends_refl; auto using order_kept_refl, item_kept_refl);
    apply extends_app, extends_refl, item_kept_refl.
Qed.

Lemma insert_items_well_formed db oid items :
  well_formed db -> well_formed (snd (insert_items db oid items)).
Proof.
  intros Hw. unfold insert_items.
  pose proof (next_fault_well_formed db Hw) as Hw0.
  destruct (next_fault db) as [fault d0]; cbn in Hw0.
  destruct fault; [exact Hw0|]. clear Hw.
  destruct Hw0 as (H1 & H2 & H3 & H4 & H5 & H6 & H7).
  match goal with |- context [if ?b then _ else _] => destruct b eqn:E end; cbn.
  - unfold well_formed, references_ok, has_order_id; cbn.
    repeat split; auto; try lia; old_row H1 H2.
  - apply orb_false_iff in E. destruct E as [Ei Eo].
    apply negb_false_iff in Eo. try (unfold has_order_id in Eo); cbn in Eo.
    unfold well_formed, references_ok, has_order_id; cbn.
    repeat split; auto; try lia;
      try (match goal with
           | H : In _ (_ ++ _) |- _ =>
               apply in_app_or in H; destruct H as [H|H];
               [pose proof (H2 _ H); lia|apply assign_ids_range in H; lia]
           end);
      try old_row H1 H2.
    + rewrite map_app. apply NoDup_append; [assumption|apply assign_ids_NoDup|].
      intros x Hx Hx'. apply in_map_iff in Hx. destruct Hx as (i & <- & Hi).
      apply in_map_iff in Hx'. destruct Hx' as (r & Hr & Hin).
      apply assign_ids_range in Hin. specialize (H2 _ Hi). lia.
    + intros i Hin. apply in_app_or in Hin. destruct Hin as [Hin|Hin].
      * now apply H7.
      * apply assign_ids_order in Hin. now rewrite Hin.
Qed.

(** ** The repository *)

Lemma keeps_refl db : keeps db db.
Proof. split; [apply grows_refl|auto]. Qed.

Lemma keeps_trans a b c : keeps a b -> keeps b c -> keeps a c.
Proof. intros [] []. split; [eapply grows_trans; eauto|auto]. Qed.

Lemma next_fault_keeps db : keeps db (snd (next_fault db)).
Proof. split; [apply next_fault_grows|apply next_fault_well_formed]. Qed.

Lemma create_items_keeps todo : forall tx oid done,
  keeps tx (snd (OrderRepository.create_items tx oid done todo)).
Proof.
  induction todo as [|it todo IH]; intros tx oid done; [apply keeps_refl|].
  cbn [OrderRepository.create_items].
  pose proof (insert_item_grows tx (with_order_id (with_item_id it 0) oid)) as Hg.
  pose proof (insert_item_well_formed tx (with_order_id (with_item_id it 0) oid))
    as Hw.
  destruct (insert_item tx _) as [[id|e] tx1]; cbn in Hg, Hw.
  - eapply keeps_trans; [split; eassumption|apply IH].
  - split; assumption.
Qed.

Lemma Create_grows db o : grows db (snd (OrderRepository.Create db o)).
Proof.
  unfold OrderRepository.Create.
  pose proof (insert_order_grows db o) as Hg.
  destruct (insert_order db o) as [[id|e] tx]; cbn in Hg; [|exact Hg].
  destruct (Order.Items o) as [|it items]; [exact Hg|].
  destruct (save_associations tx); [|exact Hg].
  pose proof (insert_items_grows tx id (it :: items)) as Hg'.
  destruct (insert_items tx id (it :: items)) as [[rows|e] tx1]; cbn in Hg';
    eapply grows_trans; eauto.
Qed.

Lemma Create_well_formed db o :
  Order.ID o = 0 -> well_formed db ->
  well_formed (snd (OrderRepository.Create db o)).
Proof.
  intros H0 Hw. unfold OrderRepository.Create.
  pose proof (insert_order_well_formed db o H0 Hw) as Hw1.
  destruct (insert_order db o) as [[id|e] tx]; cbn in Hw1; [|exact Hw1].
  destruct (Order.Items o) as [|it items]; [exact Hw1|].
  destruct (save_associations tx); [|exact Hw1].
  pose proof (insert_items_well_formed tx id (it :: items) Hw1) as Hw2.
  destruct (insert_items tx id (it :: items)) as [[rows|e] tx1]; exact Hw2.
Qed.

(** What the transaction of [CreateOrder] has done when it ends,
    committed or rolled back. *)
Lemma repo_CreateOrder_body db o :
  exists tx,
    grows db tx
    /\ (Order.ID o = 0 -> well_formed db -> well_formed tx)
    /\ (snd (OrderRepository.CreateOrder db o) = tx
        \/ snd (OrderRepository.CreateOrder db o)
           = mkDB (orders db) (order_items db) (orders_id_seq tx)
                  (order_items_id_seq tx) (faults tx) (save_associations db)).
Proof.
  unfold OrderRepository.CreateOrder, Transaction.
  pose proof (Create_grows db o) as Hg.
  pose proof (Create_well_formed db o) as Hw.
  destruct (OrderRepository.Create db o) as [[o1|e] tx]; cbn in Hg, Hw.
  - pose proof (create_items_keeps (Order.Items o1) tx (Order.ID o1) []) as [Hg' Hw'].
    destruct (OrderRepository.create_items tx (Order.ID o1) [] (Order.Items o1))
      as [[[err|] items] tx1]; cbn in Hg', Hw';
      exists tx1; (split; [eapply grows_trans; eauto|]); (split; [auto|]);
        [right|left]; reflexivity.
  - exists tx. split; [exact Hg|]. split; [exact Hw|]. right. reflexivity.
Qed.

Lemma repo_CreateOrder_grows db o :
  grows db (snd (OrderRepository.CreateOrder db o)).
Proof.
  destruct (repo_CreateOrder_body db o) as (tx & Hg & _ & [->| ->]); [exact Hg|].
  destruct Hg as (_ & _ & Hs & Ht). apply grows_same; auto.
Qed.

Lemma repo_CreateOrder_well_formed db o :
  Order.ID o = 0 -> well_formed db ->
  well_formed (snd (OrderRepository.CreateOrder db o)).
Proof.
  intros H0 Hw.
  destruct (repo_CreateOrder_body db o) as (tx & Hg & Hw' & [->| ->]); [auto|].
  destruct Hg as (_ & _ & Hs & Ht).
  eapply well_formed_same; [| | | |exact Hw]; auto.
Qed.

Lemma repo_AddOrderItem_keeps db item :
  keeps db (snd (OrderRepository.AddOrderItem db item)).
Proof.
  unfold OrderRepository.AddOrderItem.
  pose proof (insert_item_grows db (with_item_id item 0)) as Hg.
  pose proof (insert_item_well_formed db (with_item_id item 0)) as Hw.
  destruct (insert_item db _) as [[id|e] d]; split; assumption.
Qed.

(** A statement that rewrites order rows in place, keeping their
    keys. *)
Lemma update_orders_keeps db f :
  (forall o, order_kept o (f o)) ->
  keeps db (mkDB (map f (orders db)) (order_items db) (orders_id_seq db)
                 (order_items_id_seq db) (faults db) (save_associations db)).
Proof.
  intros Hf.
  assert (Hid : forall l, map Order.ID (map f l) = map Order.ID l).
  { intros l. rewrite map_map. apply map_ext. intros o.
    destruct (Hf o) as [Hk _]. unfold order_key in Hk. congruence. }
  assert (Hex : forall l id,
             existsb (fun o => Order.ID o =? id) (map f l)
             = existsb (fun o => Order.ID o =? id) l).
  { intros l id. induction l as [|o l IH]; [reflexivity|]. cbn. rewrite IH.
    destruct (Hf o) as [Hk _]. unfold order_key in Hk.
    replace (Order.ID (f o)) with (Order.ID o) by congruence. reflexivity. }
  split.
  - repeat split; cbn; try lia.
    + now apply extends_map.
    + apply extends_refl, item_kept_refl.
  - intros (H1 & H2 & H3 & H4 & H5 & H6 & H7).
    unfold well_formed, references_ok, has_order_id; cbn.
    rewrite Hid. repeat split; auto;
      try (match goal with
           | H : In _ (map f _) |- _ =>
               apply in_map_iff in H; destruct H as (o0 & <- & H);
               destruct (Hf o0) as [Hk _]; unfold order_key in Hk;
               replace (Order.ID (f o0)) with (Order.ID o0) by congruence;
               pose proof (H1 _ H); lia
           end);
      try old_row H1 H2.
    intros it Hin. rewrite Hex. now apply H7.
Qed.

(** A statement that rewrites item rows in place, keeping their keys. *)
Lemma update_items_keeps db f :
  (forall it, item_kept it (f it)) ->
  keeps db (mkDB (orders db) (map f (order_items db)) (orders_id_seq db)
                 (order_items_id_seq db) (faults db) (save_associations db)).
Proof.
  intros Hf.
  assert (Hid : forall l, map OrderItem.ID (map f l) = map OrderItem.ID l).
  { intros l. rewrite map_map. apply map_ext. intros o.
    destruct (Hf o) as [Hk _]. unfold item_key in Hk. congruence. }
  split.
  - repeat split; cbn; try lia.
    + apply extends_refl, order_kept_refl.
    + now apply extends_map.
  - intros (H1 & H2 & H3 & H4 & H5 & H6 & H7).
    unfold well_formed, references_ok, has_order_id; cbn.
    rewrite Hid. repeat split; auto;
      try (match goal with
           | H : In _ (map f _) |- _ =>
               apply in_map_iff in H; destruct H as (o0 & <- & H);
               destruct (Hf o0) as [Hk _]; unfold item_key in Hk;
               replace (OrderItem.ID (f o0)) with (OrderItem.ID o0) by congruence;
               pose proof (H2 _ H); lia
           end);
      try old_row H1 H2.
    intros it Hin. apply in_map_iff in Hin. destruct Hin as (i0 & <- & Hin).
    destruct (Hf i0) as [Hk _]. unfold item_key in Hk.
    replace (OrderItem.OrderID (f i0)) with (OrderItem.OrderID i0) by congruence.
    now apply H7.
Qed.

Lemma repo_RemoveOrderItem_keeps db orderID itemID :
  keeps db (snd (OrderRepository.RemoveOrderItem db orderID itemID)).
Proof.
  unfold OrderRepository.RemoveOrderItem.
  pose proof (next_fault_keeps db) as Hk.
  destruct (next_fault db) as [fault d0]; cbn in Hk.
  destruct fault; [exact Hk|].
  destruct (Nat.eqb _ 0); [exact Hk|].
  eapply keeps_trans; [exact Hk|]. apply update_items_keeps.
  intros it. destruct (OrderRepository.matches orderID itemID it);
    [split; [reflexivity|reflexivity]|apply item_kept_refl].
Qed.

Lemma repo_UpdateOrderTotal_keeps db orderID total :
  keeps db (snd (OrderRepository.UpdateOrderTotal db orderID total)).
Proof.
  unfold OrderRepository.UpdateOrderTotal.
  pose proof (next_fault_keeps db) as Hk.
  destruct (next_fault db) as [fault d0]; cbn in Hk.
  destruct fault; [exact Hk|].
  destruct (Nat.eqb _ 0); [exact Hk|].
  eapply keeps_trans; [exact Hk|]. apply update_orders_keeps.
  intros o. destruct (OrderRepository.live_order orderID o);
    split; reflexivity.
Qed.

Lemma repo_UpdateOrderStatus_keeps db orderID status :
  keeps db (snd (OrderRepository.UpdateOrderStatus db orderID status)).
Proof.
  unfold OrderRepository.UpdateOrderStatus.
  pose proof (next_fault_keeps db) as Hk.
  destruct (next_fault db) as [fault d0]; cbn in Hk.
  destruct fault; [exact Hk|].
  destruct (Nat.eqb _ 0); [exact Hk|].
  eapply keeps_trans; [exact Hk|]. apply update_orders_keeps.
  intros o. destruct (OrderRepository.live_order orderID o);
    split; reflexivity.
Qed.

Lemma repo_GetOrderByID_keeps db id :
  keeps db (snd (OrderRepository.GetOrderByID db id)).
Proof.
  unfold OrderRepository.GetOrderByID.
  pose proof (next_fault_keeps db) as Hk.
  destruct (next_fault db) as [fault d0]; cbn in Hk.
  destruct fault; [exact Hk|].
  destruct (find_order d0 id); exact Hk.
Qed.

Lemma repo_ListOrders_keeps db userID page perPage :
  keeps db (snd (OrderRepository.ListOrders db userID page perPage)).
Proof.
  unfold OrderRepository.ListOrders.
  pose proof (next_fault_keeps db) as Hk.
  destruct (next_fault db) as [fault d0]; cbn in Hk.
  destruct fault; [exact Hk|].
  pose proof (next_fault_keeps d0) as Hk'.
  destruct (next_fault d0) as [fault d1]; cbn in Hk'.
  destruct fault; eapply keeps_trans; eauto.
Qed.

End Growth.

Section ServiceGrowth.
Import domain dto store Integrity OrderUsecase.
Context {R : Type} (D : Downstream R).

Lemma recompute_total_keeps orderID (w : World R) :
  keeps (db w) (db (snd (recompute_total orderID w))).
Proof.
  unfold recompute_total.
  pose proof (repo_GetOrderByID_keeps (db w) orderID) as Hk.
  destruct (OrderRepository.GetOrderByID (db w) orderID) as [[order|e] d];
    cbn in Hk; [|exact Hk].
  match goal with
  | |- context [OrderRepository.UpdateOrderTotal ?d ?i ?t] =>
      pose proof (repo_UpdateOrderTotal_keeps d i t) as Hk';
      destruct (OrderRepository.UpdateOrderTotal d i t) as [[e|] d']
  end; cbn in Hk' |- *; eapply keeps_trans; eauto.
Qed.

Lemma usecase_CreateOrder_keeps req (w : World R) :
  keeps (db w) (db (snd (CreateOrder D req w))).
Proof.
  unfold CreateOrder.
  pose proof (ensureUserExists_db D (CreateOrderRequest.UserID req) w) as Hu.
  destruct (ensureUserExists D (CreateOrderRequest.UserID req) w) as [[e|] w1];
    cbn [snd] in Hu |- *; [rewrite Hu; apply keeps_refl|].
  pose proof (CreateOrder_items_db D (CreateOrderRequest.Items req) [] F32.zero w1)
    as Hi.
  destruct (CreateOrder_items D (CreateOrderRequest.Items req) [] F32.zero w1)
    as [[[items total]|e] w2]; cbn [snd] in Hi |- *;
    [|rewrite Hi, Hu; apply keeps_refl].
  match goal with
  | |- context [OrderRepository.CreateOrder ?d ?o] =>
      pose proof (repo_CreateOrder_grows d o) as Hg;
      pose proof (repo_CreateOrder_well_formed d o eq_refl) as Hw;
      destruct (OrderRepository.CreateOrder d o) as [[[e|] o'] d']
  end; cbn in Hg, Hw |- *; rewrite Hi, Hu in Hg, Hw; split; assumption.
Qed.

Lemma usecase_AddOrderItem_keeps req (w : World R) :
  keeps (db w) (db (snd (AddOrderItem D req w))).
Proof.
  unfold AddOrderItem.
  pose proof (ensureProductExists_db D (AddOrderItemRequest.ProductID req) w) as Hp.
  destruct (ensureProductExists D (AddOrderItemRequest.ProductID req) w)
    as [[product|e] w1]; cbn [snd] in Hp |- *;
    [|rewrite Hp; apply keeps_refl].
  match goal with
  | |- context [OrderRepository.AddOrderItem ?d ?i] =>
      pose proof (repo_AddOrderItem_keeps d i) as Hk;
      destruct (OrderRepository.AddOrderItem d i) as [[[e|] i'] d']
  end; cbn in Hk |- *; rewrite Hp in Hk; [exact Hk|].
  eapply keeps_trans; [exact Hk|].
  apply (recompute_total_keeps (AddOrderItemRequest.OrderID req) (with_db w1 d')).
Qed.

Lemma usecase_RemoveOrderItem_keeps orderID itemID (w : World R) :
  keeps (db w) (db (snd (RemoveOrderItem orderID itemID w))).
Proof.
  unfold RemoveOrderItem.
  pose proof (repo_RemoveOrderItem_keeps (db w) orderID itemID) as Hk.
  destruct (OrderRepository.RemoveOrderItem (db w) orderID itemID) as [[e|] d];
    cbn in Hk |- *; [exact Hk|].
  eapply keeps_trans; [exact Hk|].
  apply (recompute_total_keeps orderID (with_db w d)).
Qed.

Lemma usecase_GetOrderByID_keeps id (w : World R) :
  keeps (db w) (db (snd (GetOrderByID id w))).
Proof.
  unfold GetOrderByID.
  pose proof (repo_GetOrderByID_keeps (db w) id) as Hk.
  destruct (OrderRepository.GetOrderByID (db w) id) as [[o|e] d]; exact Hk.
Qed.

Lemma usecase_ListOrders_keeps userID page perPage (w : World R) :
  keeps (db w) (db (snd (ListOrders userID page perPage w))).
Proof.
  unfold ListOrders.
  pose proof (repo_ListOrders_keeps (db w) userID page perPage) as Hk.
  destruct (OrderRepository.ListOrders (db w) userID page perPage)
    as [[[os total]|e] d]; exact Hk.
Qed.

Lemma usecase_UpdateOrderStatus_keeps orderID status (w : World R) :
  keeps (db w) (db (snd (UpdateOrderStatus orderID status w))).
Proof.
  unfold UpdateOrderStatus.
  pose proof (repo_UpdateOrderStatus_keeps (db w) orderID status) as Hk.
  destruct (OrderRepository.UpdateOrderStatus (db w) orderID status)
    as [[e|] d]; cbn in Hk |- *; [exact Hk|].
  pose proof (repo_GetOrderByID_keeps d orderID) as Hk'.
  destruct (OrderRepository.GetOrderByID d orderID) as [[o|e] d'];
    cbn in Hk' |- *; eapply keeps_trans; eauto.
Qed.

Lemma serve_keeps (w : World R) c : keeps (db w) (db (Service.serve D w c)).
Proof.
  destruct c; cbn [Service.serve].
  - apply usecase_CreateOrder_keeps.
  - apply usecase_GetOrderByID_keeps.
  - apply usecase_ListOrders_keeps.
  - apply usecase_AddOrderItem_keeps.
  - apply usecase_RemoveOrderItem_keeps.
  - apply usecase_UpdateOrderStatus_keeps.
Qed.

Lemma run_keeps cs : forall (w : World R), keeps (db w) (db (Service.run D w cs)).
Proof.
  induction cs as [|c cs IH]; intros w; [apply keeps_refl|].
  cbn [Service.run fold_left]. eapply keeps_trans; [apply serve_keeps|].
  apply (IH (Service.serve D w c)).
Qed.

End ServiceGrowth.

(** X1: whatever calls the order service serves, in whatever order,
    whatever the downstream services answer and whichever statements
    fail, the store stays well formed: ids are positive, come from the
    sequences and identify their rows, and every item row references an
    order row. *)
Theorem store_stays_well_formed {R : Type} (D : Downstream R)
    (w : World R) (cs : list Service.Call) :
  Integrity.well_formed (db w) ->
  Integrity.well_formed (db (Service.run D w cs)).
Proof. apply run_keeps. Qed.

Lemma store_stays_well_formed_witness :
  Integrity.well_formed (db Scenario.world0)
  /\ Integrity.well_formed
       (db (Service.run Scenario.D Scenario.world0
              [Service.CreateOrder
                 (dto.CreateOrderRequest.mk 1 (F32.of_int 10) 2 F32.zero
                    [dto.OrderItemInput.mk 7 2; dto.OrderItemInput.mk 8 1]);
               Service.AddOrderItem (dto.AddOrderItemRequest.mk 1 8 3);
               Service.RemoveOrderItem 1 1;
               Service.UpdateOrderStatus 1 "paid";
               Service.CreateOrder
                 (dto.CreateOrderRequest.mk 1 F32.zero 0 F32.zero
                    [dto.OrderItemInput.mk 9 1])])).
Proof.
  assert (H : Integrity.well_formed (db Scenario.world0)).
  { unfold Integrity.well_formed, Integrity.references_ok. cbn.
    repeat split; try lia; try (intros ? []); constructor. }
  split; [exact H|].
  apply (store_stays_well_formed Scenario.D Scenario.world0). exact H.
Defined.

(** X2: no call removes a row from either table or rewrites what
    identifies it.  After any sequence of calls every order row is still
    in its place with its id, user, shipping cost, shipping duration and
    discount, and is deleted only if it was; every item row is still in
    its place with its id, order, product, quantity and prices, and an
    item once marked deleted stays so; the sequences never go back. *)
Theorem rows_are_never_removed {R : Type} (D : Downstream R)
    (w : World R) (cs : list Service.Call) :
  Integrity.grows (db w) (db (Service.run D w cs))
  /\ (forall o, In o (store.orders (db w)) ->
        exists o', In o' (store.orders (db (Service.run D w cs)))
                   /\ Integrity.order_key o' = Integrity.order_key o
                   /\ domain.Order.DeletedAt o' = domain.Order.DeletedAt o)
  /\ (forall it, In it (store.order_items (db w)) ->
        exists it', In it' (store.order_items (db (Service.run D w cs)))
                    /\ Integrity.item_key it' = Integrity.item_key it
                    /\ (domain.OrderItem.DeletedAt it = true ->
                        domain.OrderItem.DeletedAt it' = true))
  /\ (List.length (store.orders (db w))
      <= List.length (store.orders (db (Service.run D w cs))))%nat
  /\ (List.length (store.order_items (db w))
      <= List.length (store.order_items (db (Service.run D w cs))))%nat.
Proof.
  destruct (run_keeps D cs w) as [Hg _].
  split; [exact Hg|]. destruct Hg as (Ho & Hi & _ & _).
  split; [|split; [|split]].
  - intros o Hin. destruct (extends_In _ _ _ _ Ho Hin) as (o' & Hin' & Hk & Hd).
    eauto.
  - intros it Hin. destruct (extends_In _ _ _ _ Hi Hin) as (it' & Hin' & Hk & Hd).
    eauto.
  - eapply extends_length; eauto.
  - eapply extends_length; eauto.
Qed.

(** * Removing and adding items *)
Section Removal.
Import domain dto store Integrity OrderUsecase.

Lemma matches_spec orderID itemID it :
  OrderRepository.matches orderID itemID it = true
  <-> OrderItem.ID it = itemID /\ OrderItem.OrderID it = orderID
      /\ OrderItem.DeletedAt it = false.
Proof.
  unfold OrderRepository.matches.
  rewrite !andb_true_iff, !Z.eqb_eq, negb_true_iff. tauto.
Qed.

Lemma matches_mark orderID itemID it :
  OrderRepository.matches orderID itemID (mark orderID itemID it) = false.
Proof.
  unfold mark. destruct (OrderRepository.matches orderID itemID it) eqn:E;
    [|exact E].
  unfold OrderRepository.matches, OrderRepository.soft_delete. cbn.
  apply andb_false_r.
Qed.

Lemma filter_matches_mark orderID itemID l :
  filter (OrderRepository.matches orderID itemID) (map (mark orderID itemID) l)
  = [].
Proof.
  induction l as [|x l IH]; [reflexivity|]. cbn.
  now rewrite matches_mark.
Qed.

Lemma live_mark orderID itemID o x :
  ((OrderItem.OrderID (mark orderID itemID x) =? o)
   && negb (OrderItem.DeletedAt (mark orderID itemID x))
   = ((OrderItem.OrderID x =? o) && negb (OrderItem.DeletedAt x))
     && negb ((OrderItem.ID x =? itemID) && (o =? orderID)))
  /\ ((OrderItem.OrderID (mark orderID itemID x) =? o)
      && negb (OrderItem.DeletedAt (mark orderID itemID x)) = true ->
      mark orderID itemID x = x).
Proof.
  unfold mark, OrderRepository.matches, OrderRepository.soft_delete.
  destruct x as [id del oid pid q up tp]; cbn.
  destruct (Z.eqb_spec id itemID), (Z.eqb_spec oid orderID),
    (Z.eqb_spec oid o), (Z.eqb_spec o orderID), del; cbn;
    rewrite ?andb_false_r, ?andb_true_r; split;
    try reflexivity; try (intros; discriminate); try (exfalso; lia);
    try (symmetry; apply Z.eqb_neq; lia); try (apply Z.eqb_neq; lia);
    try (apply Z.eqb_eq; lia).
Qed.

(** The live items of an order once the matching rows are marked. *)
Lemma live_items_mark orderID itemID o l :
  filter (fun it => (OrderItem.OrderID it =? o) && negb (OrderItem.DeletedAt it))
         (map (mark orderID itemID) l)
  = filter (fun it => negb ((OrderItem.ID it =? itemID) && (o =? orderID)))
      (filter (fun it => (OrderItem.OrderID it =? o)
                         && negb (OrderItem.DeletedAt it)) l).
Proof.
  induction l as [|x l IH]; [reflexivity|]. cbn [map filter].
  destruct (live_mark orderID itemID o x) as [E Hsame]. rewrite E, IH.
  destruct ((OrderItem.OrderID x =? o) && negb (OrderItem.DeletedAt x)) eqn:El;
    cbn [andb filter]; [|reflexivity].
  destruct (negb ((OrderItem.ID x =? itemID) && (o =? orderID))) eqn:En;
    [|reflexivity].
  rewrite Hsame; [reflexivity|exact E].
Qed.

Lemma repo_RemoveOrderItem_ok db orderID itemID d :
  OrderRepository.RemoveOrderItem db orderID itemID = (None, d) ->
  orders d = orders db
  /\ order_items d = map (mark orderID itemID) (order_items db)
  /\ exists row, In row (order_items db)
                 /\ OrderRepository.matches orderID itemID row = true.
Proof.
  unfold OrderRepository.RemoveOrderItem. intros H.
  pose proof (next_fault_rows db) as ((Hro & Hri) & _).
  destruct (next_fault db) as [fault d0]; cbn in Hro, Hri.
  destruct fault; [discriminate|].
  destruct (filter (OrderRepository.matches orderID itemID) (order_items d0))
    as [|row rows] eqn:Ef; [discriminate|].
  cbn in H. inversion H; subst; clear H. cbn.
  rewrite Hro, Hri in *. repeat split; auto.
  exists row. apply filter_In. rewrite Ef. now left.
Qed.

Lemma repo_RemoveOrderItem_none db orderID itemID :
  filter (OrderRepository.matches orderID itemID) (order_items db) = [] ->
  OrderRepository.RemoveOrderItem db orderID itemID
  = (Some (if fst (next_fault db) then DriverError else ErrOrderItemNotFound),
     snd (next_fault db)).
Proof.
  intros Hf. unfold OrderRepository.RemoveOrderItem.
  pose proof (next_fault_rows db) as ((_ & Hri) & _).
  destruct (next_fault db) as [fault d0]; cbn in *.
  destruct fault; [reflexivity|]. rewrite Hri, Hf. reflexivity.
Qed.

Context {R : Type}.

Lemma usecase_RemoveOrderItem_ok orderID itemID (w w1 : World R) order :
  RemoveOrderItem orderID itemID w = (Ok order, w1) ->
  order_items (db w1) = map (mark orderID itemID) (order_items (db w))
  /\ Order.Items order = items_of (db w1) orderID
  /\ total_consistent (db w1) orderID
  /\ exists row, In row (order_items (db w))
                 /\ OrderRepository.matches orderID itemID row = true.
Proof.
  unfold RemoveOrderItem. intros H.
  destruct (OrderRepository.RemoveOrderItem (db w) orderID itemID)
    as [[e|] d] eqn:Er; [discriminate|].
  apply repo_RemoveOrderItem_ok in Er. destruct Er as (_ & Hi & Hrow).
  apply recompute_total_consistent in H. destruct H as (Hc & Hitems & Hio & _).
  cbn in Hitems. repeat split; auto. congruence.
Qed.

End Removal.

(** X3: [RemoveOrderItem] deletes softly.  After a removal that
    succeeded, the order's items are the former ones without the item,
    the items of every other order are as before, the item's row is still
    in the table, marked deleted, and a second removal of the same item
    finds nothing: it returns [ErrOrderItemNotFound] (the driver's error
    if the statement fails) and changes no row. *)
Theorem removed_item_stays_removed {R : Type} (orderID itemID : Z)
    (w w1 : World R) (order : domain.Order.t) :
  OrderUsecase.RemoveOrderItem orderID itemID w = (Ok order, w1) ->
  domain.Order.Items order
  = filter (fun it => negb (domain.OrderItem.ID it =? itemID))
           (store.items_of (db w) orderID)
  /\ (forall o, o <> orderID ->
        store.items_of (db w1) o = store.items_of (db w) o)
  /\ (exists row, In row (store.order_items (db w1))
                  /\ domain.OrderItem.ID row = itemID
                  /\ domain.OrderItem.OrderID row = orderID
                  /\ domain.OrderItem.DeletedAt row = true)
  /\ List.length (store.order_items (db w1))
     = List.length (store.order_items (db w))
  /\ OrderUsecase.RemoveOrderItem orderID itemID w1
     = (Err (if fst (store.next_fault (db w1)) then DriverError
             else ErrOrderItemNotFound),
        with_db w1 (snd (store.next_fault (db w1))))
  /\ Integrity.sameRows (db w1)
       (db (snd (OrderUsecase.RemoveOrderItem orderID itemID w1))).
Proof.
  intros H. apply usecase_RemoveOrderItem_ok in H.
  destruct H as (Hi & Hitems & _ & row & Hin & Hm).
  assert (Hlive : forall o,
             store.items_of (db w1) o
             = filter (fun it => negb ((domain.OrderItem.ID it =? itemID)
                                       && (o =? orderID)))
                      (store.items_of (db w) o)).
  { intros o. unfold store.items_of. rewrite Hi. apply live_items_mark. }
  split.
  { rewrite Hitems, Hlive. apply filter_ext. intros it.
    now rewrite Z.eqb_refl, andb_true_r. }
  split.
  { intros o Ho. rewrite Hlive.
    replace (o =? orderID) with false by (symmetry; now apply Z.eqb_neq).
    erewrite filter_ext; [apply filter_true|].
    intros it. now rewrite andb_false_r. }
  split.
  { exists (Integrity.mark orderID itemID row). split; [rewrite Hi; now apply in_map|].
    unfold Integrity.mark. rewrite Hm. apply matches_spec in Hm.
    destruct Hm as (? & ? & ?). cbn. auto. }
  split; [rewrite Hi; apply length_map|].
  assert (E : OrderUsecase.RemoveOrderItem orderID itemID w1
              = (Err (if fst (store.next_fault (db w1)) then DriverError
                      else ErrOrderItemNotFound),
                 with_db w1 (snd (store.next_fault (db w1))))).
  { unfold OrderUsecase.RemoveOrderItem.
    rewrite repo_RemoveOrderItem_none; [reflexivity|].
    rewrite Hi. apply filter_matches_mark. }
  split; [exact E|]. rewrite E. cbn. apply next_fault_rows.
Qed.

Lemma removed_item_stays_removed_witness :
  let w := snd (OrderUsecase.CreateOrder Scenario.D
                  (dto.CreateOrderRequest.mk 1 F32.zero 0 F32.zero
                     [dto.OrderItemInput.mk 7 2; dto.OrderItemInput.mk 8 1])
                  Scenario.world0_plain) in
  map domain.OrderItem.ID (store.items_of (db w) 1) = [1; 2]
  /\ exists order,
       fst (OrderUsecase.RemoveOrderItem 1 1 w) = Ok order
       /\ map domain.OrderItem.ID (domain.Order.Items order) = [2]
       /\ fst (OrderUsecase.RemoveOrderItem 1 1
                 (snd (OrderUsecase.RemoveOrderItem 1 1 w)))
          = Err ErrOrderItemNotFound.
Proof.
  cbv zeta. split; [vm_compute; reflexivity|].
  match goal with
  | |- exists order, fst (OrderUsecase.RemoveOrderItem 1 1 ?w0) = _ /\ _ =>
      set (w := w0)
  end.
  destruct (fst (OrderUsecase.RemoveOrderItem 1 1 w)) as [order|e] eqn:E;
    [|vm_compute in E; discriminate E].
  exists order. split; [reflexivity|].
  apply pair_eta in E.
  destruct (removed_item_stays_removed 1 1 w _ order E)
    as (Hitems & _ & _ & _ & Hagain & _).
  split.
  - rewrite Hitems. vm_compute. reflexivity.
  - rewrite Hagain. cbn [fst].
    replace (fst (store.next_fault
                    (db (snd (OrderUsecase.RemoveOrderItem 1 1 w)))))
      with false by (vm_compute; reflexivity).
    reflexivity.
Defined.

Section Addition.
Import domain dto store Integrity OrderUsecase.

Lemma find_order_rows d d' id :
  orders d' = orders d -> find_order d' id = find_order d id.
Proof. unfold find_order. now intros ->. Qed.

Lemma items_of_rows d d' id :
  order_items d' = order_items d -> items_of d' id = items_of d id.
Proof. unfold items_of. now intros ->. Qed.

(** Rewriting the live rows of one id leaves the lookup of every other
    id as it was. *)
Lemma find_update_other (f : Order.t -> Order.t) id id' l :
  id' <> id ->
  (forall o, Order.ID (f o) = Order.ID o) ->
  find (fun o => (Order.ID o =? id') && negb (Order.DeletedAt o))
       (map (fun o => if OrderRepository.live_order id o then f o else o) l)
  = find (fun o => (Order.ID o =? id') && negb (Order.DeletedAt o)) l.
Proof.
  intros Hne Hid. induction l as [|o l IH]; [reflexivity|]. cbn [map find].
  destruct (OrderRepository.live_order id o) eqn:El.
  - unfold OrderRepository.live_order in El.
    apply andb_true_iff in El. destruct El as [El _]. apply Z.eqb_eq in El.
    rewrite Hid.
    replace (Order.ID o =? id') with false by (symmetry; apply Z.eqb_neq; lia).
    cbn. exact IH.
  - now rewrite IH.
Qed.

Lemma UpdateOrderTotal_other d id total d' id' :
  OrderRepository.UpdateOrderTotal d id total = (None, d') ->
  id' <> id -> find_order d' id' = find_order d id'.
Proof.
  unfold OrderRepository.UpdateOrderTotal. intros H Hne.
  pose proof (next_fault_rows d) as ((Hro & _) & _).
  destruct (next_fault d) as [fault d1]; cbn in Hro.
  destruct fault; [discriminate|].
  destruct (Nat.eqb _ 0); [discriminate|].
  inversion H; subst; clear H. unfold find_order. cbn.
  rewrite find_update_other; [now rewrite Hro|assumption|reflexivity].
Qed.

Context {R : Type}.

(** What the reload and the write of the total do when they succeed. *)
Lemma recompute_total_ok orderID (w w' : World R) order :
  recompute_total orderID w = (Ok order, w') ->
  exists o,
    find_order (db w) orderID = Some o
    /\ find_order (db w') orderID
       = Some (OrderRepository.with_total o
                 (calculateOrderTotal (sumItemsTotal (items_of (db w) orderID))
                    (Order.ShippingCost o) (Order.Discount o)))
    /\ order
       = OrderRepository.with_total
           (OrderRepository.with_items o (Order.ID o) (items_of (db w) orderID))
           (calculateOrderTotal (sumItemsTotal (items_of (db w) orderID))
              (Order.ShippingCost o) (Order.Discount o))
    /\ order_items (db w') = order_items (db w)
    /\ (forall id', id' <> orderID ->
                    find_order (db w') id' = find_order (db w) id')
    /\ userConn w' = userConn w /\ productConn w' = productConn w
    /\ remote w' = remote w.
Proof.
  unfold recompute_total. intros H.
  destruct (OrderRepository.GetOrderByID (db w) orderID) as [[o1|e] d1] eqn:Eg;
    [|discriminate].
  apply GetOrderByID_ok in Eg. destruct Eg as ((Hro & Hri) & o & Hfind & ->).
  cbn in H.
  match type of H with
  | context [OrderRepository.UpdateOrderTotal ?d ?i ?t] =>
      destruct (OrderRepository.UpdateOrderTotal d i t) as [[e|] d2] eqn:Eu
  end; [discriminate|].
  inversion H; subst; clear H. cbn.
  destruct (find_order_some _ _ _ Hfind) as [Hid _].
  rewrite Hid in Eu.
  destruct (UpdateOrderTotal_ok _ _ _ _ _ Eu Hfind) as [Hfind' Hitems].
  rewrite (items_of_rows _ _ orderID Hri) in *.
  exists o. rewrite <- (find_order_rows _ _ orderID Hro).
  repeat split; auto.
  - congruence.
  - intros id' Hne. rewrite (UpdateOrderTotal_other _ _ _ _ id' Eu Hne).
    now apply find_order_rows.
Qed.

Context (D : Downstream R).

(** What a successful [AddOrderItem] has done. *)
Lemma usecase_AddOrderItem_ok req (w w1 : World R) order :
  AddOrderItem D req w = (Ok order, w1) ->
  exists product w0 o,
    ensureProductExists D (AddOrderItemRequest.ProductID req) w
    = (Ok product, w0)
    /\ find_order (db w) (AddOrderItemRequest.OrderID req) = Some o
    /\ has_item_id (db w) (order_items_id_seq (db w) + 1) = false
    /\ let newItem :=
         OrderItem.mk (order_items_id_seq (db w) + 1) false
           (AddOrderItemRequest.OrderID req) (AddOrderItemRequest.ProductID req)
           (AddOrderItemRequest.Quantity req) (productpb.Price product)
           (F32.mul (productpb.Price product)
                    (F32.of_int (AddOrderItemRequest.Quantity req))) in
       let items := items_of (db w) (AddOrderItemRequest.OrderID req)
                    ++ [newItem] in
       let total := calculateOrderTotal (sumItemsTotal items)
                      (Order.ShippingCost o) (Order.Discount o) in
       order_items (db w1) = order_items (db w) ++ [newItem]
       /\ order = OrderRepository.with_total
                    (OrderRepository.with_items o (Order.ID o) items) total
       /\ find_order (db w1) (AddOrderItemRequest.OrderID req)
          = Some (OrderRepository.with_total o total)
       /\ (forall id', id' <> AddOrderItemRequest.OrderID req ->
                       find_order (db w1) id' = find_order (db w) id').
Proof.
  unfold AddOrderItem. intros H.
  pose proof (ensureProductExists_db D (AddOrderItemRequest.ProductID req) w) as Hdb.
  destruct (ensureProductExists D (AddOrderItemRequest.ProductID req) w)
    as [[product|e] w0]; [|discriminate]. cbn in Hdb.
  unfold OrderRepository.AddOrderItem in H.
  match type of H with
  | context [insert_item ?d ?i] =>
      destruct (insert_item d i) as [[id|e] d1] eqn:Ei
  end; [|discriminate].
  apply insert_item_ok in Ei.
  destruct Ei as (Hid & Ho & Hi & _ & _ & _ & Hfresh).
  rewrite Hdb in *. subst id.
  apply recompute_total_ok in H.
  destruct H as (o & Hfind & Hfind' & Horder & Hitems & Hother & _).
  cbn [db with_db] in *.
  assert (Hio : items_of d1 (AddOrderItemRequest.OrderID req)
                = items_of (db w) (AddOrderItemRequest.OrderID req)
                  ++ [OrderItem.mk (order_items_id_seq (db w) + 1) false
                        (AddOrderItemRequest.OrderID req)
                        (AddOrderItemRequest.ProductID req)
                        (AddOrderItemRequest.Quantity req)
                        (productpb.Price product)
                        (F32.mul (productpb.Price product)
                           (F32.of_int (AddOrderItemRequest.Quantity req)))]).
  { unfold items_of. rewrite Hi, filter_app. cbn.
    now rewrite Z.eqb_refl. }
  rewrite Hio in *.
  exists product, w0, o. split; [reflexivity|].
  rewrite (find_order_rows _ _ _ Ho) in Hfind.
  split; [exact Hfind|]. split; [exact Hfresh|]. cbv zeta.
  split; [rewrite Hitems, Hi; reflexivity|].
  split; [exact Horder|]. split; [exact Hfind'|].
  intros id' Hne. rewrite (Hother id' Hne). now apply find_order_rows.
Qed.

End Addition.

Section RoundTrip.
Import domain dto store Integrity OrderUsecase.
Context {R : Type}.

Lemma usecase_RemoveOrderItem_rows orderID itemID (w w1 : World R) order :
  RemoveOrderItem orderID itemID w = (Ok order, w1) ->
  exists o,
    find_order (db w) orderID = Some o
    /\ order_items (db w1) = map (mark orderID itemID) (order_items (db w))
    /\ find_order (db w1) orderID
       = Some (OrderRepository.with_total o
                 (calculateOrderTotal (sumItemsTotal (items_of (db w1) orderID))
                    (Order.ShippingCost o) (Order.Discount o)))
    /\ order
       = OrderRepository.with_total
           (OrderRepository.with_items o (Order.ID o) (items_of (db w1) orderID))
           (calculateOrderTotal (sumItemsTotal (items_of (db w1) orderID))
              (Order.ShippingCost o) (Order.Discount o))
    /\ (forall id', id' <> orderID ->
                    find_order (db w1) id' = find_order (db w) id').
Proof.
  unfold RemoveOrderItem. intros H.
  destruct (OrderRepository.RemoveOrderItem (db w) orderID itemID)
    as [[e|] d] eqn:Er; [discriminate|].
  apply repo_RemoveOrderItem_ok in Er. destruct Er as (Ho & Hi & _).
  apply recompute_total_ok in H.
  destruct H as (o & Hfind & Hfind' & Horder & Hitems & Hother & _).
  cbn [db with_db] in *.
  rewrite <- (items_of_rows _ _ orderID Hitems) in Hfind', Horder.
  exists o. rewrite <- (find_order_rows _ _ orderID Ho).
  repeat split; auto.
  - congruence.
  - intros id' Hne. rewrite (Hother id' Hne). now apply find_order_rows.
Qed.

Lemma map_mark_other orderID itemID l :
  existsb (fun it => OrderItem.ID it =? itemID) l = false ->
  map (mark orderID itemID) l = l.
Proof.
  induction l as [|x l IH]; [reflexivity|]. cbn. intros H.
  apply orb_false_iff in H. destruct H as [Hx Hl].
  rewrite (IH Hl). unfold mark, OrderRepository.matches. now rewrite Hx.
Qed.

Lemma with_total_twice o t t' :
  OrderRepository.with_total (OrderRepository.with_total o t) t'
  = OrderRepository.with_total o t'.
Proof. reflexivity. Qed.

Lemma with_total_same o : OrderRepository.with_total o (Order.Total o) = o.
Proof. now destruct o. Qed.

End RoundTrip.

(** X4: adding an item and removing it again restores the order.  A
    successful [AddOrderItem] returns the order's former items followed by
    the new one; when that item is then removed, the order's live items,
    and those of every other order, are the ones from before the
    addition, the returned total is the one computed from them, and if
    the stored total agreed with the stored items before the addition
    every order row is again what it was. *)
Theorem add_then_remove_restores {R : Type} (D : Downstream R)
    (req : dto.AddOrderItemRequest.t) (w w1 : World R)
    (order1 : domain.Order.t) :
  OrderUsecase.AddOrderItem D req w = (Ok order1, w1) ->
  exists newItem,
    domain.Order.Items order1
    = store.items_of (db w) (dto.AddOrderItemRequest.OrderID req) ++ [newItem]
    /\ domain.OrderItem.ProductID newItem = dto.AddOrderItemRequest.ProductID req
    /\ domain.OrderItem.Quantity newItem = dto.AddOrderItemRequest.Quantity req
    /\ forall order2 w2,
         OrderUsecase.RemoveOrderItem (dto.AddOrderItemRequest.OrderID req)
           (domain.OrderItem.ID newItem) w1 = (Ok order2, w2) ->
         domain.Order.Items order2
         = store.items_of (db w) (dto.AddOrderItemRequest.OrderID req)
         /\ (forall o, store.items_of (db w2) o = store.items_of (db w) o)
         /\ domain.Order.Total order2
            = OrderUsecase.calculateOrderTotal
                (OrderUsecase.sumItemsTotal
                   (store.items_of (db w) (dto.AddOrderItemRequest.OrderID req)))
                (domain.Order.ShippingCost order2)
                (domain.Order.Discount order2)
         /\ (Integrity.total_consistent (db w)
               (dto.AddOrderItemRequest.OrderID req) ->
             forall o, store.find_order (db w2) o = store.find_order (db w) o).
Proof.
  intros Hadd. apply usecase_AddOrderItem_ok in Hadd.
  destruct Hadd as (product & w0 & o & _ & Hfind & Hfresh & Hadd).
  cbv zeta in Hadd. destruct Hadd as (Hi1 & Horder1 & Hfind1 & Hother1).
  eexists. split; [rewrite Horder1; reflexivity|].
  split; [reflexivity|]. split; [reflexivity|].
  cbn [domain.OrderItem.ID]. intros order2 w2 Hrem.
  apply usecase_RemoveOrderItem_rows in Hrem.
  destruct Hrem as (o1 & Hfind1' & Hi2 & Hfind2 & Horder2 & Hother2).
  assert (o1 = OrderRepository.with_total o
                 (OrderUsecase.calculateOrderTotal
                    (OrderUsecase.sumItemsTotal
                       (store.items_of (db w) (dto.AddOrderItemRequest.OrderID req)
                        ++ [domain.OrderItem.mk
                              (store.order_items_id_seq (db w) + 1) false
                              (dto.AddOrderItemRequest.OrderID req)
                              (dto.AddOrderItemRequest.ProductID req)
                              (dto.AddOrderItemRequest.Quantity req)
                              (productpb.Price product)
                              (F32.mul (productpb.Price product)
                                 (F32.of_int
                                    (dto.AddOrderItemRequest.Quantity req)))]))
                    (domain.Order.ShippingCost o) (domain.Order.Discount o)))
    by congruence.
  subst o1. clear Hfind1'.
  assert (Hitems : forall x, store.items_of (db w2) x = store.items_of (db w) x).
  { intros x. unfold store.items_of. rewrite Hi2, Hi1, map_app.
    rewrite map_mark_other by exact Hfresh.
    rewrite filter_app. cbn [map filter].
    unfold Integrity.mark.
    match goal with
    | |- context [OrderRepository.matches ?a ?b ?it] =>
        replace (OrderRepository.matches a b it) with true
          by (unfold OrderRepository.matches; cbn; now rewrite !Z.eqb_refl)
    end.
    cbn. rewrite andb_false_r. apply app_nil_r. }
  rewrite Hitems in Hfind2, Horder2.
  split; [rewrite Horder2; reflexivity|].
  split; [exact Hitems|].
  split; [rewrite Horder2; reflexivity|].
  intros (row & Hrow & Htotal) x.
  assert (row = o) by congruence. subst row.
  destruct (Z.eq_dec x (dto.AddOrderItemRequest.OrderID req)) as [->|Hne].
  - rewrite Hfind2, Hfind. f_equal.
    assert (Ht : domain.Order.Total o
                 = OrderUsecase.calculateOrderTotal
                     (OrderUsecase.sumItemsTotal
                        (store.items_of (db w)
                           (dto.AddOrderItemRequest.OrderID req)))
                     (domain.Order.ShippingCost o) (domain.Order.Discount o)).
    { rewrite Htotal, <- sumItemsTotal_spec. reflexivity. }
    unfold OrderRepository.with_total.
    cbn [domain.Order.ID domain.Order.DeletedAt domain.Order.UserID
         domain.Order.ShippingCost domain.Order.ShippingDurationDays
         domain.Order.Discount domain.Order.Status domain.Order.Items].
    rewrite <- Ht. now destruct o.
  - rewrite (Hother2 x Hne). now apply Hother1.
Qed.

Lemma add_then_remove_restores_witness :
  let w := snd (OrderUsecase.CreateOrder Scenario.D
                  (dto.CreateOrderRequest.mk 1 (F32.of_int 10) 0 F32.zero
                     [dto.OrderItemInput.mk 7 2])
                  Scenario.world0_plain) in
  let added := OrderUsecase.AddOrderItem Scenario.D
                 (dto.AddOrderItemRequest.mk 1 8 3) w in
  exists order1 order2,
    fst added = Ok order1
    /\ map domain.OrderItem.ID (domain.Order.Items order1) = [1; 2]
    /\ fst (OrderUsecase.RemoveOrderItem 1 2 (snd added)) = Ok order2
    /\ domain.Order.Items order2 = store.items_of (db w) 1
    /\ store.find_order
         (db (snd (OrderUsecase.RemoveOrderItem 1 2 (snd added)))) 1
       = store.find_order (db w) 1.
Proof.
  cbv zeta.
  set (w := snd (OrderUsecase.CreateOrder Scenario.D
                   (dto.CreateOrderRequest.mk 1 (F32.of_int 10) 0 F32.zero
                      [dto.OrderItemInput.mk 7 2])
                   Scenario.world0_plain)).
  set (added := OrderUsecase.AddOrderItem Scenario.D
                  (dto.AddOrderItemRequest.mk 1 8 3) w).
  destruct (fst added) as [order1|e] eqn:E1; [|vm_compute in E1; discriminate E1].
  destruct (fst (OrderUsecase.RemoveOrderItem 1 2 (snd added)))
    as [order2|e] eqn:E2; [|vm_compute in E2; discriminate E2].
  exists order1, order2. split; [reflexivity|].
  pose proof E1 as E1'. apply pair_eta in E1'.
  destruct (add_then_remove_restores Scenario.D
              (dto.AddOrderItemRequest.mk 1 8 3) w (snd added) order1 E1')
    as (newItem & Hitems & _ & _ & Hrem).
  vm_compute in E1. injection E1 as <-.
  vm_compute in Hitems. injection Hitems as <-.
  split; [reflexivity|]. split; [reflexivity|].
  apply pair_eta in E2.
  destruct (Hrem order2 _ E2) as (Hi2 & _ & _ & Hrows).
  split; [exact Hi2|]. apply Hrows.
  unfold Integrity.total_consistent, Integrity.stored_total_is.
  cbn [dto.AddOrderItemRequest.OrderID].
  destruct (store.find_order (db w) 1) as [row|] eqn:Er;
    [|vm_compute in Er; discriminate Er].
  exists row. split; [reflexivity|].
  vm_compute in Er. injection Er as <-. vm_compute. reflexivity.
Defined.

(** * The status of an order *)
Section Status.
Import domain dto store Integrity OrderUsecase.

Lemma find_with_status id status l :
  find (OrderRepository.live_order id)
       (map (fun o => if OrderRepository.live_order id o
                      then OrderRepository.with_status o status else o) l)
  = option_map (fun o => OrderRepository.with_status o status)
               (find (OrderRepository.live_order id) l).
Proof.
  induction l as [|o l IH]; [reflexivity|]. cbn [map find].
  destruct (OrderRepository.live_order id o) eqn:E.
  - change (OrderRepository.live_order id (OrderRepository.with_status o status))
      with (OrderRepository.live_order id o). now rewrite E.
  - now rewrite E.
Qed.

Lemma find_live_none id (l : list Order.t) :
  find (OrderRepository.live_order id) l = None ->
  filter (OrderRepository.live_order id) l = [].
Proof.
  induction l as [|o l IH]; [reflexivity|]. cbn.
  destruct (OrderRepository.live_order id o); [discriminate|exact IH].
Qed.

Lemma find_live_some id (l : list Order.t) o :
  find (OrderRepository.live_order id) l = Some o ->
  Nat.eqb (List.length (filter (OrderRepository.live_order id) l)) 0 = false.
Proof.
  induction l as [|x l IH]; [discriminate|]. cbn.
  destruct (OrderRepository.live_order id x); [reflexivity|exact IH].
Qed.

Lemma repo_UpdateOrderStatus_found d id status o :
  faults d = [] ->
  find_order d id = Some o ->
  exists d',
    OrderRepository.UpdateOrderStatus d id status = (None, d')
    /\ faults d' = []
    /\ find_order d' id = Some (OrderRepository.with_status o status)
    /\ (forall id', id' <> id -> find_order d' id' = find_order d id')
    /\ order_items d' = order_items d
    /\ List.length (orders d') = List.length (orders d).
Proof.
  intros Hf Hfind. unfold OrderRepository.UpdateOrderStatus.
  rewrite (next_fault_none d Hf).
  unfold find_order in Hfind.
  change (fun o0 : Order.t => (Order.ID o0 =? id) && negb (Order.DeletedAt o0))
    with (OrderRepository.live_order id) in Hfind.
  rewrite (find_live_some _ _ _ Hfind).
  eexists. split; [reflexivity|]. cbn. split; [exact Hf|].
  split.
  { unfold find_order. cbn.
    change (fun o0 : Order.t => (Order.ID o0 =? id) && negb (Order.DeletedAt o0))
      with (OrderRepository.live_order id).
    now rewrite find_with_status, Hfind. }
  split.
  { intros id' Hne. unfold find_order. cbn.
    apply find_update_other; [assumption|reflexivity]. }
  split; [reflexivity|apply length_map].
Qed.

Lemma repo_UpdateOrderStatus_none d id status :
  find_order d id = None ->
  OrderRepository.UpdateOrderStatus d id status
  = (Some (if fst (next_fault d) then DriverError else ErrOrderNotFound),
     snd (next_fault d)).
Proof.
  intros Hfind. unfold OrderRepository.UpdateOrderStatus.
  pose proof (next_fault_rows d) as ((Hro & _) & _).
  destruct (next_fault d) as [fault d0]; cbn in *.
  destruct fault; [reflexivity|]. rewrite Hro.
  unfold find_order in Hfind.
  change (fun o0 : Order.t => (Order.ID o0 =? id) && negb (Order.DeletedAt o0))
    with (OrderRepository.live_order id) in Hfind.
  now rewrite (find_live_none _ _ Hfind).
Qed.

Lemma repo_GetOrderByID_found d id o :
  faults d = [] ->
  find_order d id = Some o ->
  OrderRepository.GetOrderByID d id
  = (Ok (OrderRepository.with_items o (Order.ID o) (items_of d id)), d).
Proof.
  intros Hf Hfind. unfold OrderRepository.GetOrderByID.
  now rewrite (next_fault_none d Hf), Hfind.
Qed.

Lemma with_db_same {R} (w : World R) : with_db w (db w) = w.
Proof. now destruct w. Qed.

Lemma usecase_UpdateOrderStatus_found {R} orderID status (w : World R) o :
  find_order (db w) orderID = Some o ->
  no_faults (db w) ->
  exists w',
    UpdateOrderStatus orderID status w
    = (Ok (OrderRepository.with_items
             (OrderRepository.with_status o status) (Order.ID o)
             (items_of (db w) orderID)),
       w')
    /\ find_order (db w') orderID = Some (OrderRepository.with_status o status)
    /\ (forall id', id' <> orderID ->
          find_order (db w') id' = find_order (db w) id')
    /\ order_items (db w') = order_items (db w)
    /\ List.length (orders (db w')) = List.length (orders (db w))
    /\ userConn w' = userConn w /\ productConn w' = productConn w
    /\ remote w' = remote w.
Proof.
  intros Hfind Hf. unfold UpdateOrderStatus.
  destruct (repo_UpdateOrderStatus_found (db w) orderID status o Hf Hfind)
    as (d' & E & Hf' & Hfind' & Hother & Hitems & Hlen).
  rewrite E.
  rewrite (repo_GetOrderByID_found d' orderID _ Hf' Hfind').
  exists (with_db w d'). cbn.
  rewrite (items_of_rows _ _ orderID Hitems).
  repeat split; auto.
Qed.

End Status.

(** X5: [UpdateOrderStatus] on an existing order, when no statement
    fails, sets the order's status to the given one of the five statuses,
    whatever the status was before, and changes nothing else: the order
    keeps its total and its other fields, the rows of the other orders and
    all item rows are as before, no row is added, and no downstream
    service is called.  It returns the order as reloaded, with its live
    items. *)
Theorem UpdateOrderStatus_sets_status {R : Type} (orderID : Z)
    (status : string) (w : World R) (o : domain.Order.t) :
  In status [domain.OrderStatusPending; domain.OrderStatusPaid;
             domain.OrderStatusShipped; domain.OrderStatusDelivered;
             domain.OrderStatusCanceled] ->
  store.find_order (db w) orderID = Some o ->
  Integrity.no_faults (db w) ->
  exists w',
    OrderUsecase.UpdateOrderStatus orderID status w
    = (Ok (OrderRepository.with_items
             (OrderRepository.with_status o status) (domain.Order.ID o)
             (store.items_of (db w) orderID)),
       w')
    /\ store.find_order (db w') orderID
       = Some (OrderRepository.with_status o status)
    /\ (forall id', id' <> orderID ->
          store.find_order (db w') id' = store.find_order (db w) id')
    /\ store.order_items (db w') = store.order_items (db w)
    /\ List.length (store.orders (db w')) = List.length (store.orders (db w))
    /\ userConn w' = userConn w /\ productConn w' = productConn w
    /\ remote w' = remote w.
Proof.
  intros _ Hfind Hf. now apply usecase_UpdateOrderStatus_found.
Qed.

Lemma UpdateOrderStatus_sets_status_witness :
  let w := snd (OrderUsecase.CreateOrder Scenario.D
                  (dto.CreateOrderRequest.mk 1 (F32.of_int 10) 0 F32.zero
                     [dto.OrderItemInput.mk 7 2])
                  Scenario.world0_plain) in
  exists order,
    fst (OrderUsecase.UpdateOrderStatus 1 "shipped" w) = Ok order
    /\ domain.Order.Status order = domain.OrderStatusShipped
    /\ domain.Order.Total order = F32.of_int 50
    /\ fst (OrderUsecase.UpdateOrderStatus 1 "pending"
              (snd (OrderUsecase.UpdateOrderStatus 1 "shipped" w)))
       = Ok (OrderRepository.with_status order domain.OrderStatusPending).
Proof.
  cbv zeta.
  set (w := snd (OrderUsecase.CreateOrder Scenario.D
                   (dto.CreateOrderRequest.mk 1 (F32.of_int 10) 0 F32.zero
                      [dto.OrderItemInput.mk 7 2])
                   Scenario.world0_plain)).
  destruct (store.find_order (db w) 1) as [o|] eqn:Eo;
    [|vm_compute in Eo; discriminate Eo].
  destruct (UpdateOrderStatus_sets_status 1 "shipped" w o)
    as (w1 & E1 & Hfind1 & _ & Hitems1 & _);
    [right; right; left; reflexivity|exact Eo|vm_compute; reflexivity|].
  assert (Hf1 : Integrity.no_faults (db w1)).
  { replace w1 with (snd (OrderUsecase.UpdateOrderStatus 1 "shipped" w))
      by (rewrite E1; reflexivity).
    vm_compute. reflexivity. }
  destruct (UpdateOrderStatus_sets_status 1 "pending" w1
              (OrderRepository.with_status o domain.OrderStatusShipped))
    as (w2 & E2 & _);
    [left; reflexivity|exact Hfind1|exact Hf1|].
  eexists. rewrite E1. split; [reflexivity|].
  split; [reflexivity|].
  split; [vm_compute in Eo; injection Eo as <-; reflexivity|].
  cbn [snd]. rewrite E2. cbn [fst]. f_equal.
  unfold store.items_of. rewrite Hitems1. reflexivity.
Defined.

(** X6: [UpdateOrderStatus] for an id no live order has issues the one
    update statement and nothing else: it returns [ErrOrderNotFound] (the
    driver's error if the statement itself fails) and leaves every row as
    it was. *)
Theorem UpdateOrderStatus_not_found {R : Type} (orderID : Z)
    (status : string) (w : World R) :
  store.find_order (db w) orderID = None ->
  OrderUsecase.UpdateOrderStatus orderID status w
  = (Err (if fst (store.next_fault (db w)) then DriverError
          else ErrOrderNotFound),
     with_db w (snd (store.next_fault (db w))))
  /\ Integrity.sameRows (db w)
       (db (snd (OrderUsecase.UpdateOrderStatus orderID status w)))
  /\ store.faults (db (snd (OrderUsecase.UpdateOrderStatus orderID status w)))
     = tl (store.faults (db w)).
Proof.
  intros Hfind.
  assert (E : OrderUsecase.UpdateOrderStatus orderID status w
              = (Err (if fst (store.next_fault (db w)) then DriverError
                      else ErrOrderNotFound),
                 with_db w (snd (store.next_fault (db w))))).
  { unfold OrderUsecase.UpdateOrderStatus.
    now rewrite (repo_UpdateOrderStatus_none _ _ _ Hfind). }
  rewrite E. cbn. split; [reflexivity|].
  split; [apply next_fault_rows|].
  unfold store.next_fault.
  destruct (store.faults (db w)) eqn:Ef; cbn; [exact Ef|reflexivity].
Qed.

Lemma UpdateOrderStatus_not_found_witness :
  store.find_order (db Scenario.world0) 7 = None
  /\ fst (OrderUsecase.UpdateOrderStatus 7 "paid" Scenario.world0)
     = Err ErrOrderNotFound
  /\ db (snd (OrderUsecase.UpdateOrderStatus 7 "paid" Scenario.world0))
     = db Scenario.world0.
Proof.
  split; [reflexivity|].
  destruct (UpdateOrderStatus_not_found 7 "paid" Scenario.world0)
    as (E & _ & _); [reflexivity|].
  rewrite E. split; reflexivity.
Defined.

(** * Conversions between the messages and the use case *)
Section Conversions.


Lemma int64_small x : - 2 ^ 63 <= x < 2 ^ 63 -> int64 x = x.
Proof.
  unfold int64, to_signed, wrap. change (64 - 1) with 63.
  change (2 ^ 64) with 18446744073709551616.
  change (2 ^ 63) with 9223372036854775808. intros H.
  destruct (Z.ltb_spec (x mod 18446744073709551616) 9223372036854775808);
    Z.to_euclidean_division_equations; lia.
Qed.

Lemma int32_small x : - 2 ^ 31 <= x < 2 ^ 31 -> int32 x = x.
Proof.
  unfold int32, to_signed, wrap. change (32 - 1) with 31.
  change (2 ^ 32) with 4294967296. change (2 ^ 31) with 2147483648. intros H.
  destruct (Z.ltb_spec (x mod 4294967296) 2147483648);
    Z.to_euclidean_division_equations; lia.
Qed.



Lemma uint64_negative x : - 2 ^ 63 <= x < 0 -> uint64 x = x + 2 ^ 64.
Proof.
  unfold uint64, wrap. change (2 ^ 64) with 18446744073709551616.
  change (2 ^ 63) with 9223372036854775808. intros H.
  Z.to_euclidean_division_equations; lia.
Qed.



End Conversions.

Section HandlerValidation.
Import domain dto.




End HandlerValidation.





(** * Reading orders back *)
Section ReadBack.
Import domain dto store Integrity OrderUsecase.
Context {R : Type} (D : Downstream R).

(** What a successful [CreateOrder] has stored and returned. *)
Lemma usecase_CreateOrder_ok req (w w' : World R) order :
  CreateOrder D req w = (Ok order, w') ->
  has_order_id (db w) (Order.ID order) = false
  /\ Order.ID order = orders_id_seq (db w) + 1
  /\ orders (db w') = orders (db w) ++ [order_row order (Order.ID order)]
  /\ (exists saved,
        order_items (db w') = order_items (db w) ++ saved ++ Order.Items order
        /\ map line_of saved
           = (if save_associations (db w)
              then map line_of (Order.Items order) else [])
        /\ Forall (fun r => OrderItem.OrderID r = Order.ID order
                            /\ OrderItem.DeletedAt r = false)
                  (saved ++ Order.Items order))
  /\ Order.DeletedAt order = false
  /\ Order.UserID order = CreateOrderRequest.UserID req
  /\ Order.ShippingCost order = CreateOrderRequest.ShippingCost req
  /\ Order.ShippingDurationDays order = CreateOrderRequest.ShippingDurationDays req
  /\ Order.Discount order = CreateOrderRequest.Discount req
  /\ Order.Status order = OrderStatusPending
  /\ List.length (Order.Items order)
     = List.length (CreateOrderRequest.Items req).
Proof.
  unfold CreateOrder. intros H.
  pose proof (ensureUserExists_db D (CreateOrderRequest.UserID req) w) as Hdb1.
  destruct (ensureUserExists D (CreateOrderRequest.UserID req) w)
    as [[e|] w1]; [discriminate|]. cbn in Hdb1.
  pose proof (CreateOrder_items_db D (CreateOrderRequest.Items req) []
                F32.zero w1) as Hdb2.
  pose proof (CreateOrder_items_spec D (CreateOrderRequest.Items req) []
                F32.zero w1) as Hspec.
  destruct (CreateOrder_items D (CreateOrderRequest.Items req) [] F32.zero w1)
    as [[[items itemsTotal]|e] w2] eqn:Eloop; [|discriminate]. cbn in Hdb2.
  destruct (CreateOrder_items_priced D _ _ _ _ F32.zero _ _ _ Eloop)
    as (_ & Hlive & _); [constructor|constructor|reflexivity|].
  assert (Hlen : List.length items = List.length (CreateOrderRequest.Items req)).
  { destruct (ensureProductsExist D _ w1) as [[ps|e] w3]; [|discriminate].
    destruct Hspec as [Hspec Hl]. inversion Hspec; subst.
    cbn. rewrite length_map, length_combine, Hl. apply Nat.min_id. }
  match type of H with
  | context [OrderRepository.CreateOrder ?d ?o] =>
      destruct (OrderRepository.CreateOrder d o) as [[[err|] o'] d'] eqn:Er
  end; [discriminate|].
  inversion H; subst order w'; clear H.
  apply repo_CreateOrder_ok in Er.
  destruct Er as (id & Hfresh & Hid & Ho & Hi & ->). cbn in *.
  assert (Hdb : db w2 = db w) by congruence.
  rewrite Hdb in *.
  split; [exact Hfresh|]. split; [now apply Hid|]. split; [exact Ho|].
  split.
  { exists (saved_rows (db w) id items). split; [exact Hi|]. split.
    - unfold saved_rows, loop_rows. destruct (save_associations (db w));
        [|reflexivity].
      now rewrite !map_line_of_assign_ids.
    - apply Forall_app. split.
      + unfold saved_rows. destruct (save_associations (db w));
          [apply assign_ids_rows; exact Hlive|constructor].
      + apply assign_ids_rows; exact Hlive. }
  unfold loop_rows. rewrite assign_ids_length. repeat split; auto.
Qed.

Lemma with_items_same o : OrderRepository.with_items o (Order.ID o) (Order.Items o) = o.
Proof. now destruct o. Qed.

End ReadBack.

(** X9: an order can be read back as it was created.  After a
    successful [CreateOrder], [GetOrderByID] with the returned id, when
    its statement does not fail, returns the order with the id, user,
    costs, total and status [CreateOrder] returned and changes nothing.
    Its items are the returned ones, preceded, on a handle that saves
    associations, by the rows saved with the order; on a handle that does
    not, the order read back is the order returned. *)
Theorem GetOrderByID_after_CreateOrder {R : Type} (D : Downstream R)
    (req : dto.CreateOrderRequest.t) (w w' : World R)
    (order : domain.Order.t) :
  OrderUsecase.CreateOrder D req w = (Ok order, w') ->
  Integrity.references_ok (db w) ->
  Integrity.no_faults (db w') ->
  (exists saved,
      OrderUsecase.GetOrderByID (domain.Order.ID order) w'
      = (Ok (OrderRepository.with_items order (domain.Order.ID order)
               (saved ++ domain.Order.Items order)),
         w')
      /\ map Integrity.line_of saved
         = (if store.save_associations (db w)
            then map Integrity.line_of (domain.Order.Items order) else []))
  /\ (store.save_associations (db w) = false ->
      OrderUsecase.GetOrderByID (domain.Order.ID order) w' = (Ok order, w')).
Proof.
  intros Hc Href Hf.
  destruct (usecase_CreateOrder_ok D req w w' order Hc)
    as (Hfresh & _ & Ho & (saved & Hi & Hlines & Hrows) & Hlive & _).
  assert (Hfind : store.find_order (db w') (domain.Order.ID order)
                  = Some (store.order_row order (domain.Order.ID order)))
    by (eapply find_order_new; eauto).
  assert (Hitems : store.items_of (db w') (domain.Order.ID order)
                   = saved ++ domain.Order.Items order)
    by (eapply items_of_new; eauto).
  assert (E : OrderUsecase.GetOrderByID (domain.Order.ID order) w'
              = (Ok (OrderRepository.with_items order (domain.Order.ID order)
                       (saved ++ domain.Order.Items order)),
                 w')).
  { unfold OrderUsecase.GetOrderByID.
    rewrite (repo_GetOrderByID_found _ _ _ Hf Hfind), Hitems.
    now rewrite with_db_same. }
  split; [exists saved; split; [exact E|exact Hlines]|].
  intros Hsa. rewrite Hsa in Hlines.
  destruct saved; [|discriminate Hlines].
  rewrite E. cbn [app]. now rewrite with_items_same.
Qed.

Lemma GetOrderByID_after_CreateOrder_witness :
  let req := dto.CreateOrderRequest.mk 1 (F32.of_int 10) 3 (F32.of_int 5)
               [dto.OrderItemInput.mk 7 2; dto.OrderItemInput.mk 8 1] in
  exists order,
    fst (OrderUsecase.CreateOrder Scenario.D req Scenario.world0_plain)
    = Ok order
    /\ fst (OrderUsecase.GetOrderByID (domain.Order.ID order)
              (snd (OrderUsecase.CreateOrder Scenario.D req
                      Scenario.world0_plain)))
       = Ok order.
Proof.
  cbv zeta.
  set (req := dto.CreateOrderRequest.mk 1 (F32.of_int 10) 3 (F32.of_int 5)
                [dto.OrderItemInput.mk 7 2; dto.OrderItemInput.mk 8 1]).
  destruct (fst (OrderUsecase.CreateOrder Scenario.D req Scenario.world0_plain))
    as [order|e] eqn:E; [|vm_compute in E; discriminate E].
  exists order. split; [reflexivity|].
  apply pair_eta in E.
  destruct (GetOrderByID_after_CreateOrder Scenario.D req Scenario.world0_plain
              _ order E) as [_ Hsame].
  - intros it [].
  - vm_compute. reflexivity.
  - rewrite Hsame; reflexivity.
Defined.

(** * Listing orders *)
Section Listing.
Import domain dto store Integrity.

Lemma insert_desc_In o l y :
  In y (OrderRepository.insert_desc o l) <-> y = o \/ In y l.
Proof.
  induction l as [|x l IH]; cbn.
  - intuition congruence.
  - destruct (Order.ID x <? Order.ID o); cbn; [intuition congruence|].
    rewrite IH. intuition congruence.
Qed.

Lemma order_by_id_desc_In l y :
  In y (OrderRepository.order_by_id_desc l) <-> In y l.
Proof.
  unfold OrderRepository.order_by_id_desc.
  induction l as [|x l IH]; cbn; [tauto|].
  rewrite insert_desc_In, IH. intuition congruence.
Qed.

Lemma insert_desc_length o l :
  List.length (OrderRepository.insert_desc o l) = S (List.length l).
Proof.
  induction l as [|x l IH]; cbn; [reflexivity|].
  destruct (Order.ID x <? Order.ID o); cbn; [reflexivity|now rewrite IH].
Qed.

Lemma order_by_id_desc_length l :
  List.length (OrderRepository.order_by_id_desc l) = List.length l.
Proof.
  unfold OrderRepository.order_by_id_desc.
  induction l as [|x l IH]; cbn; [reflexivity|].
  now rewrite insert_desc_length, IH.
Qed.

Lemma insert_desc_sorted o l :
  ForallOrdPairs newer_first l ->
  (forall x, In x l -> Order.ID x <> Order.ID o) ->
  ForallOrdPairs newer_first (OrderRepository.insert_desc o l).
Proof.
  induction 1 as [|x l Hx Hl IH]; intros Hne; cbn.
  - constructor; constructor.
  - destruct (Z.ltb_spec (Order.ID x) (Order.ID o)) as [Hlt|Hge].
    + constructor; [|constructor; assumption].
      constructor; [exact Hlt|].
      apply Forall_forall. intros y Hy.
      rewrite Forall_forall in Hx. specialize (Hx y Hy).
      unfold newer_first in *. lia.
    + constructor.
      * apply Forall_forall. intros y Hy. apply insert_desc_In in Hy.
        destruct Hy as [->|Hy].
        -- unfold newer_first. specialize (Hne x (or_introl eq_refl)). lia.
        -- rewrite Forall_forall in Hx. now apply Hx.
      * apply IH. intros y Hy. apply Hne. now right.
Qed.

Lemma order_by_id_desc_sorted l :
  NoDup (map Order.ID l) ->
  ForallOrdPairs newer_first (OrderRepository.order_by_id_desc l).
Proof.
  induction l as [|x l IH]; cbn; intros Hnd; [constructor|].
  inversion Hnd as [|? ? Hx Hl]; subst.
  apply insert_desc_sorted; [now apply IH|].
  intros y Hy E. apply (order_by_id_desc_In l y) in Hy.
  apply Hx. rewrite <- E. now apply in_map.
Qed.

Lemma NoDup_map_filter {A B} (f : A -> B) p l :
  NoDup (map f l) -> NoDup (map f (filter p l)).
Proof.
  induction l as [|x l IH]; cbn; intros H; [constructor|].
  inversion H as [|? ? Hx Hl]; subst.
  destruct (p x); cbn; [|now apply IH].
  constructor; [|now apply IH].
  intros Hin. apply Hx. apply in_map_iff in Hin.
  destruct Hin as (y & E & Hy). apply filter_In in Hy.
  rewrite <- E. apply in_map. tauto.
Qed.

Lemma selected_spec userID o :
  OrderRepository.selected userID o = true
  <-> Order.DeletedAt o = false
      /\ (forall id, userID = Some id -> Order.UserID o = id).
Proof.
  unfold OrderRepository.selected.
  rewrite andb_true_iff, negb_true_iff.
  destruct userID as [u|].
  - rewrite Z.eqb_eq. split.
    + intros [Hd Hu]. split; [exact Hd|]. intros id E. congruence.
    + intros [Hd Hu]. split; [exact Hd|]. now apply Hu.
  - split; [intros [Hd _]; split; [exact Hd|discriminate]|tauto].
Qed.

(** [OFFSET] and [LIMIT] cut a slice out of the rows. *)
Lemma offset_limit_slice {A} (offset limit : Z) (rows : list A) :
  0 <= offset -> 0 <= limit ->
  OrderRepository.offset_limit offset limit rows
  = firstn (Z.to_nat limit) (skipn (Z.to_nat offset) rows).
Proof.
  intros Ho Hl. unfold OrderRepository.offset_limit.
  replace (0 <=? limit) with true by (symmetry; now apply Z.leb_le).
  destruct (Z.ltb_spec 0 offset); [reflexivity|].
  replace offset with 0 by lia. reflexivity.
Qed.

Lemma slice_split {A} (a b : nat) (l : list A) :
  l = firstn a l ++ firstn b (skipn a l) ++ skipn b (skipn a l).
Proof. now rewrite (firstn_skipn b), (firstn_skipn a). Qed.

Lemma repo_ListOrders_ok d userID page perPage :
  faults d = [] ->
  OrderRepository.ListOrders d userID page perPage
  = (Ok (map (fun o => OrderRepository.with_items o (Order.ID o)
                         (items_of d (Order.ID o)))
             (OrderRepository.offset_limit (int64 ((page - 1) * perPage)) perPage
                (OrderRepository.order_by_id_desc
                   (filter (OrderRepository.selected userID) (orders d)))),
         Z.of_nat (List.length
                     (filter (OrderRepository.selected userID) (orders d)))),
     d).
Proof.
  intros Hf. unfold OrderRepository.ListOrders.
  now rewrite !(next_fault_none d Hf).
Qed.

End Listing.

(** The page [ListOrders] returns, as a slice of the matching orders. *)
Lemma usecase_ListOrders_slice {R : Type} (userID : option Z)
    (page perPage : Z) (w : World R) :
  Integrity.no_faults (db w) ->
  NoDup (map domain.Order.ID (store.orders (db w))) ->
  1 <= page -> 1 <= perPage -> (page - 1) * perPage < 2 ^ 63 ->
  exists before rows after,
    OrderUsecase.ListOrders userID page perPage w
    = (Ok (map (fun o => OrderRepository.with_items o (domain.Order.ID o)
                           (store.items_of (db w) (domain.Order.ID o)))
               rows,
           Z.of_nat (List.length (before ++ rows ++ after))),
       w)
    /\ ForallOrdPairs (fun a b => domain.Order.ID b < domain.Order.ID a)
                      (before ++ rows ++ after)
    /\ (forall o, In o (before ++ rows ++ after)
                  <-> In o (store.orders (db w))
                      /\ domain.Order.DeletedAt o = false
                      /\ (forall id, userID = Some id ->
                                     domain.Order.UserID o = id))
    /\ Z.of_nat (List.length before)
       = Z.min ((page - 1) * perPage)
               (Z.of_nat (List.length (before ++ rows ++ after)))
    /\ Z.of_nat (List.length rows)
       = Z.min perPage
               (Z.of_nat (List.length (before ++ rows ++ after))
                - Z.of_nat (List.length before)).
Proof.
  intros Hf Hnd Hpage Hper Hbig.
  set (all := OrderRepository.order_by_id_desc
                (filter (OrderRepository.selected userID) (store.orders (db w)))).
  set (off := Z.to_nat ((page - 1) * perPage)).
  set (k := Z.to_nat perPage).
  exists (firstn off all), (firstn k (skipn off all)), (skipn k (skipn off all)).
  rewrite <- (slice_split off k all).
  assert (Hlen : List.length all
                 = List.length (filter (OrderRepository.selected userID)
                                       (store.orders (db w))))
    by apply order_by_id_desc_length.
  split.
  { unfold OrderUsecase.ListOrders.
    rewrite (repo_ListOrders_ok _ _ _ _ Hf).
    rewrite int64_small by (change (2 ^ 63) with 9223372036854775808 in *; nia).
    rewrite offset_limit_slice by nia.
    unfold OrderUsecase.mapOrderToResponse. rewrite map_id.
    fold all off k. rewrite Hlen. now rewrite with_db_same. }
  split.
  { apply order_by_id_desc_sorted. now apply NoDup_map_filter. }
  split.
  { intros o. unfold all. rewrite order_by_id_desc_In, filter_In, selected_spec.
    tauto. }
  assert (Hm : 0 <= (page - 1) * perPage) by nia.
  clearbody all. clear Hlen Hbig. revert Hm. unfold off, k.
  generalize ((page - 1) * perPage). intros m Hm.
  split.
  - rewrite length_firstn. lia.
  - rewrite !length_firstn, length_skipn. lia.
Qed.


(** X10: [ListOrders] returns a slice of the matching orders, newest
    first.  When no statement fails, on a store whose order ids are
    distinct, for a page and a page size of at least one: the live orders
    (of the given user, when one is given) ordered by descending id are
    [before ++ rows ++ after], where [before] holds the first
    [(page - 1) * perPage] of them (all, if there are fewer), [rows] the
    next [perPage] (or those that are left); the call returns [rows], each
    with its live items, and the number of all the matching orders, and
    changes nothing. *)
Theorem ListOrders_returns_slice {R : Type} (userID : option Z)
    (page perPage : Z) (w : World R) :
  Integrity.no_faults (db w) ->
  NoDup (map domain.Order.ID (store.orders (db w))) ->
  1 <= page -> 1 <= perPage -> (page - 1) * perPage < 2 ^ 63 ->
  exists before rows after,
    OrderUsecase.ListOrders userID page perPage w
    = (Ok (map (fun o => OrderRepository.with_items o (domain.Order.ID o)
                           (store.items_of (db w) (domain.Order.ID o)))
               rows,
           Z.of_nat (List.length (before ++ rows ++ after))),
       w)
    /\ ForallOrdPairs (fun a b => domain.Order.ID b < domain.Order.ID a)
                      (before ++ rows ++ after)
    /\ (forall o, In o (before ++ rows ++ after)
                  <-> In o (store.orders (db w))
                      /\ domain.Order.DeletedAt o = false
                      /\ (forall id, userID = Some id ->
                                     domain.Order.UserID o = id))
    /\ Z.of_nat (List.length before)
       = Z.min ((page - 1) * perPage)
               (Z.of_nat (List.length (before ++ rows ++ after)))
    /\ Z.of_nat (List.length rows)
       = Z.min perPage
               (Z.of_nat (List.length (before ++ rows ++ after))
                - Z.of_nat (List.length before)).
Proof. apply usecase_ListOrders_slice. Qed.

Lemma ListOrders_returns_slice_witness :
  let req := dto.CreateOrderRequest.mk 1 F32.zero 0 F32.zero
               [dto.OrderItemInput.mk 7 1] in
  let w := Service.run Scenario.D Scenario.world0_plain
             [Service.CreateOrder req; Service.CreateOrder req;
              Service.CreateOrder req] in
  map domain.Order.ID (store.orders (db w)) = [1; 2; 3]
  /\ exists before rows after,
       fst (OrderUsecase.ListOrders (Some 1) 2 2 w)
       = Ok (map (fun o => OrderRepository.with_items o (domain.Order.ID o)
                             (store.items_of (db w) (domain.Order.ID o)))
                 rows,
             Z.of_nat (List.length (before ++ rows ++ after)))
       /\ Z.of_nat (List.length before) = 2
       /\ Z.of_nat (List.length rows) = 1
       /\ ForallOrdPairs (fun a b => domain.Order.ID b < domain.Order.ID a)
                         (before ++ rows ++ after).
Proof.
  cbv zeta.
  set (w := Service.run Scenario.D Scenario.world0_plain _).
  assert (Hids : map domain.Order.ID (store.orders (db w)) = [1; 2; 3])
    by (vm_compute; reflexivity).
  split; [exact Hids|].
  destruct (ListOrders_returns_slice (Some 1) 2 2 w)
    as (before & rows & after & E & Hsorted & Hin & Hb & Hr);
    try lia.
  - vm_compute. reflexivity.
  - rewrite Hids. repeat constructor; cbn; intuition discriminate.
  - assert (Hn : List.length (before ++ rows ++ after) = 3%nat).
    { assert (Ht : snd (match fst (OrderUsecase.ListOrders (Some 1) 2 2 w) with
                        | Ok p => p
                        | Err _ => ([], 0)
                        end) = 3) by (vm_compute; reflexivity).
      rewrite E in Ht. cbn in Ht. lia. }
    exists before, rows, after. rewrite E. split; [reflexivity|].
    rewrite Hn in Hb, Hr. repeat split; try lia. exact Hsorted.
Defined.

Section ListingHandler.
Import domain dto store Integrity.

Lemma ForallOrdPairs_app {A} (P : A -> A -> Prop) l1 l2 :
  ForallOrdPairs P (l1 ++ l2) ->
  forall a b, In a l1 -> In b l2 -> P a b.
Proof.
  induction l1 as [|x l1 IH]; cbn; intros H a b Ha Hb; [destruct Ha|].
  inversion H as [|? ? Hx Hl]; subst.
  destruct Ha as [->|Ha]; [|eauto].
  rewrite Forall_forall in Hx. apply Hx. apply in_or_app. now right.
Qed.

Lemma uint64_small x : 0 <= x < 2 ^ 63 -> uint64 x = x.
Proof.
  intros H. unfold uint64, wrap. apply Z.mod_small.
  change (2 ^ 63) with 9223372036854775808 in *.
  change (2 ^ 64) with 18446744073709551616. lia.
Qed.

Lemma selected_userFilter userId o :
  - 2 ^ 63 <= userId < 2 ^ 63 ->
  OrderRepository.selected (if 0 <? userId then Some (uint64 userId) else None) o
  = negb (Order.DeletedAt o)
    && ((userId <=? 0) || (Order.UserID o =? userId)).
Proof.
  intros Hu. unfold OrderRepository.selected.
  destruct (Z.ltb_spec 0 userId) as [Hpos|Hneg].
  - rewrite uint64_small by lia.
    replace (userId <=? 0) with false by (symmetry; apply Z.leb_gt; lia).
    reflexivity.
  - replace (userId <=? 0) with true by (symmetry; apply Z.leb_le; lia).
    reflexivity.
Qed.

Lemma matching_spec userId o :
  negb (Order.DeletedAt o) && ((userId <=? 0) || (Order.UserID o =? userId))
  = true
  <-> Order.DeletedAt o = false /\ (0 < userId -> Order.UserID o = userId).
Proof.
  rewrite andb_true_iff, orb_true_iff, negb_true_iff, Z.leb_le, Z.eqb_eq.
  split; intros [Hd Hx]; (split; [exact Hd|]).
  - intros Hpos. destruct Hx; [lia|assumption].
  - destruct (Z.le_gt_cases userId 0); [now left|right; apply Hx; lia].
Qed.

Lemma handler_ListOrders_first_page {R} (userId : Z) (w : World R) :
  no_faults (db w) ->
  NoDup (map Order.ID (orders (db w))) ->
  Z.of_nat (List.length (orders (db w))) < 2 ^ 31 ->
  - 2 ^ 63 <= userId < 2 ^ 63 ->
  exists rows,
    OrderGRPCHandler.ListOrders (orderpb.ListOrdersRequest.mk userId 0 0) w
    = (Ok (orderpb.ListOrdersResponse.mk
             (map (fun o =>
                     OrderGRPCHandler.mapOrderToPB
                       (Some (OrderRepository.with_items o (Order.ID o)
                                (items_of (db w) (Order.ID o)))))
                  rows)
             (Z.of_nat
                (List.length
                   (filter (fun o => negb (Order.DeletedAt o)
                                     && ((userId <=? 0)
                                         || (Order.UserID o =? userId)))
                           (orders (db w)))))),
       w)
    /\ (List.length rows <= 10)%nat
    /\ (forall o, In o rows ->
          In o (orders (db w))
          /\ Order.DeletedAt o = false
          /\ (0 < userId -> Order.UserID o = userId))
    /\ (forall o o',
          In o rows -> In o' (orders (db w)) ->
          Order.DeletedAt o' = false ->
          (0 < userId -> Order.UserID o' = userId) ->
          ~ In o' rows ->
          Order.ID o' < Order.ID o /\ List.length rows = 10%nat).
Proof.
  intros Hf Hnd Hsmall Hu.
  set (all := OrderRepository.order_by_id_desc
                (filter (OrderRepository.selected (if 0 <? userId then Some (uint64 userId) else None))
                        (orders (db w)))).
  assert (Hall : forall o, In o all
                           <-> In o (orders (db w))
                               /\ Order.DeletedAt o = false
                               /\ (0 < userId -> Order.UserID o = userId)).
  { intros o. unfold all.
    rewrite order_by_id_desc_In, filter_In, (selected_userFilter _ _ Hu),
      matching_spec. tauto. }
  assert (Hsorted : ForallOrdPairs newer_first all).
  { apply order_by_id_desc_sorted. now apply NoDup_map_filter. }
  assert (Hlen : List.length all
                 = List.length
                     (filter (fun o => negb (Order.DeletedAt o)
                                       && ((userId <=? 0)
                                           || (Order.UserID o =? userId)))
                             (orders (db w)))).
  { unfold all. rewrite order_by_id_desc_length. f_equal.
    apply filter_ext. intros o. now apply selected_userFilter. }
  exists (firstn 10 all). split.
  { unfold OrderGRPCHandler.ListOrders, OrderUsecase.ListOrders.
    cbn [orderpb.ListOrdersRequest.Page orderpb.ListOrdersRequest.PerPage
         orderpb.ListOrdersRequest.UserId Z.eqb].
    rewrite (repo_ListOrders_ok _ _ _ _ Hf). cbn [Z.sub Z.mul Z.add Z.opp Z.pos_sub].
    change ((1 - 1) * 10) with 0. change (int64 0) with 0.
    rewrite offset_limit_slice by lia.
    change (Z.to_nat 0) with 0%nat. change (Z.to_nat 10) with 10%nat.
    cbn [skipn]. fold all.
    unfold OrderUsecase.mapOrderToResponse. rewrite map_id, map_map.
    rewrite with_db_same.
    replace (List.length
               (filter (OrderRepository.selected
                          (if 0 <? userId then Some (uint64 userId) else None))
                       (orders (db w))))
      with (List.length all) by apply order_by_id_desc_length.
    rewrite int32_small; [now rewrite Hlen|].
    assert (List.length all <= List.length (orders (db w)))%nat
      by (rewrite Hlen; apply filter_length_le).
    change (2 ^ 31) with 2147483648 in *. lia. }
  split; [apply firstn_le_length|].
  split.
  { intros o Ho. apply Hall. rewrite <- (firstn_skipn 10 all).
    apply in_or_app. now left. }
  intros o o' Ho Ho' Hd' Hu' Hnot.
  assert (Hin' : In o' all) by (apply Hall; auto).
  rewrite <- (firstn_skipn 10 all) in Hin', Hsorted.
  apply in_app_or in Hin'. destruct Hin' as [Hin'|Hin']; [contradiction|].
  split; [exact (ForallOrdPairs_app _ _ _ Hsorted o o' Ho Hin')|].
  rewrite length_firstn.
  assert (10 < List.length all)%nat; [|lia].
  destruct (skipn 10 all) eqn:Es; [destruct Hin'|].
  assert (List.length (skipn 10 all) = S (List.length l)) by (now rewrite Es).
  rewrite length_skipn in *. lia.
Qed.

End ListingHandler.

(** X11: a [ListOrders] request that sets neither the page nor the page
    size is answered with the first page of ten: when no statement fails,
    on a store of fewer than 2^31 orders with distinct ids, the answer
    holds at most ten of the live orders (of the user, when the request's
    user id is positive; of all users otherwise), each with its live
    items; a matching order is left out only when ten are listed, and
    then its id is smaller than that of every order listed; the count is
    the number of all the matching orders. *)
Theorem handler_ListOrders_defaults {R : Type} (userId : Z) (w : World R) :
  Integrity.no_faults (db w) ->
  NoDup (map domain.Order.ID (store.orders (db w))) ->
  Z.of_nat (List.length (store.orders (db w))) < 2 ^ 31 ->
  - 2 ^ 63 <= userId < 2 ^ 63 ->
  exists rows,
    OrderGRPCHandler.ListOrders (orderpb.ListOrdersRequest.mk userId 0 0) w
    = (Ok (orderpb.ListOrdersResponse.mk
             (map (fun o =>
                     OrderGRPCHandler.mapOrderToPB
                       (Some (OrderRepository.with_items o (domain.Order.ID o)
                                (store.items_of (db w) (domain.Order.ID o)))))
                  rows)
             (Z.of_nat
                (List.length
                   (filter (fun o => negb (domain.Order.DeletedAt o)
                                     && ((userId <=? 0)
                                         || (domain.Order.UserID o =? userId)))
                           (store.orders (db w)))))),
       w)
    /\ (List.length rows <= 10)%nat
    /\ (forall o, In o rows ->
          In o (store.orders (db w))
          /\ domain.Order.DeletedAt o = false
          /\ (0 < userId -> domain.Order.UserID o = userId))
    /\ (forall o o',
          In o rows -> In o' (store.orders (db w)) ->
          domain.Order.DeletedAt o' = false ->
          (0 < userId -> domain.Order.UserID o' = userId) ->
          ~ In o' rows ->
          domain.Order.ID o' < domain.Order.ID o
          /\ List.length rows = 10%nat).
Proof. apply handler_ListOrders_first_page. Qed.

Lemma handler_ListOrders_defaults_witness :
  let req := dto.CreateOrderRequest.mk 1 F32.zero 0 F32.zero
               [dto.OrderItemInput.mk 7 1] in
  let w := Service.run Scenario.D Scenario.world0_plain
             [Service.CreateOrder req; Service.CreateOrder req;
              Service.CreateOrder req] in
  exists rows,
    fst (OrderGRPCHandler.ListOrders (orderpb.ListOrdersRequest.mk (-5) 0 0) w)
    = Ok (orderpb.ListOrdersResponse.mk
            (map (fun o =>
                    OrderGRPCHandler.mapOrderToPB
                      (Some (OrderRepository.with_items o (domain.Order.ID o)
                               (store.items_of (db w) (domain.Order.ID o)))))
                 rows)
            3)
    /\ (List.length rows <= 10)%nat.
Proof.
  cbv zeta.
  set (w := Service.run Scenario.D Scenario.world0_plain _).
  assert (Hids : map domain.Order.ID (store.orders (db w)) = [1; 2; 3])
    by (vm_compute; reflexivity).
  destruct (handler_ListOrders_defaults (-5) w) as (rows & E & Hlen & _).
  - vm_compute. reflexivity.
  - rewrite Hids. repeat constructor; cbn; intuition discriminate.
  - vm_compute. reflexivity.
  - split; [vm_compute; discriminate|vm_compute; reflexivity].
  - exists rows;
      split; [rewrite E; cbn [fst]; do 2 f_equal; vm_compute; reflexivity
             |exact Hlen].
Defined.

(** * Adding to an order that cannot take the item *)
Section AddFailures.
Import domain dto store Integrity OrderUsecase.
Context {R : Type} (D : Downstream R).

Lemma insert_item_unknown_order db it :
  has_order_id db (OrderItem.OrderID it) = false ->
  exists db', insert_item db it = (Err DriverError, db') /\ sameRows db db'.
Proof.
  intros Hno. unfold insert_item.
  pose proof (next_fault_rows db) as ((Hro & Hri) & _).
  destruct (next_fault db) as [fault d0]; cbn in Hro, Hri.
  destruct fault.
  - eexists. split; [reflexivity|]. split; assumption.
  - unfold has_order_id in *. cbn. rewrite Hro, Hno. cbn.
    rewrite orb_true_r. eexists. split; [reflexivity|].
    split; cbn; [reflexivity|assumption].
Qed.

Lemma usecase_AddOrderItem_unknown_order req (w : World R) :
  has_order_id (db w) (AddOrderItemRequest.OrderID req) = false ->
  (exists e, fst (AddOrderItem D req w) = Err e
             /\ (e = DriverError
                 \/ fst (ensureProductExists D
                           (AddOrderItemRequest.ProductID req) w) = Err e))
  /\ sameRows (db w) (db (snd (AddOrderItem D req w))).
Proof.
  intros Hno. unfold AddOrderItem.
  pose proof (ensureProductExists_db D (AddOrderItemRequest.ProductID req) w) as Hdb.
  destruct (ensureProductExists D (AddOrderItemRequest.ProductID req) w)
    as [[product|e] w0]; cbn in Hdb.
  - unfold OrderRepository.AddOrderItem.
    match goal with
    | |- context [insert_item ?d ?i] =>
        destruct (insert_item_unknown_order d i) as (d' & E & Hsame)
    end; [cbn; now rewrite Hdb|].
    rewrite E. cbn. rewrite Hdb in Hsame. split; [eauto|exact Hsame].
  - cbn. split; [eauto|]. rewrite Hdb. apply sameRows_refl.
Qed.

End AddFailures.

(** X12: no item is added to an order that does not exist.  When no
    order row has the request's order id, [AddOrderItem] returns an
    error, the product service's if the product validation fails and the
    driver's otherwise (the item row would reference no order), and
    every order and item row is as it was. *)
Theorem AddOrderItem_unknown_order {R : Type} (D : Downstream R)
    (req : dto.AddOrderItemRequest.t) (w : World R) :
  store.has_order_id (db w) (dto.AddOrderItemRequest.OrderID req) = false ->
  (exists e,
      fst (OrderUsecase.AddOrderItem D req w) = Err e
      /\ (e = DriverError
          \/ fst (OrderUsecase.ensureProductExists D
                    (dto.AddOrderItemRequest.ProductID req) w) = Err e))
  /\ Integrity.sameRows (db w) (db (snd (OrderUsecase.AddOrderItem D req w))).
Proof. apply usecase_AddOrderItem_unknown_order. Qed.

Lemma AddOrderItem_unknown_order_witness :
  fst (OrderUsecase.AddOrderItem Scenario.D
         (dto.AddOrderItemRequest.mk 4 7 1) Scenario.world0)
  = Err DriverError
  /\ db (snd (OrderUsecase.AddOrderItem Scenario.D
                (dto.AddOrderItemRequest.mk 4 7 1) Scenario.world0))
     = store.mkDB [] [] 0 1 [] true.
Proof.
  destruct (AddOrderItem_unknown_order Scenario.D
              (dto.AddOrderItemRequest.mk 4 7 1) Scenario.world0)
    as ((e & E & _) & _); [reflexivity|].
  split; vm_compute; reflexivity.
Defined.

Section AddInterrupted.
Import domain dto store Integrity OrderUsecase.
Context {R : Type} (D : Downstream R).

Lemma insert_item_script db it rest :
  faults db = false :: rest ->
  ids_from_sequences db ->
  has_order_id db (OrderItem.OrderID it) = true ->
  insert_item db it
  = (Ok (order_items_id_seq db + 1),
     mkDB (orders db)
          (order_items db ++ [with_item_id it (order_items_id_seq db + 1)])
          (orders_id_seq db) (order_items_id_seq db + 1) rest
          (save_associations db)).
Proof.
  intros Hf [_ Hids] Href. unfold insert_item, next_fault. rewrite Hf.
  assert (Hfresh : has_item_id db (order_items_id_seq db + 1) = false)
    by (apply has_item_id_fresh; auto; lia).
  unfold has_item_id, has_order_id in *. cbn. now rewrite Hfresh, Href.
Qed.

Lemma usecase_AddOrderItem_interrupted req (w w0 : World R) product rest :
  ensureProductExists D (AddOrderItemRequest.ProductID req) w = (Ok product, w0) ->
  has_order_id (db w) (AddOrderItemRequest.OrderID req) = true ->
  ids_from_sequences (db w) ->
  faults (db w) = false :: true :: rest ->
  exists w',
    AddOrderItem D req w = (Err DriverError, w')
    /\ orders (db w') = orders (db w)
    /\ order_items (db w')
       = order_items (db w)
         ++ [OrderItem.mk (order_items_id_seq (db w) + 1) false
               (AddOrderItemRequest.OrderID req)
               (AddOrderItemRequest.ProductID req)
               (AddOrderItemRequest.Quantity req) (productpb.Price product)
               (F32.mul (productpb.Price product)
                  (F32.of_int (AddOrderItemRequest.Quantity req)))].
Proof.
  intros Hp Href Hids Hf. unfold AddOrderItem.
  pose proof (ensureProductExists_db D (AddOrderItemRequest.ProductID req) w) as Hdb.
  rewrite Hp in *. cbn in Hdb. unfold OrderRepository.AddOrderItem.
  rewrite Hdb.
  rewrite (insert_item_script (db w) _ (true :: rest)); auto.
  unfold recompute_total, OrderRepository.GetOrderByID, next_fault. cbn.
  eexists. split; [reflexivity|]. cbn. split; reflexivity.
Qed.

End AddInterrupted.

(** X13: [AddOrderItem] is not all or nothing.  Its statements run
    outside a transaction: when the insert of the item succeeds and the
    statement that reloads the order fails, the call returns the driver's
    error, yet the item row stays stored, and no order row, so no total,
    has changed. *)
Theorem AddOrderItem_interrupted_keeps_item {R : Type} (D : Downstream R)
    (req : dto.AddOrderItemRequest.t) (w w0 : World R)
    (product : productpb.Product) (rest : list bool) :
  OrderUsecase.ensureProductExists D (dto.AddOrderItemRequest.ProductID req) w
  = (Ok product, w0) ->
  store.has_order_id (db w) (dto.AddOrderItemRequest.OrderID req) = true ->
  Integrity.ids_from_sequences (db w) ->
  store.faults (db w) = false :: true :: rest ->
  exists w',
    OrderUsecase.AddOrderItem D req w = (Err DriverError, w')
    /\ store.orders (db w') = store.orders (db w)
    /\ store.order_items (db w')
       = store.order_items (db w)
         ++ [domain.OrderItem.mk (store.order_items_id_seq (db w) + 1) false
               (dto.AddOrderItemRequest.OrderID req)
               (dto.AddOrderItemRequest.ProductID req)
               (dto.AddOrderItemRequest.Quantity req) (productpb.Price product)
               (F32.mul (productpb.Price product)
                  (F32.of_int (dto.AddOrderItemRequest.Quantity req)))].
Proof. apply usecase_AddOrderItem_interrupted. Qed.

Lemma AddOrderItem_interrupted_keeps_item_witness :
  let d := store.mkDB
             [domain.Order.mk 1 false 1 F32.zero 0 F32.zero (F32.of_int 20)
                domain.OrderStatusPending []]
             [domain.OrderItem.mk 1 false 1 7 1 (F32.of_int 20) (F32.of_int 20)]
             1 1 [false; true] false in
  let w := with_db Scenario.world0 d in
  let req := dto.AddOrderItemRequest.mk 1 8 2 in
  fst (OrderUsecase.AddOrderItem Scenario.D req w) = Err DriverError
  /\ map domain.OrderItem.ProductID
         (store.order_items (db (snd (OrderUsecase.AddOrderItem Scenario.D req w))))
     = [7; 8]
  /\ store.orders (db (snd (OrderUsecase.AddOrderItem Scenario.D req w)))
     = store.orders d.
Proof.
  cbv zeta.
  set (d := store.mkDB _ _ 1 1 [false; true] false).
  set (w := with_db Scenario.world0 d).
  set (req := dto.AddOrderItemRequest.mk 1 8 2).
  destruct (AddOrderItem_interrupted_keeps_item Scenario.D req w
              (snd (OrderUsecase.ensureProductExists Scenario.D 8 w))
              (productpb.mkProduct (F32.of_int 5)) [])
    as (w' & E & Ho & Hi).
  - apply pair_eta. vm_compute. reflexivity.
  - reflexivity.
  - split; cbn; intros x [<-|[]]; cbn; lia.
  - reflexivity.
  - rewrite E. cbn [fst snd]. rewrite Ho, Hi. repeat split.
Defined.

(** * Ids of new orders *)
Section FreshIds.
Import domain dto store Integrity OrderUsecase.
Context {R : Type} (D : Downstream R).

Lemma usecase_CreateOrder_later req req' (w w1 w2 : World R) o1 o2 cs :
  well_formed (db w) ->
  CreateOrder D req w = (Ok o1, w1) ->
  CreateOrder D req' (Service.run D w1 cs) = (Ok o2, w2) ->
  Order.ID o1 < Order.ID o2
  /\ (exists row1, In row1 (orders (db w2))
                   /\ Order.ID row1 = Order.ID o1
                   /\ Order.UserID row1 = CreateOrderRequest.UserID req)
  /\ (exists row2, In row2 (orders (db w2))
                   /\ Order.ID row2 = Order.ID o2
                   /\ Order.UserID row2 = CreateOrderRequest.UserID req').
Proof.
  intros Hw H1 H2.
  pose proof (usecase_CreateOrder_keeps D req w) as [_ Hw1].
  rewrite H1 in Hw1. cbn in Hw1. specialize (Hw1 Hw).
  destruct (usecase_CreateOrder_ok D req w w1 o1 H1)
    as (_ & _ & Ho1 & _ & _ & Hu1 & _).
  destruct (run_keeps D cs w1) as [Hg _].
  destruct (usecase_CreateOrder_ok D req' _ w2 o2 H2)
    as (_ & Hid2 & Ho2 & _ & _ & Hu2 & _).
  assert (Hin1 : In (order_row o1 (Order.ID o1)) (orders (db w1)))
    by (rewrite Ho1; apply in_or_app; right; now left).
  split.
  { destruct Hw1 as (Hb & _). specialize (Hb _ Hin1). cbn in Hb.
    destruct Hg as (_ & _ & Hs & _). lia. }
  split.
  { destruct Hg as (Hex & _).
    destruct (extends_In _ _ _ _ Hex Hin1) as (row & Hin & Hk & _).
    exists row. split; [rewrite Ho2; apply in_or_app; now left|].
    unfold order_key in Hk. cbn in Hk. inversion Hk. split; congruence. }
  exists (order_row o2 (Order.ID o2)).
  split; [rewrite Ho2; apply in_or_app; right; now left|]. cbn. auto.
Qed.

End FreshIds.

(** X14: ids of orders are never reused, and a repeated request is a new
    order.  On a well-formed store, an order [CreateOrder] creates after
    another one, whatever calls were served in between, gets a larger id,
    and both orders are stored, each for the user of its request; so the
    same request sent twice creates two orders. *)
Theorem CreateOrder_assigns_fresh_ids {R : Type} (D : Downstream R)
    (req req' : dto.CreateOrderRequest.t) (w w1 w2 : World R)
    (o1 o2 : domain.Order.t) (cs : list Service.Call) :
  Integrity.well_formed (db w) ->
  OrderUsecase.CreateOrder D req w = (Ok o1, w1) ->
  OrderUsecase.CreateOrder D req' (Service.run D w1 cs) = (Ok o2, w2) ->
  domain.Order.ID o1 < domain.Order.ID o2
  /\ (exists row1, In row1 (store.orders (db w2))
                   /\ domain.Order.ID row1 = domain.Order.ID o1
                   /\ domain.Order.UserID row1 = dto.CreateOrderRequest.UserID req)
  /\ (exists row2, In row2 (store.orders (db w2))
                   /\ domain.Order.ID row2 = domain.Order.ID o2
                   /\ domain.Order.UserID row2
                      = dto.CreateOrderRequest.UserID req').
Proof. apply usecase_CreateOrder_later. Qed.

Lemma CreateOrder_assigns_fresh_ids_witness :
  let req := dto.CreateOrderRequest.mk 1 F32.zero 0 F32.zero
               [dto.OrderItemInput.mk 7 1] in
  let first := OrderUsecase.CreateOrder Scenario.D req Scenario.world0 in
  let second := OrderUsecase.CreateOrder Scenario.D req (snd first) in
  exists o1 o2,
    fst first = Ok o1 /\ fst second = Ok o2
    /\ domain.Order.ID o1 < domain.Order.ID o2.
Proof.
  cbv zeta.
  set (req := dto.CreateOrderRequest.mk 1 F32.zero 0 F32.zero
                [dto.OrderItemInput.mk 7 1]).
  set (first := OrderUsecase.CreateOrder Scenario.D req Scenario.world0).
  set (second := OrderUsecase.CreateOrder Scenario.D req (snd first)).
  destruct (fst first) as [o1|e] eqn:E1; [|vm_compute in E1; discriminate E1].
  destruct (fst second) as [o2|e] eqn:E2; [|vm_compute in E2; discriminate E2].
  exists o1, o2. split; [reflexivity|]. split; [reflexivity|].
  apply pair_eta in E1. apply pair_eta in E2.
  destruct (CreateOrder_assigns_fresh_ids Scenario.D req req Scenario.world0
              (snd first) (snd second) o1 o2 []) as (Hlt & _).
  - unfold Integrity.well_formed, Integrity.references_ok. cbn.
    repeat split; try lia; try (intros ? []); constructor.
  - exact E1.
  - exact E2.
  - exact Hlt.
Defined.


(** * The breaker's sample and its counting window *)
Section SampleGuard.
Import gobreaker grpcmiddleware Trace.
Variable cfg : CircuitBreakerConfig.

(** A closed breaker admits the call, whatever it has counted. *)
Lemma closed_call_admitted cb c :
  state cb = StateClosed ->
  fst (call cb c) = (Some tt, outcome c).
Proof.
  intros Hs. destruct cb as [nm mr iv to rt isS st gen cnt ex].
  cbn in Hs; subst st.
  unfold call, Execute, beforeRequest, currentState; cbn.
  destruct (negb (ex =? 0) && (ex <? issued c)); reflexivity.
Qed.

Lemma fresh_calls_below_MinRequests name t0 cs :
  let cb0 := NewCircuitBreaker (settings name cfg) t0 in
  MinRequests cfg < 2 ^ 32 ->
  Z.of_nat (List.length cs) < MinRequests cfg ->
  Forall (inWindow cb0) cs ->
  exists c',
    calls cb0 cs = with_counts cb0 c'
    /\ Requests c' = Z.of_nat (List.length cs)
    /\ TotalFailures c' = failures cs.
Proof.
  intros cb0 Hmax Hlen Hw.
  destruct (NewCircuitBreaker_fresh cfg name t0) as (Hs & Hr & Hi & Hc & _).
  fold cb0 in Hs, Hr, Hi, Hc.
  destruct (calls_below_MinRequests cfg cs cb0) as (c' & E & Hreq & Htf); auto.
  - rewrite Hc; cbn; lia.
  - rewrite Hc in Hreq, Htf; cbn in Hreq, Htf. exists c'. auto.
Qed.

(** A call issued after the counting window has run out starts a new
    window: what was counted before is forgotten. *)
Lemma call_after_window cb c :
  state cb = StateClosed ->
  readyToTrip cb = ReadyToTrip cfg ->
  isSuccessful cb = IsSuccessful ->
  expiry cb <> 0 ->
  expiry cb < issued c ->
  0 < interval cb ->
  issued c + interval cb <> 0 ->
  completed c <= issued c + interval cb ->
  1 < MinRequests cfg ->
  let cb' := snd (call cb c) in
  state cb' = StateClosed
  /\ Requests (counts cb') = 1
  /\ TotalFailures (counts cb') = failures [c]
  /\ expiry cb' = issued c + interval cb
  /\ generation cb' = uint64 (generation cb + 1).
Proof.
  intros Hs Hr Hi He Hlt Hiv Hnz Hc Hmin.
  destruct cb as [nm mr iv to rt isS st gen cnt ex].
  cbn in Hs, Hr, Hi, He, Hlt, Hiv, Hnz, Hc; subst st rt isS.
  unfold call, Execute, beforeRequest, currentState; cbn.
  replace (ex =? 0) with false by (symmetry; apply Z.eqb_neq; exact He).
  replace (ex <? issued c) with true by (symmetry; apply Z.ltb_lt; exact Hlt).
  cbn. unfold toNewGeneration; cbn.
  replace (iv =? 0) with false by (symmetry; apply Z.eqb_neq; lia).
  cbn. unfold afterRequest, currentState; cbn.
  replace (issued c + iv =? 0) with false
    by (symmetry; apply Z.eqb_neq; exact Hnz).
  replace (issued c + iv <? completed c) with false
    by (symmetry; apply Z.ltb_ge; exact Hc).
  cbn. rewrite Z.eqb_refl; cbn.
  unfold IsSuccessful, failures; cbn.
  destruct (isBreakerFailure (outcome c)); cbn; [|repeat split].
  unfold ReadyToTrip; cbn.
  replace (0 <? MinRequests cfg) with true by (symmetry; apply Z.ltb_lt; lia).
  cbn.
  replace (1 <? MinRequests cfg) with true
    by (symmetry; apply Z.ltb_lt; exact Hmin).
  cbn. repeat split.
Qed.
End SampleGuard.

(** X15: the breaker does not judge a sample smaller than [MinRequests].
    On a new breaker, fewer than [MinRequests] calls made within one
    counting window leave it closed, however many of them fail, even all;
    they are all counted, and the next call is admitted: the target is
    invoked and its outcome returned. *)
Theorem breaker_waits_for_MinRequests
    (cfg : grpcmiddleware.CircuitBreakerConfig) (name : string)
    (t0 : gobreaker.Time) (cs : list Trace.Call) (next : Trace.Call) :
  let cb0 :=
    gobreaker.NewCircuitBreaker (grpcmiddleware.settings name cfg) t0 in
  grpcmiddleware.MinRequests cfg < 2 ^ 32 ->
  Z.of_nat (List.length cs) < grpcmiddleware.MinRequests cfg ->
  Forall (Trace.inWindow cb0) cs ->
  let cb := Trace.calls cb0 cs in
  gobreaker.state cb = gobreaker.StateClosed
  /\ gobreaker.Requests (gobreaker.counts cb) = Z.of_nat (List.length cs)
  /\ gobreaker.TotalFailures (gobreaker.counts cb) = Trace.failures cs
  /\ fst (Trace.call cb next) = (Some tt, Trace.outcome next).
Proof.
  intros cb0 Hmax Hlen Hw cb.
  destruct (fresh_calls_below_MinRequests cfg name t0 cs Hmax Hlen Hw)
    as (c' & E & Hreq & Htf).
  fold cb0 in E.
  assert (Hs : gobreaker.state cb = gobreaker.StateClosed).
  { unfold cb. rewrite E. reflexivity. }
  split; [exact Hs|].
  split; [unfold cb; rewrite E; exact Hreq|].
  split; [unfold cb; rewrite E; exact Htf|].
  now apply closed_call_admitted.
Qed.

Lemma breaker_waits_for_MinRequests_witness :
  let down := Some (StatusError Unavailable "down") in
  let cs := [Trace.mkCall 2000 2100 down; Trace.mkCall 3000 3100 down] in
  let cb := Trace.calls
              (gobreaker.NewCircuitBreaker
                 (grpcmiddleware.settings "user" (Scenario.cfg 3 Scenario.half))
                 1000) cs in
  Trace.failures cs = 2
  /\ gobreaker.state cb = gobreaker.StateClosed
  /\ fst (Trace.call cb (Trace.mkCall 4000 4100 None)) = (Some tt, None).
Proof.
  cbv zeta.
  destruct (breaker_waits_for_MinRequests (Scenario.cfg 3 Scenario.half)
              "user" 1000
              [Trace.mkCall 2000 2100 (Some (StatusError Unavailable "down"));
               Trace.mkCall 3000 3100 (Some (StatusError Unavailable "down"))]
              (Trace.mkCall 4000 4100 None))
    as (Hs & _ & _ & Hcall).
  - cbn; lia.
  - cbn; lia.
  - repeat (apply Forall_cons; [right; cbn; lia|]); apply Forall_nil.
  - split; [reflexivity|]. split; [exact Hs|exact Hcall].
Defined.

(** X16: failures older than [Interval] are forgotten.  On a new breaker
    with a positive [Interval] and [MinRequests] above one, after fewer
    than [MinRequests] calls in the first counting window, whatever their
    outcomes, a call issued after that window has run out starts a new
    one: when it returns within [Interval] the breaker is closed and has
    counted this call alone, and the new window ends [Interval] after the
    call was issued. *)
Theorem breaker_window_restarts
    (cfg : grpcmiddleware.CircuitBreakerConfig) (name : string)
    (t0 : gobreaker.Time) (cs : list Trace.Call) (c : Trace.Call) :
  let cb0 :=
    gobreaker.NewCircuitBreaker (grpcmiddleware.settings name cfg) t0 in
  0 <= t0 ->
  0 < grpcmiddleware.cfgInterval cfg ->
  1 < grpcmiddleware.MinRequests cfg < 2 ^ 32 ->
  Z.of_nat (List.length cs) < grpcmiddleware.MinRequests cfg ->
  Forall (Trace.inWindow cb0) cs ->
  t0 + grpcmiddleware.cfgInterval cfg < Trace.issued c ->
  Trace.completed c <= Trace.issued c + grpcmiddleware.cfgInterval cfg ->
  let cb := Trace.calls cb0 (cs ++ [c]) in
  gobreaker.state cb = gobreaker.StateClosed
  /\ gobreaker.Requests (gobreaker.counts cb) = 1
  /\ gobreaker.TotalFailures (gobreaker.counts cb) = Trace.failures [c]
  /\ gobreaker.expiry cb = Trace.issued c + grpcmiddleware.cfgInterval cfg.
Proof.
  intros cb0 Ht0 Hiv [Hmin Hmax] Hlen Hw Hafter Hret cb.
  destruct (fresh_calls_below_MinRequests cfg name t0 cs Hmax Hlen Hw)
    as (c' & E & _).
  fold cb0 in E.
  assert (Hi : gobreaker.interval cb0 = grpcmiddleware.cfgInterval cfg).
  { unfold cb0, gobreaker.NewCircuitBreaker; cbn.
    replace (grpcmiddleware.cfgInterval cfg <=? 0) with false
      by (symmetry; apply Z.leb_gt; exact Hiv).
    reflexivity. }
  assert (He : gobreaker.expiry cb0 = t0 + grpcmiddleware.cfgInterval cfg).
  { unfold cb0, gobreaker.NewCircuitBreaker, gobreaker.toNewGeneration; cbn.
    replace (grpcmiddleware.cfgInterval cfg <=? 0) with false
      by (symmetry; apply Z.leb_gt; exact Hiv).
    replace (grpcmiddleware.cfgInterval cfg =? 0) with false
      by (symmetry; apply Z.eqb_neq; lia).
    reflexivity. }
  unfold cb, Trace.calls. rewrite fold_left_app. cbn [fold_left].
  fold (Trace.calls cb0 cs). rewrite E.
  destruct (call_after_window cfg (gobreaker.with_counts cb0 c') c)
    as (H1 & H2 & H3 & H4 & _); cbn [gobreaker.with_counts gobreaker.state
      gobreaker.readyToTrip gobreaker.isSuccessful gobreaker.expiry
      gobreaker.interval]; try rewrite Hi; try rewrite He; try lia;
    try reflexivity.
  cbn [gobreaker.with_counts gobreaker.interval] in H4. rewrite Hi in H4. auto.
Qed.

Lemma breaker_window_restarts_witness :
  let down := Some (StatusError Unavailable "down") in
  let cs := [Trace.mkCall 2000 2100 down; Trace.mkCall 3000 3100 down] in
  let c := Trace.mkCall 70000000000 70000000100 down in
  let cb := Trace.calls
              (gobreaker.NewCircuitBreaker
                 (grpcmiddleware.settings "user" (Scenario.cfg 3 Scenario.half))
                 1000) (cs ++ [c]) in
  gobreaker.state cb = gobreaker.StateClosed
  /\ gobreaker.Requests (gobreaker.counts cb) = 1.
Proof.
  cbv zeta.
  destruct (breaker_window_restarts (Scenario.cfg 3 Scenario.half)
              "user" 1000
              [Trace.mkCall 2000 2100 (Some (StatusError Unavailable "down"));
               Trace.mkCall 3000 3100 (Some (StatusError Unavailable "down"))]
              (Trace.mkCall 70000000000 70000000100
                 (Some (StatusError Unavailable "down"))))
    as (Hs & Hreq & _).
  - lia.
  - cbn; lia.
  - cbn; lia.
  - cbn; lia.
  - repeat (apply Forall_cons; [right; cbn; lia|]); apply Forall_nil.
  - cbn; lia.
  - cbn; lia.
  - split; [exact Hs|exact Hreq].
Defined.

(** * The configuration *)
Section ConfigLoad.
Import config.
Variable Sscanf_d : string -> option Z.
Variable Sscanf_f : string -> option F64.t.

Lemma eqb_empty (s : string) : String.eqb s "" = false <-> s <> ""%string.
Proof. apply String.eqb_neq. Qed.

(** A variable with a default is missing from the configuration only
    when it is set to the empty string. *)
Lemma GetEnv_empty (env : Env) key fallback :
  fallback <> ""%string ->
  (GetEnv env key fallback <> ""%string <-> env key <> Some ""%string).
Proof.
  intros Hf. unfold GetEnv. destruct (env key) as [v|].
  - split; intros H; congruence.
  - split; intros _; [discriminate|exact Hf].
Qed.

Lemma Validate_None c :
  Validate c = None
  <-> DBDriver c <> ""%string /\ DBDSN c <> ""%string
      /\ GRPCPort c <> ""%string /\ AppPort c <> ""%string
      /\ ProductServiceGRPCAddr c <> ""%string
      /\ UserServiceGRPCAddr c <> ""%string
      /\ InternalAuthToken c <> ""%string.
Proof.
  unfold Validate.
  destruct (String.eqb_spec (DBDriver c) "");
    [split; [discriminate|intros (H & _); contradiction]|].
  destruct (String.eqb_spec (DBDSN c) "");
    [split; [discriminate|intros (_ & H & _); contradiction]|].
  destruct (String.eqb_spec (GRPCPort c) "");
    [split; [discriminate|intros (_ & _ & H & _); contradiction]|].
  destruct (String.eqb_spec (AppPort c) "");
    [split; [discriminate|intros (_ & _ & _ & H & _); contradiction]|].
  destruct (String.eqb_spec (ProductServiceGRPCAddr c) "");
    [split; [discriminate|intros (_ & _ & _ & _ & H & _); contradiction]|].
  destruct (String.eqb_spec (UserServiceGRPCAddr c) "");
    [split; [discriminate|intros (_ & _ & _ & _ & _ & H & _); contradiction]|].
  destruct (String.eqb_spec (InternalAuthToken c) "");
    [split; [discriminate|intros (_ & _ & _ & _ & _ & _ & H); contradiction]|].
  split; auto 10.
Qed.

(** [Load] returns the configuration it read or the error of
    [Validate]. *)
Lemma Load_cases env :
  exists cfg,
    DBDriver cfg = GetEnv env "DB_DRIVER" "postgres"
    /\ DBDSN cfg
       = GetEnv env "DB_DSN"
           "host=localhost user=postgres password=postgres dbname=orderservice port=5432 sslmode=disable TimeZone=UTC"
    /\ GRPCPort cfg = GetEnv env "GRPC_PORT" "50055"
    /\ AppPort cfg = GetEnv env "APP_PORT" "8085"
    /\ ProductServiceGRPCAddr cfg
       = GetEnv env "PRODUCT_SERVICE_GRPC_ADDR" "localhost:50053"
    /\ UserServiceGRPCAddr cfg
       = GetEnv env "USER_SERVICE_GRPC_ADDR" "localhost:50051"
    /\ InternalAuthToken cfg = GetEnv env "INTERNAL_AUTH_TOKEN" ""
    /\ CircuitBreakerEnabled cfg = getEnvBool env "CB_ENABLED" true
    /\ Load Sscanf_d Sscanf_f env
       = match Validate cfg with Some err => Err err | None => Ok cfg end.
Proof.
  unfold Load.
  match goal with
  | |- context [match Validate ?c with _ => _ end] => exists c
  end.
  repeat split.
Qed.

Lemma token_set (env : Env) :
  GetEnv env "INTERNAL_AUTH_TOKEN" "" <> ""%string
  <-> exists token,
        env "INTERNAL_AUTH_TOKEN"%string = Some token /\ token <> ""%string.
Proof.
  unfold GetEnv. destruct (env "INTERNAL_AUTH_TOKEN"%string) as [v|].
  - split; [intros H; exists v; auto|intros (t & E & H); congruence].
  - split; [congruence|intros (t & E & _); discriminate].
Qed.

Lemma Load_Ok_iff env :
  (exists c, Load Sscanf_d Sscanf_f env = Ok c)
  <-> (exists token,
         env "INTERNAL_AUTH_TOKEN"%string = Some token /\ token <> ""%string)
      /\ (forall key,
            In key ["DB_DRIVER"; "DB_DSN"; "GRPC_PORT"; "APP_PORT";
                    "PRODUCT_SERVICE_GRPC_ADDR"; "USER_SERVICE_GRPC_ADDR"]%string
            -> env key <> Some ""%string).
Proof.
  destruct (Load_cases env) as (cfg & H1 & H2 & H3 & H4 & H5 & H6 & H7 & _ & HL).
  rewrite HL. pose proof (Validate_None cfg) as HV.
  rewrite H1, H2, H3, H4, H5, H6, H7 in HV.
  rewrite !GetEnv_empty in HV by discriminate.
  rewrite token_set in HV.
  split.
  - intros (c & Hc). destruct (Validate cfg); [discriminate|].
    destruct (proj1 HV eq_refl) as (A1 & A2 & A3 & A4 & A5 & A6 & A7).
    split; [exact A7|].
    intros key Hk. cbn in Hk.
    repeat (destruct Hk as [<-|Hk]; [assumption|]). destruct Hk.
  - intros (Ht & Hk).
    assert (E : Validate cfg = None).
    { apply HV. repeat split; try exact Ht; apply Hk; cbn; auto 10. }
    rewrite E. eauto.
Qed.

Lemma Load_token_missing env :
  (forall key,
     In key ["DB_DRIVER"; "DB_DSN"; "GRPC_PORT"; "APP_PORT";
             "PRODUCT_SERVICE_GRPC_ADDR"; "USER_SERVICE_GRPC_ADDR"]%string
     -> env key <> Some ""%string) ->
  (env "INTERNAL_AUTH_TOKEN"%string = None
   \/ env "INTERNAL_AUTH_TOKEN"%string = Some ""%string) ->
  Load Sscanf_d Sscanf_f env
  = Err (ErrorString "INTERNAL_AUTH_TOKEN is required").
Proof.
  intros Hk Ht.
  destruct (Load_cases env) as (cfg & H1 & H2 & H3 & H4 & H5 & H6 & H7 & _ & HL).
  rewrite HL. unfold Validate.
  rewrite H1, H2, H3, H4, H5, H6, H7.
  repeat match goal with
  | |- context [String.eqb (GetEnv env ?k ?f) ""] =>
      lazymatch f with
      | ""%string => fail
      | _ =>
          replace (String.eqb (GetEnv env k f) "") with false
            by (symmetry; apply eqb_empty; apply GetEnv_empty;
                [discriminate|apply Hk; cbn; auto 10])
      end
  end.
  unfold GetEnv. destruct Ht as [-> | ->]; reflexivity.
Qed.

(** The breaker is on unless [CB_ENABLED] is set to something other
    than the three words. *)
Lemma Load_breaker_off env c :
  Load Sscanf_d Sscanf_f env = Ok c ->
  (CircuitBreakerEnabled c = false
   <-> exists v, env "CB_ENABLED"%string = Some v
                 /\ v <> "true"%string /\ v <> "1"%string /\ v <> "yes"%string).
Proof.
  intros HLc.
  destruct (Load_cases env) as (cfg & _ & _ & _ & _ & _ & _ & _ & Hb & HL).
  rewrite HL in HLc. destruct (Validate cfg); [discriminate|].
  inversion HLc; subst c; clear HLc. rewrite Hb. unfold getEnvBool.
  destruct (env "CB_ENABLED"%string) as [v|].
  - destruct (String.eqb_spec v "true"); cbn;
      [split; [discriminate|intros (v' & E & A & _); congruence]|].
    destruct (String.eqb_spec v "1"); cbn;
      [split; [discriminate|intros (v' & E & _ & A & _); congruence]|].
    destruct (String.eqb_spec v "yes"); cbn;
      [split; [discriminate|intros (v' & E & _ & _ & A); congruence]|].
    split; [intros _; exists v; auto|reflexivity].
  - split; [discriminate|intros (v' & E & _); discriminate].
Qed.
End ConfigLoad.

(** X17: of all its variables the configuration requires only the
    token.  [Load] returns a configuration exactly when
    [INTERNAL_AUTH_TOKEN] is set to a non-empty text and none of
    [DB_DRIVER], [DB_DSN], [GRPC_PORT], [APP_PORT],
    [PRODUCT_SERVICE_GRPC_ADDR], [USER_SERVICE_GRPC_ADDR] is set to the
    empty text (unset, each takes its default); numbers that do not scan
    never make it fail.  When only the token is missing or empty the
    error is the one that names it. *)
Theorem Load_requires_the_token
    (Sscanf_d : string -> option Z) (Sscanf_f : string -> option F64.t)
    (env : config.Env) :
  let defaulted :=
    ["DB_DRIVER"; "DB_DSN"; "GRPC_PORT"; "APP_PORT";
     "PRODUCT_SERVICE_GRPC_ADDR"; "USER_SERVICE_GRPC_ADDR"]%string in
  let token_given :=
    exists token,
      env "INTERNAL_AUTH_TOKEN"%string = Some token /\ token <> ""%string in
  let none_emptied :=
    forall key, In key defaulted -> env key <> Some ""%string in
  ((exists c, config.Load Sscanf_d Sscanf_f env = Ok c)
   <-> token_given /\ none_emptied)
  /\ (none_emptied /\ ~ token_given
      -> config.Load Sscanf_d Sscanf_f env
         = Err (ErrorString "INTERNAL_AUTH_TOKEN is required")).
Proof.
  cbv zeta. split; [apply Load_Ok_iff|].
  intros [Hk Hn]. apply Load_token_missing; [exact Hk|].
  destruct (env "INTERNAL_AUTH_TOKEN"%string) as [v|] eqn:E; [|now left].
  right. destruct (String.eqb_spec v ""); [congruence|].
  exfalso. apply Hn. exists v. auto.
Qed.

Lemma Load_requires_the_token_witness :
  let scan_d := fun _ : string => @None Z in
  let scan_f := fun _ : string => @None F64.t in
  let env := fun key : string =>
    if String.eqb key "DB_MAX_IDLE_CONNS" then Some "many"%string else None in
  config.Load scan_d scan_f env
  = Err (ErrorString "INTERNAL_AUTH_TOKEN is required").
Proof.
  cbv zeta.
  apply (Load_requires_the_token (fun _ => None) (fun _ => None)
           (fun key => if String.eqb key "DB_MAX_IDLE_CONNS"
                       then Some "many"%string else None)).
  split.
  - intros key Hk. cbn in Hk.
    repeat (destruct Hk as [<-|Hk]; [cbn; discriminate|]). destruct Hk.
  - intros (token & E & _). cbn in E. discriminate E.
Defined.

(** * Connections without a breaker *)
Section PassThrough.
Import domain dto grpcmiddleware OrderUsecase.
Context {R : Type} (D : Downstream R).

Lemma with_db_off (w : World R) d : pass_through w -> pass_through (with_db w d).
Proof. intros H; exact H. Qed.

Lemma userClient_off id (w : World R) :
  pass_through w ->
  pass_through (snd (userClient_GetUserByID D id w))
  /\ fst (userClient_GetUserByID D id w)
     = fst (UserService_GetUserByID D id (remote w)).
Proof.
  intros [Hu Hp]. unfold userClient_GetUserByID, intercept. rewrite Hu.
  destruct (UserService_GetUserByID D id (remote w)) as [e r']; cbn.
  repeat split; auto.
Qed.

Lemma productClient_off id (w : World R) :
  pass_through w -> pass_through (snd (productClient_GetProductByID D id w)).
Proof.
  intros [Hu Hp]. unfold productClient_GetProductByID, intercept. rewrite Hp.
  destruct (ProductService_GetProductByID D id (remote w)) as [[reply e] r'].
  destruct e; cbn; split; auto.
Qed.

Lemma ensureUserExists_off u (w : World R) :
  pass_through w ->
  pass_through (snd (ensureUserExists D u w))
  /\ fst (ensureUserExists D u w)
     = option_map (WrapError "user not found: ")
         (fst (UserService_GetUserByID D (int32 u) (remote w))).
Proof.
  intros H. destruct (userClient_off (int32 u) w H) as [Ho He].
  unfold ensureUserExists. rewrite <- He.
  destruct (userClient_GetUserByID D (int32 u) w) as [[e|] w1];
    cbn in *; auto.
Qed.

Lemma ensureProductExists_off p (w : World R) :
  pass_through w -> pass_through (snd (ensureProductExists D p w)).
Proof.
  intros H. pose proof (productClient_off (int64 p) w H) as Ho.
  unfold ensureProductExists.
  destruct (productClient_GetProductByID D (int64 p) w) as [[[pr|]|e] w1];
    cbn in *; auto.
Qed.

Lemma CreateOrder_items_off reqItems : forall items acc (w : World R),
  pass_through w -> pass_through (snd (CreateOrder_items D reqItems items acc w)).
Proof.
  induction reqItems as [|it rest IH]; intros items acc w H; cbn; [exact H|].
  pose proof (ensureProductExists_off (OrderItemInput.ProductID it) w H) as Ho.
  destruct (ensureProductExists D (OrderItemInput.ProductID it) w)
    as [[pr|e] w1]; cbn in Ho; [|exact Ho].
  now apply IH.
Qed.

Lemma recompute_total_off orderID (w : World R) :
  pass_through w -> pass_through (snd (recompute_total orderID w)).
Proof.
  intros H. unfold recompute_total.
  destruct (OrderRepository.GetOrderByID (db w) orderID) as [[o|e] d];
    [|exact H].
  destruct (OrderRepository.UpdateOrderTotal d (Order.ID o) _) as [[e|] d'];
    exact H.
Qed.

Lemma serve_off (w : World R) c : pass_through w -> pass_through (Service.serve D w c).
Proof.
  intros H. destruct c as [req|id|uid page perPage|req|oid iid|oid st]; cbn.
  - unfold CreateOrder.
    destruct (ensureUserExists_off (CreateOrderRequest.UserID req) w H)
      as [Ho _].
    destruct (ensureUserExists D (CreateOrderRequest.UserID req) w)
      as [[e|] w1]; cbn in Ho; [exact Ho|].
    pose proof (CreateOrder_items_off (CreateOrderRequest.Items req) []
                  F32.zero w1 Ho) as Ho2.
    destruct (CreateOrder_items D (CreateOrderRequest.Items req) [] F32.zero w1)
      as [[[items total]|e] w2]; cbn in Ho2; [|exact Ho2].
    match goal with
    | |- context [OrderRepository.CreateOrder ?d ?o] =>
        destruct (OrderRepository.CreateOrder d o) as [[[e|] o'] d']
    end; exact Ho2.
  - unfold GetOrderByID.
    destruct (OrderRepository.GetOrderByID (db w) id) as [[o|e] d]; exact H.
  - unfold ListOrders.
    destruct (OrderRepository.ListOrders (db w) uid page perPage)
      as [[[os total]|e] d]; exact H.
  - unfold AddOrderItem.
    pose proof (ensureProductExists_off (AddOrderItemRequest.ProductID req) w H)
      as Ho.
    destruct (ensureProductExists D (AddOrderItemRequest.ProductID req) w)
      as [[pr|e] w1]; cbn in Ho; [|exact Ho].
    match goal with
    | |- context [OrderRepository.AddOrderItem ?d ?i] =>
        destruct (OrderRepository.AddOrderItem d i) as [[[e|] i'] d']
    end; [exact Ho|].
    apply recompute_total_off. exact Ho.
  - unfold RemoveOrderItem.
    destruct (OrderRepository.RemoveOrderItem (db w) oid iid) as [[e|] d];
      [exact H|].
    apply recompute_total_off. exact H.
  - unfold UpdateOrderStatus.
    destruct (OrderRepository.UpdateOrderStatus (db w) oid st) as [[e|] d];
      [exact H|].
    destruct (OrderRepository.GetOrderByID d oid) as [[o|e] d']; exact H.
Qed.

Lemma run_off cs : forall w : World R, pass_through w -> pass_through (Service.run D w cs).
Proof.
  induction cs as [|c cs IH]; intros w H; [exact H|].
  apply IH. now apply serve_off.
Qed.

Lemma connect_off c d now (r : R) :
  config.CircuitBreakerEnabled c = false -> pass_through (config.connect c d now r).
Proof.
  intros E. unfold pass_through, config.connect, config.breakerConfig,
    CircuitBreakerUnaryClientInterceptor; cbn. rewrite E. split; reflexivity.
Qed.

Lemma connect_on c d now (r : R) :
  config.CircuitBreakerEnabled c = true ->
  exists cbu cbp,
    userConn (config.connect c d now r) = Some cbu
    /\ productConn (config.connect c d now r) = Some cbp
    /\ gobreaker.state cbu = gobreaker.StateClosed
    /\ gobreaker.state cbp = gobreaker.StateClosed.
Proof.
  intros E. unfold config.connect, config.breakerConfig,
    CircuitBreakerUnaryClientInterceptor; cbn. rewrite E. cbn.
  eexists _, _. repeat split.
Qed.

Lemma switched_off Sscanf_d Sscanf_f env c v d now (r : R) cs u :
  config.Load Sscanf_d Sscanf_f env = Ok c ->
  env "CB_ENABLED"%string = Some v ->
  ~ In v ["true"; "1"; "yes"]%string ->
  let w := Service.run D (config.connect c d now r) cs in
  userConn w = None /\ productConn w = None
  /\ fst (ensureUserExists D u w)
     = option_map (WrapError "user not found: ")
         (fst (UserService_GetUserByID D (int32 u) (remote w))).
Proof.
  intros HL Hv Hn w.
  assert (Hoff : pass_through w).
  { apply run_off, connect_off.
    apply (Load_breaker_off Sscanf_d Sscanf_f env c HL).
    exists v. cbn in Hn. repeat split; auto; intros ->; apply Hn; auto. }
  destruct (ensureUserExists_off u w Hoff) as [_ He].
  destruct Hoff as [Hu Hp]. auto.
Qed.

Lemma switched_on Sscanf_d Sscanf_f env c d now (r : R) :
  config.Load Sscanf_d Sscanf_f env = Ok c ->
  (env "CB_ENABLED"%string = None
   \/ exists v, env "CB_ENABLED"%string = Some v
                /\ In v ["true"; "1"; "yes"]%string) ->
  exists cbu cbp,
    userConn (config.connect c d now r) = Some cbu
    /\ productConn (config.connect c d now r) = Some cbp
    /\ gobreaker.state cbu = gobreaker.StateClosed
    /\ gobreaker.state cbp = gobreaker.StateClosed.
Proof.
  intros HL Hv. apply connect_on.
  destruct (config.CircuitBreakerEnabled c) eqn:E; [reflexivity|].
  apply (Load_breaker_off Sscanf_d Sscanf_f env c HL) in E.
  destruct E as (v & Ev & A1 & A2 & A3).
  destruct Hv as [Hv|(v' & Hv & Hin)]; [congruence|].
  rewrite Ev in Hv; inversion Hv; subst v'. cbn in Hin.
  destruct Hin as [<-|[<-|[<-|[]]]]; congruence.
Qed.
End PassThrough.

(** X18: [CB_ENABLED] switches the breakers of both connections.  When
    the variable is set to anything other than [true], [1] or [yes]
    (so also to [TRUE]), the process [main] builds from the loaded
    configuration has pass-through connections and keeps them, whatever
    calls it serves: no call is ever refused by a breaker, and the
    validation of a user returns what the user service answers for the
    id cut to 32 bits, wrapped when it is an error.  When the variable is
    unset or one of the three words, both connections start with a closed
    breaker. *)
Theorem CB_ENABLED_switches_breakers {R : Type} (D : Downstream R)
    (Sscanf_d : string -> option Z) (Sscanf_f : string -> option F64.t)
    (env : config.Env) (c : config.Config) (d : store.DB)
    (now : gobreaker.Time) (r : R) :
  config.Load Sscanf_d Sscanf_f env = Ok c ->
  (forall v cs u,
     env "CB_ENABLED"%string = Some v ->
     ~ In v ["true"; "1"; "yes"]%string ->
     let w := Service.run D (config.connect c d now r) cs in
     userConn w = None /\ productConn w = None
     /\ fst (OrderUsecase.ensureUserExists D u w)
        = option_map (WrapError "user not found: ")
            (fst (UserService_GetUserByID D (int32 u) (remote w))))
  /\ (env "CB_ENABLED"%string = None
      \/ (exists v, env "CB_ENABLED"%string = Some v
                    /\ In v ["true"; "1"; "yes"]%string) ->
      exists cbu cbp,
        userConn (config.connect c d now r) = Some cbu
        /\ productConn (config.connect c d now r) = Some cbp
        /\ gobreaker.state cbu = gobreaker.StateClosed
        /\ gobreaker.state cbp = gobreaker.StateClosed).
Proof.
  intros HL. split.
  - intros v cs u Hv Hn. now apply (switched_off D Sscanf_d Sscanf_f env c v).
  - intros Hv. now apply (switched_on Sscanf_d Sscanf_f env).
Qed.

Lemma CB_ENABLED_switches_breakers_witness :
  let env := fun key : string =>
    if String.eqb key "INTERNAL_AUTH_TOKEN" then Some "secret"%string
    else if String.eqb key "CB_ENABLED" then Some "TRUE"%string else None in
  let req := dto.CreateOrderRequest.mk 1 F32.zero 0 F32.zero
               [dto.OrderItemInput.mk 7 1] in
  exists c,
    config.Load (fun _ => None) (fun _ => None) env = Ok c
    /\ userConn (Service.run Scenario.D
                   (config.connect c Scenario.emptyDB 1000 Scenario.remoteDown)
                   [Service.CreateOrder req; Service.CreateOrder req])
       = None.
Proof.
  cbv zeta.
  set (env := fun key : string =>
    if String.eqb key "INTERNAL_AUTH_TOKEN" then Some "secret"%string
    else if String.eqb key "CB_ENABLED" then Some "TRUE"%string else None).
  destruct (config.Load (fun _ => None) (fun _ => None) env) as [c|e] eqn:E;
    [|vm_compute in E; discriminate E].
  exists c. split; [reflexivity|].
  destruct (CB_ENABLED_switches_breakers Scenario.D (fun _ => None)
              (fun _ => None) env c Scenario.emptyDB 1000 Scenario.remoteDown E)
    as [Hoff _].
  destruct (Hoff "TRUE"%string
              [Service.CreateOrder
                 (dto.CreateOrderRequest.mk 1 F32.zero 0 F32.zero
                    [dto.OrderItemInput.mk 7 1]);
               Service.CreateOrder
                 (dto.CreateOrderRequest.mk 1 F32.zero 0 F32.zero
                    [dto.OrderItemInput.mk 7 1])] 1) as (Hu & _).
  - reflexivity.
  - cbn. intros [H|[H|[H|[]]]]; discriminate H.
  - exact Hu.
Defined.

(** * Calls that stay inside the service *)
Section Quiet.
Import domain dto store OrderUsecase.
Context {R : Type} (D : Downstream R).

Lemma recompute_total_quiet orderID (w : World R) :
  let w' := snd (recompute_total orderID w) in
  remote w' = remote w /\ userConn w' = userConn w
  /\ productConn w' = productConn w.
Proof.
  unfold recompute_total.
  destruct (OrderRepository.GetOrderByID (db w) orderID) as [[o|e] d];
    [|cbn; auto].
  destruct (OrderRepository.UpdateOrderTotal d (Order.ID o) _) as [[e|] d'];
    cbn; auto.
Qed.

Lemma serve_quiet (w : World R) c :
  Service.validates c = false ->
  remote (Service.serve D w c) = remote w
  /\ userConn (Service.serve D w c) = userConn w
  /\ productConn (Service.serve D w c) = productConn w.
Proof.
  destruct c as [req|id|uid page perPage|req|oid iid|oid st]; cbn;
    intros Hv; try discriminate Hv.
  - unfold GetOrderByID.
    destruct (OrderRepository.GetOrderByID (db w) id) as [[o|e] d]; cbn; auto.
  - unfold ListOrders.
    destruct (OrderRepository.ListOrders (db w) uid page perPage)
      as [[[os total]|e] d]; cbn; auto.
  - unfold RemoveOrderItem.
    destruct (OrderRepository.RemoveOrderItem (db w) oid iid) as [[e|] d];
      [cbn; auto|].
    apply (recompute_total_quiet oid (with_db w d)).
  - unfold UpdateOrderStatus.
    destruct (OrderRepository.UpdateOrderStatus (db w) oid st) as [[e|] d];
      [cbn; auto|].
    destruct (OrderRepository.GetOrderByID d oid) as [[o|e] d']; cbn; auto.
Qed.

Lemma run_quiet cs : forall w : World R,
  existsb Service.validates cs = false ->
  remote (Service.run D w cs) = remote w
  /\ userConn (Service.run D w cs) = userConn w
  /\ productConn (Service.run D w cs) = productConn w.
Proof.
  induction cs as [|c cs IH]; intros w H; [cbn; auto|].
  cbn in H. apply orb_false_iff in H. destruct H as [Hc Hcs].
  cbn [Service.run fold_left].
  destruct (IH (Service.serve D w c) Hcs) as (A1 & A2 & A3).
  destruct (serve_quiet w c Hc) as (B1 & B2 & B3).
  unfold Service.run in *. repeat split; congruence.
Qed.

Lemma repo_GetOrderByID_reads d id :
  let d' := snd (OrderRepository.GetOrderByID d id) in
  orders d' = orders d /\ order_items d' = order_items d
  /\ orders_id_seq d' = orders_id_seq d
  /\ order_items_id_seq d' = order_items_id_seq d.
Proof.
  unfold OrderRepository.GetOrderByID.
  destruct (next_fault_rows d) as ((Ho & Hi) & Hs & Ht & _).
  destruct (next_fault d) as [f d1]; cbn in *.
  destruct f; [cbn; auto|].
  destruct (find_order d1 id); cbn; auto.
Qed.

Lemma repo_ListOrders_reads d uid page perPage :
  let d' := snd (OrderRepository.ListOrders d uid page perPage) in
  orders d' = orders d /\ order_items d' = order_items d
  /\ orders_id_seq d' = orders_id_seq d
  /\ order_items_id_seq d' = order_items_id_seq d.
Proof.
  unfold OrderRepository.ListOrders.
  destruct (next_fault_rows d) as ((Ho & Hi) & Hs & Ht & _).
  destruct (next_fault d) as [f d1]; cbn in *.
  destruct f; [cbn; auto|].
  destruct (next_fault_rows d1) as ((Ho1 & Hi1) & Hs1 & Ht1 & _).
  destruct (next_fault d1) as [f1 d2]; cbn in *.
  destruct f1; cbn; repeat split; congruence.
Qed.

Lemma serve_reads (w : World R) c :
  Service.reads c = true ->
  let d' := db (Service.serve D w c) in
  orders d' = orders (db w) /\ order_items d' = order_items (db w)
  /\ orders_id_seq d' = orders_id_seq (db w)
  /\ order_items_id_seq d' = order_items_id_seq (db w).
Proof.
  destruct c as [req|id|uid page perPage|req|oid iid|oid st]; cbn;
    intros Hv; try discriminate Hv.
  - pose proof (repo_GetOrderByID_reads (db w) id) as H. unfold GetOrderByID.
    destruct (OrderRepository.GetOrderByID (db w) id) as [[o|e] d]; exact H.
  - pose proof (repo_ListOrders_reads (db w) uid page perPage) as H.
    unfold ListOrders.
    destruct (OrderRepository.ListOrders (db w) uid page perPage)
      as [[[os total]|e] d]; exact H.
Qed.

Lemma run_reads cs : forall w : World R,
  forallb Service.reads cs = true ->
  let d' := db (Service.run D w cs) in
  orders d' = orders (db w) /\ order_items d' = order_items (db w)
  /\ orders_id_seq d' = orders_id_seq (db w)
  /\ order_items_id_seq d' = order_items_id_seq (db w).
Proof.
  induction cs as [|c cs IH]; intros w H; [cbn; auto|].
  cbn in H. apply andb_true_iff in H. destruct H as [Hc Hcs].
  cbn [Service.run fold_left].
  destruct (IH (Service.serve D w c) Hcs) as (A1 & A2 & A3 & A4).
  destruct (serve_reads w c Hc) as (B1 & B2 & B3 & B4).
  unfold Service.run in *. cbv zeta. repeat split; congruence.
Qed.

Lemma reads_do_not_validate cs :
  forallb Service.reads cs = true -> existsb Service.validates cs = false.
Proof.
  induction cs as [|c cs IH]; [reflexivity|]. cbn.
  intros H. apply andb_true_iff in H. destruct H as [Hc Hcs].
  rewrite (IH Hcs). destruct c; cbn in *; congruence.
Qed.
End Quiet.

(** X19: what the calls leave alone.  After any sequence of
    [GetOrderByID] and [ListOrders] calls, failed or not, the rows of
    both tables and both sequences are what they were.  After any
    sequence of calls that holds neither [CreateOrder] nor
    [AddOrderItem] (so reads, [RemoveOrderItem], [UpdateOrderStatus]) no
    downstream service has been called and the two breakers are as they
    were: a user or product service that is down, or an open breaker,
    does not get in the way of these calls. *)
Theorem calls_that_stay_inside {R : Type} (D : Downstream R) (w : World R)
    (cs : list Service.Call) :
  let w' := Service.run D w cs in
  (forallb Service.reads cs = true ->
   store.orders (db w') = store.orders (db w)
   /\ store.order_items (db w') = store.order_items (db w)
   /\ store.orders_id_seq (db w') = store.orders_id_seq (db w)
   /\ store.order_items_id_seq (db w') = store.order_items_id_seq (db w))
  /\ (existsb Service.validates cs = false ->
      remote w' = remote w /\ userConn w' = userConn w
      /\ productConn w' = productConn w).
Proof.
  cbv zeta. split; [apply run_reads|apply run_quiet].
Qed.

Lemma calls_that_stay_inside_witness :
  let w := Scenario.worldDown in
  let w' := Service.run Scenario.D w
              [Service.RemoveOrderItem 1 1;
               Service.UpdateOrderStatus 1 domain.OrderStatusPaid;
               Service.GetOrderByID 1] in
  remote w' = remote w /\ userConn w' = userConn w.
Proof.
  cbv zeta.
  destruct (calls_that_stay_inside Scenario.D Scenario.worldDown
              [Service.RemoveOrderItem 1 1;
               Service.UpdateOrderStatus 1 domain.OrderStatusPaid;
               Service.GetOrderByID 1]) as [_ H].
  destruct (H eq_refl) as (Hr & Hu & _). split; [exact Hr|exact Hu].
Defined.

(** * Pages before the first *)
Section FirstPage.
Import store.

Lemma offset_limit_nonpositive {A : Type} off limit (rows : list A) :
  off <= 0 ->
  OrderRepository.offset_limit off limit rows
  = OrderRepository.offset_limit 0 limit rows.
Proof.
  intros H. unfold OrderRepository.offset_limit.
  replace (0 <? off) with false by (symmetry; apply Z.ltb_ge; exact H).
  reflexivity.
Qed.

Lemma repo_ListOrders_before_first d userID page perPage :
  - 2 ^ 63 <= (page - 1) * perPage <= 0 ->
  OrderRepository.ListOrders d userID page perPage
  = OrderRepository.ListOrders d userID 1 perPage.
Proof.
  intros [Hlo Hhi]. unfold OrderRepository.ListOrders.
  destruct (next_fault d) as [f d1]. destruct f; [reflexivity|].
  destruct (next_fault d1) as [f1 d2]. destruct f1; [reflexivity|].
  rewrite (int64_small ((page - 1) * perPage))
    by (split; [exact Hlo|apply Z.le_lt_trans with 0; [exact Hhi|reflexivity]]).
  rewrite (offset_limit_nonpositive ((page - 1) * perPage)) by exact Hhi.
  replace ((1 - 1) * perPage) with 0 by lia.
  reflexivity.
Qed.

Lemma handler_ListOrders_page_le_0 {R : Type}
    (req : orderpb.ListOrdersRequest.t) (w : World R) :
  - 2 ^ 31 <= orderpb.ListOrdersRequest.Page req <= 0 ->
  0 <= orderpb.ListOrdersRequest.PerPage req < 2 ^ 31 ->
  OrderGRPCHandler.ListOrders req w
  = OrderGRPCHandler.ListOrders
      (orderpb.ListOrdersRequest.mk (orderpb.ListOrdersRequest.UserId req) 1
         (orderpb.ListOrdersRequest.PerPage req)) w.
Proof.
  intros Hp Hq. unfold OrderGRPCHandler.ListOrders.
  cbn [orderpb.ListOrdersRequest.Page orderpb.ListOrdersRequest.PerPage
       orderpb.ListOrdersRequest.UserId].
  change (1 =? 0) with false. cbv iota.
  set (perPage := if orderpb.ListOrdersRequest.PerPage req =? 0 then 10
                  else orderpb.ListOrdersRequest.PerPage req).
  set (page := if orderpb.ListOrdersRequest.Page req =? 0 then 1
               else orderpb.ListOrdersRequest.Page req).
  assert (Hpage : - 2 ^ 31 <= page <= 1 /\ page <> 0).
  { unfold page.
    destruct (Z.eqb_spec (orderpb.ListOrdersRequest.Page req) 0);
      [split; [split; [discriminate|]|]; lia|lia]. }
  assert (Hper : 1 <= perPage < 2 ^ 31).
  { unfold perPage.
    destruct (Z.eqb_spec (orderpb.ListOrdersRequest.PerPage req) 0);
      [split; [lia|reflexivity]|lia]. }
  unfold OrderUsecase.ListOrders.
  rewrite (repo_ListOrders_before_first (db w) _ page perPage); [reflexivity|].
  change (2 ^ 31) with 2147483648 in *.
  change (2 ^ 63) with 9223372036854775808. nia.
Qed.
End FirstPage.

(** X20: there is no page before the first.  A [ListOrders] request
    whose page number is zero or negative is answered exactly as the
    request for page one with the same user and page size (ten when the
    size is zero): the same orders, the same count, the same error if a
    statement fails. *)
Theorem handler_ListOrders_before_first {R : Type}
    (req : orderpb.ListOrdersRequest.t) (w : World R) :
  - 2 ^ 31 <= orderpb.ListOrdersRequest.Page req <= 0 ->
  0 <= orderpb.ListOrdersRequest.PerPage req < 2 ^ 31 ->
  OrderGRPCHandler.ListOrders req w
  = OrderGRPCHandler.ListOrders
      (orderpb.ListOrdersRequest.mk (orderpb.ListOrdersRequest.UserId req) 1
         (orderpb.ListOrdersRequest.PerPage req)) w.
Proof. apply handler_ListOrders_page_le_0. Qed.

Lemma handler_ListOrders_before_first_witness :
  let create := Service.CreateOrder
                  (dto.CreateOrderRequest.mk 1 F32.zero 0 F32.zero
                     [dto.OrderItemInput.mk 7 1]) in
  let w := Service.run Scenario.D Scenario.world0_plain [create; create] in
  OrderGRPCHandler.ListOrders (orderpb.ListOrdersRequest.mk 1 (-3) 0) w
  = OrderGRPCHandler.ListOrders (orderpb.ListOrdersRequest.mk 1 1 0) w.
Proof.
  cbv zeta.
  apply (handler_ListOrders_before_first
           (orderpb.ListOrdersRequest.mk 1 (-3) 0)).
  - cbn. split; [vm_compute; discriminate|lia].
  - cbn. split; [lia|reflexivity].
Defined.

(** * A new order in the list *)
Section NewestFirst.
Import domain dto store Integrity OrderUsecase.
Context {R : Type} (D : Downstream R).

Lemma usecase_CreateOrder_heads req (w w1 : World R) o userID perPage :
  well_formed (db w) ->
  CreateOrder D req w = (Ok o, w1) ->
  no_faults (db w1) ->
  1 <= perPage ->
  userID = None \/ userID = Some (CreateOrderRequest.UserID req) ->
  exists first rest total,
    ListOrders userID 1 perPage w1 = (Ok (first :: rest, total), w1)
    /\ Order.ID first = Order.ID o
    /\ Order.UserID first = CreateOrderRequest.UserID req
    /\ Order.Total first = Order.Total o
    /\ Order.Status first = OrderStatusPending
    /\ Order.Items first = items_of (db w1) (Order.ID o)
    /\ (forall other, In other rest -> Order.ID other < Order.ID o)
    /\ 1 <= total.
Proof.
  intros Hw HC Hf Hper Hu.
  destruct (usecase_CreateOrder_ok D req w w1 o HC)
    as (Hfresh & Hid & Ho & _ & Hdel & Huser & _ & _ & _ & Hst & _).
  assert (Hw1 : well_formed (db w1)).
  { destruct (usecase_CreateOrder_keeps D req w) as [_ Hk].
    rewrite HC in Hk. cbn in Hk. auto. }
  assert (Hnd : NoDup (map Order.ID (orders (db w1))))
    by (destruct Hw1 as (_ & _ & _ & _ & Hnd & _); exact Hnd).
  assert (Hbig : (1 - 1) * perPage < 2 ^ 63)
    by (replace ((1 - 1) * perPage) with 0 by lia; reflexivity).
  destruct (usecase_ListOrders_slice userID 1 perPage w1 Hf Hnd
              ltac:(lia) Hper Hbig)
    as (before & rows & after & HL & Hsorted & Hin & Hb & Hr).
  replace ((1 - 1) * perPage) with 0 in Hb by lia.
  assert (Eb : before = []).
  { destruct before; [reflexivity|]. cbn [List.length] in Hb. lia. }
  subst before. cbn [app List.length] in *.
  set (row := order_row o (Order.ID o)) in *.
  assert (Hrow : In row (rows ++ after)).
  { apply Hin. split; [rewrite Ho; apply in_or_app; right; left; reflexivity|].
    split; [exact Hdel|].
    intros id E. destruct Hu as [Hu|Hu]; rewrite Hu in E; [discriminate|].
    inversion E; subst id. cbn. exact Huser. }
  destruct rows as [|first rows'].
  { exfalso. cbn [app List.length] in *.
    destruct after; [destruct Hrow|]. cbn [List.length] in Hr. lia. }
  assert (Hfirst : In first (orders (db w1)))
    by (apply Hin; left; reflexivity).
  assert (Hle : Order.ID first <= Order.ID row).
  { rewrite Ho in Hfirst. apply in_app_or in Hfirst.
    destruct Hfirst as [Hold|[<-|[]]]; [|lia].
    destruct Hw as (Hb0 & _). specialize (Hb0 _ Hold). cbn. lia. }
  cbn [app] in Hsorted, Hrow.
  inversion Hsorted as [|? ? Hall Hrest]; subst.
  assert (E : first = row).
  { destruct Hrow as [E|Hlater]; [exact E|].
    exfalso. rewrite Forall_forall in Hall. specialize (Hall row Hlater). lia. }
  subst first. cbn [map] in HL.
  eexists _, _, _. split; [exact HL|].
  cbn. repeat split; auto; try lia.
  intros other Hother. apply in_map_iff in Hother.
  destruct Hother as (x & <- & Hx). cbn.
  rewrite Forall_forall in Hall. apply Hall. apply in_or_app. now left.
Qed.
End NewestFirst.

(** X21: a new order heads the list.  On a well-formed store, after
    [CreateOrder] has succeeded, the first page of [ListOrders], over all
    users or over the request's user and for any page size of at least
    one (when no statement fails), starts with the new order: its id, its
    user, its total, the status [pending] and its stored items; every
    other order of the page has a smaller id. *)
Theorem created_order_heads_the_list {R : Type} (D : Downstream R)
    (req : dto.CreateOrderRequest.t) (w w1 : World R) (o : domain.Order.t)
    (userID : option Z) (perPage : Z) :
  Integrity.well_formed (db w) ->
  OrderUsecase.CreateOrder D req w = (Ok o, w1) ->
  Integrity.no_faults (db w1) ->
  1 <= perPage ->
  userID = None \/ userID = Some (dto.CreateOrderRequest.UserID req) ->
  exists first rest total,
    OrderUsecase.ListOrders userID 1 perPage w1
    = (Ok (first :: rest, total), w1)
    /\ domain.Order.ID first = domain.Order.ID o
    /\ domain.Order.UserID first = dto.CreateOrderRequest.UserID req
    /\ domain.Order.Total first = domain.Order.Total o
    /\ domain.Order.Status first = domain.OrderStatusPending
    /\ domain.Order.Items first = store.items_of (db w1) (domain.Order.ID o)
    /\ (forall other, In other rest
                      -> domain.Order.ID other < domain.Order.ID o)
    /\ 1 <= total.
Proof. apply usecase_CreateOrder_heads. Qed.

Lemma created_order_heads_the_list_witness :
  let req := dto.CreateOrderRequest.mk 1 F32.zero 0 F32.zero
               [dto.OrderItemInput.mk 7 1] in
  let w := Service.run Scenario.D Scenario.world0
             [Service.CreateOrder req] in
  let created := OrderUsecase.CreateOrder Scenario.D req w in
  exists o first rest total,
    fst created = Ok o
    /\ fst (OrderUsecase.ListOrders (Some 1) 1 10 (snd created))
       = Ok (first :: rest, total)
    /\ domain.Order.ID first = domain.Order.ID o.
Proof.
  cbv zeta.
  set (req := dto.CreateOrderRequest.mk 1 F32.zero 0 F32.zero
                [dto.OrderItemInput.mk 7 1]).
  set (w := Service.run Scenario.D Scenario.world0 [Service.CreateOrder req]).
  set (created := OrderUsecase.CreateOrder Scenario.D req w).
  destruct (fst created) as [o|e] eqn:E; [|vm_compute in E; discriminate E].
  apply pair_eta in E.
  destruct (created_order_heads_the_list Scenario.D req w (snd created) o
              (Some 1) 10) as (first & rest & total & HL & Hid & _).
  - apply (run_keeps Scenario.D [Service.CreateOrder req] Scenario.world0).
    unfold Integrity.well_formed, Integrity.references_ok. cbn.
    repeat split; try lia; try (intros ? []); constructor.
  - exact E.
  - vm_compute. reflexivity.
  - lia.
  - right. reflexivity.
  - exists o, first, rest, total. rewrite HL. auto.
Defined.
